(** * gorc2: the Orchestrate client library, its reply handling, its
      resource operations and its pagination iterator.

    A shallow embedding of
      - errors.go        (newError and the error kinds),
      - the client file  (doRequest, emptyReply, jsonReply),
      - the key/value, event and graph files (Create, Update, GetRef,
        innerPut, innerAddEvent, innerUpdateEvent, List, Search, History,
        ListEvents, GetLinks),
      - item.go          (Item.Update, Item.Delete, Event.Update,
        Event.Delete),
      - list.go          (Iterator, Next, Get, GetEvent),
    and, further down, of the calls that return only an error (Ping,
    Delete, Purge, Link, Unlink, DeleteEvent), of the search proxy of
    web.go (module [Web]) and of the older client, package gorc (module
    [Gorc]).

    Go values are modelled as the code has them: strings are byte strings,
    [int] and [int64] are [Z], a nil-able [error] is [option error], HTTP
    header maps are finite maps, and the network is an explicit world that
    logs every request sent and every body closed. *)

From Stdlib Require Import ZArith List Ascii String Lia Bool.
From stdpp Require Import base strings gmap pretty.

Open Scope string_scope.
Open Scope list_scope.
Open Scope Z_scope.

(* ================================================================== *)
(** ** The parts of Go's [strings] and [strconv] packages the code uses *)
(* ================================================================== *)

Module GoStrings.

(** [len(s)] as a Go [int]. *)
Definition len (s : string) : Z := Z.of_nat (String.length s).

(** [strings.LastIndex(s, sep)]: the byte offset of the last occurrence
    of [sep] in [s], or -1. [pos] is the offset of [s] in the whole
    string. *)
Fixpoint LastIndex_from (pos : Z) (s sep : string) : Z :=
  match s with
  | EmptyString => if String.prefix sep EmptyString then pos else -1
  | String _ s' =>
      let r := LastIndex_from (pos + 1) s' sep in
      if 0 <=? r then r
      else if String.prefix sep s then pos else -1
  end.

Definition LastIndex (s sep : string) : Z := LastIndex_from 0 s sep.

(** The slice expression [s[lo:hi]]. Go panics unless
    [0 <= lo <= hi <= len(s)]; the package only slices at
    [LastIndex(s, "/") + 1] and [len(s)] after checking that the index is
    not -1, which is always in range ([LastIndex_slash_bounds] below). *)
Definition slice (s : string) (lo hi : Z) : string :=
  String.substring (Z.to_nat lo) (Z.to_nat (hi - lo)) s.

(** The one-byte string holding a double quote, written with a backquoted
    literal in the source. *)
Definition dquote : string := String (ascii_of_nat 34) EmptyString.

(** [strings.TrimPrefix(s, prefix)]. *)
Definition TrimPrefix (s prefix : string) : string :=
  if String.prefix prefix s
  then String.substring (String.length prefix)
         (String.length s - String.length prefix) s
  else s.

(** [strings.Split(s, sep)] for a non-empty separator: the pieces of [s]
    between the non-overlapping occurrences of [sep], found left to
    right. [skip] counts the bytes of a separator still to be passed
    over and [cur] is the piece being built, reversed. *)
Fixpoint Split_from (sep : string) (skip : nat) (cur : list ascii)
    (s : string) : list string :=
  match s with
  | EmptyString => [string_of_list_ascii (rev cur)]
  | String c s' =>
      match skip with
      | S k => Split_from sep k cur s'
      | O =>
          if String.prefix sep s
          then string_of_list_ascii (rev cur)
                 :: Split_from sep (String.length sep - 1) [] s'
          else Split_from sep O (c :: cur) s'
      end
  end.

Definition Split (s sep : string) : list string := Split_from sep O [] s.

(** [strings.Join(a, sep)]. *)
Fixpoint Join (a : list string) (sep : string) : string :=
  match a with
  | [] => ""
  | [x] => x
  | x :: rest => x +:+ sep +:+ Join rest sep
  end.

(** One decimal digit. *)
Definition digit (c : ascii) : option Z :=
  let n := Z.of_nat (nat_of_ascii c) in
  if (48 <=? n) && (n <=? 57) then Some (n - 48) else None.

(** The digits of a [strconv.ParseUint(s, 10, 64)] argument, most
    significant first; any other byte is a syntax error. *)
Fixpoint digits (acc : Z) (s : string) : option Z :=
  match s with
  | EmptyString => Some acc
  | String c s' =>
      match digit c with
      | Some d => digits (10 * acc + d) s'
      | None => None
      end
  end.

Definition MaxInt64 : Z := 2 ^ 63 - 1.
Definition MinInt64 : Z := - 2 ^ 63.

(** [strconv.ParseInt(s, 10, 64)]: an optional sign, then at least one
    decimal digit; [None] stands for the syntax and range errors. *)
Definition ParseInt (s : string) : option Z :=
  let '(neg, body) :=
    match s with
    | String "+" r => (false, r)
    | String "-" r => (true, r)
    | _ => (false, s)
    end in
  match body with
  | EmptyString => None
  | _ =>
      match digits 0 body with
      | Some n =>
          let v := if neg then - n else n in
          if (MinInt64 <=? v) && (v <=? MaxInt64) then Some v else None
      | None => None
      end
  end.

(** [strconv.Itoa] and [strconv.FormatInt(_, 10)], and the [%d] verb. *)
Definition Itoa (n : Z) : string := pretty n.

(** Two's-complement wrap-around of [int64] arithmetic. *)
Definition wrap64 (z : Z) : Z := (z + 2 ^ 63) mod 2 ^ 64 - 2 ^ 63.

End GoStrings.

Import GoStrings.


(* ================================================================== *)
(** ** errors.go: the error kinds *)
(* ================================================================== *)

(** Go's [error] interface, closed over the implementations this package
    returns. [errorString] is the type of [errors.New] and [fmt.Errorf]
    values, and stands for the errors of net/http and encoding/json too.
    The nil error is [None : option error]. *)
Inductive error : Type :=
| AlreadyExistsError (a : string)
| NotMostRecentError (a : string)
| NotFoundError (n : string)
| PreconditionFailedError (p : string)
| RateLimitedError (p : string)
| UnknownError (Status : string) (StatusCode : Z) (Message : string)
| errorString (s : string).

(** The [Error()] method of each kind. *)
Definition Error_text (e : error) : string :=
  match e with
  | AlreadyExistsError a => "An item with the key " +:+ a +:+ " already exists."
  | NotMostRecentError a => a +:+ " was not the most recent ref."
  | NotFoundError n => n
  | PreconditionFailedError p => p
  | RateLimitedError p => p
  | UnknownError st code msg => st +:+ " (" +:+ Itoa code +:+ "): " +:+ msg
  | errorString s => s
  end.

(* ================================================================== *)
(** ** Package time, as far as the code uses it *)
(* ================================================================== *)

(** A [time.Time] instant: whole seconds since January 1 of year 1 (an
    [int64]) and nanoseconds within the second, [0 <= nsec < 1e9]. The
    location pointer is left out. *)
Record Time : Type := mkTime { sec : Z; nsec : Z }.

Definition unixToInternal : Z := 62135596800.
Definition internalToUnix : Z := - unixToInternal.

(** The zero [time.Time{}]. *)
Definition defaultTime : Time := mkTime 0 0.

(** [t.UnixNano()]: [(t.sec + internalToUnix)*1e9 + int64(t.nsec)] in
    [int64] arithmetic. *)
Definition UnixNano (t : Time) : Z :=
  wrap64 ((sec t + internalToUnix) * 1000000000 + nsec t).

(** [time.Unix(sec, nsec)], with its normalisation of [nsec]. Go's [/] on
    integers truncates toward zero ([Z.quot]). *)
Definition Unix (s n : Z) : Time :=
  let '(s1, n1) :=
    if (n <? 0) || (1000000000 <=? n) then
      let q := Z.quot n 1000000000 in
      let s' := wrap64 (s + q) in
      let n' := wrap64 (n - wrap64 (q * 1000000000)) in
      if n' <? 0 then (wrap64 (s' - 1), wrap64 (n' + 1000000000)) else (s', n')
    else (s, n) in
  mkTime (wrap64 (s1 + unixToInternal)) n1.

(** The wire form of a timestamp: [ts.UnixNano()/1000000]. *)
Definition encodeTimestamp (t : Time) : Z := Z.quot (UnixNano t) 1000000.

(** The way every reader of a wire timestamp rebuilds the time:
    [secs := ms / 1000; nsecs := (ms % 1000) * 1000000;
     time.Unix(secs, nsecs)]. Go's [%] is [Z.rem]. *)
Definition decodeTimestamp (ms : Z) : Time :=
  let secs := Z.quot ms 1000 in
  let nsecs := wrap64 (Z.rem ms 1000 * 1000000) in
  Unix secs nsecs.

(* ================================================================== *)
(** ** net/http as the client sees it *)
(* ================================================================== *)

(** [http.Header] is a [map[string][]string]. *)
Definition Header_Get (h : gmap string (list string)) (key : string) : string :=
  match h !! key with
  | Some (v :: _) => v
  | _ => ""
  end.

Definition Header_Add (h : gmap string (list string)) (key value : string)
  : gmap string (list string) :=
  <[key := default [] (h !! key) ++ [value]]> h.

(** An [http.Request] as [doRequest] builds it. [BasicAuth] is the
    user/password pair given to [SetBasicAuth]. *)
Record Request : Type := mkRequest {
  Method : string;
  URL : string;
  ReqHeader : gmap string (list string);
  BasicAuth : string * string;
  ReqBody : option string
}.

(** An [http.Response]. [Body] is everything the body reader will
    deliver; how much of it a caller has read is tracked separately. *)
Record Response : Type := mkResponse {
  Status : string;
  StatusCode : Z;
  RespHeader : gmap string (list string);
  Body : string
}.

(** [float32] values are only copied by this code, never computed on:
    they are kept as their IEEE-754 bit pattern. *)
Definition float32 : Type := N.

(** [json.RawMessage]: the bytes of a JSON value. *)
Definition RawMessage : Type := string.

(** The wire types of list.go and of the events file. *)
Record jsonPath : Type := mkJsonPath {
  path_Collection : string;
  path_Key : string;
  path_Ordinal : Z;
  path_Ref : string;
  path_Timestamp : Z;
  path_Tombstone : bool;
  path_Type : string
}.

Record jsonListItem : Type := mkJsonListItem {
  li_Distance : float32;
  li_Ordinal : Z;
  li_Path : jsonPath;
  li_RefTime : Z;
  li_Score : float32;
  li_Timestamp : Z;
  li_Value : RawMessage
}.

(** [Results] is a [[]*jsonListItem]: a slice of pointers, in which
    encoding/json puts a nil for a JSON [null]. A pointer is an
    [option]. *)
Record jsonList : Type := mkJsonList {
  Count : Z;
  TotalCount : Z;
  Next_url : string;
  Prev_url : string;
  Results : list (option jsonListItem)
}.

Record jsonEvent : Type := mkJsonEvent {
  je_Ordinal : Z;
  je_Path : jsonPath;
  je_Timestamp : Z;
  je_Value : RawMessage
}.

(** [json.NewDecoder(r).Decode(&v)] for a destination of type [A]: the
    decoded value or the error, and the bytes of [r] left unread. *)
Definition Decoder (A : Type) : Type := string -> (error + A) * string.

(** What the library is linked against: the HTTP client that executes a
    request ([client.Do], an [http.RoundTripper] underneath; here a
    server that answers the same request the same way every time),
    [http.NewRequest]'s validation of method and URL, the decompressors,
    [runtime.Version()], [url.Values.Encode], and encoding/json's decoder
    at each destination type the package decodes into (for [UnknownError]
    the result is the [Message] field, empty when the body has none). A
    reader function returns what it produced together with the bytes of
    the body it left unread. *)
Class Platform : Type := {
  Do : Request -> error + Response;
  NewRequest_error : string -> string -> option error;
  gzip_NewReader : string -> (error * string) + string;
  flate_NewReader : string -> string;
  runtime_Version : string;
  Encode : gmap string (list string) -> string;
  Decode_UnknownError : Decoder string;
  Decode_RawMessage : Decoder RawMessage;
  Decode_jsonList : Decoder jsonList;
  Decode_jsonEvent : Decoder jsonEvent
}.

(** [json.Marshal(v)] for a value of type [V]. *)
Class JSONMarshaler (V : Type) : Type :=
  Marshal : V -> error + string.

(** [json.Unmarshal(data, &d)] for a destination of type [D]; the
    destination itself belongs to the caller and is not tracked. *)
Class JSONUnmarshaler (D : Type) : Type :=
  Unmarshal : string -> D -> option error.

(* ================================================================== *)
(** ** The world: requests sent, bodies closed *)
(* ================================================================== *)

(** [sent] logs every request handed to the HTTP client, latest first;
    [closed] logs, for every response body closed, the bytes that were
    still unread at that moment, latest first. *)
Record World : Type := mkWorld {
  sent : list Request;
  closed : list string
}.

Definition emptyWorld : World := mkWorld [] [].

(** The number of network calls made so far. *)
Definition fetches (w : World) : nat := length (sent w).

Definition M (A : Type) : Type := World -> A * World.

Definition ret {A} (a : A) : M A := fun w => (a, w).

Definition bind {A B} (m : M A) (k : A -> M B) : M B :=
  fun w => let '(a, w') := m w in k a w'.

Notation "x <- m ;; k" := (bind m (fun x => k))
  (at level 100, m at next level, right associativity).
Notation "m ;;; k" := (bind m (fun _ => k))
  (at level 100, right associativity).

Definition send (req : Request) : M unit :=
  fun w => (tt, mkWorld (req :: sent w) (closed w)).

(** [resp.Body.Close()] with [unread] bytes not yet read. *)
Definition Close (unread : string) : M unit :=
  fun w => (tt, mkWorld (sent w) (unread :: closed w)).

(* ================================================================== *)
(** ** The client *)
(* ================================================================== *)

Definition DefaultAPIHost : string := "api.cl1.orchestrate.io".
Definition clientVersion : Z := 1.

Definition userAgent `{Platform} : string :=
  "gorc2/" +:+ Itoa clientVersion +:+ " (" +:+ runtime_Version +:+ ")".

Definition userAgentDeprecated `{Platform} : string :=
  "gorc2/" +:+ Itoa clientVersion +:+ " (" +:+ runtime_Version
    +:+ ") [deprecated]".

Record Client : Type := mkClient {
  APIHost : string;
  authToken : string;
  deprecated : Z
}.

Definition NewClient (token : string) : Client :=
  mkClient DefaultAPIHost token 0.

Record Collection : Type := mkCollection {
  Name : string;
  client : Client
}.

Definition Client_Collection (c : Client) (name : string) : Collection :=
  mkCollection name c.

(** The request [doRequest] hands to the HTTP client. *)
Definition buildRequest `{Platform} (c : Client) (method trailing : string)
    (headers : gmap string string) (body : option string) : Request :=
  let host := if bool_decide (APIHost c = "") then DefaultAPIHost
              else APIHost c in
  let url := "http://" +:+ host +:+ "/v0/" +:+ trailing in
  let h0 : gmap string (list string) := (fun v => [v]) <$> headers in
  let h1 := Header_Add h0 "User-Agent"
              (if bool_decide (deprecated c = 0) then userAgent
               else userAgentDeprecated) in
  let h2 := match body with
            | Some _ => Header_Add h1 "Content-Type" "application/json"
            | None => h1
            end in
  mkRequest method url h2 (authToken c, "") body.

(** [Client.doRequest]. *)
Definition doRequest `{Platform} (c : Client) (method trailing : string)
    (headers : gmap string string) (body : option string)
  : M (error + Response) :=
  let req := buildRequest c method trailing headers body in
  match NewRequest_error method (URL req) with
  | Some err => ret (inl err)
  | None => send req ;;; ret (Do req)
  end.

(** [newError]: the classifier. Besides the error it returns the bytes of
    the response body it left unread. *)
Definition newError `{Platform} (resp : Response) : error * string :=
  if bool_decide (StatusCode resp = 404) then
    (NotFoundError "404: Not found.", Body resp)
  else if bool_decide (StatusCode resp = 412) then
    (PreconditionFailedError "412: Precondition failed.", Body resp)
  else if bool_decide (StatusCode resp = 419) then
    (RateLimitedError "Request rate limited.", Body resp)
  else
    match Decode_UnknownError (Body resp) with
    | (inl err, rest) =>
        (UnknownError (Status resp) (StatusCode resp) (Error_text err), rest)
    | (inr message, rest) =>
        (UnknownError (Status resp) (StatusCode resp) message, rest)
    end.

(** [Client.emptyReply]. The deferred [resp.Body.Close()] runs on every
    return after the request succeeded. *)
Definition emptyReply `{Platform} (c : Client)
    (method path : string) (headers : gmap string string)
    (body : option string) (status : Z) : M (error + Response) :=
  r <- doRequest c method path headers body ;;
  match r with
  | inl err => ret (inl err)
  | inr resp =>
      if negb (bool_decide (StatusCode resp = status)) then
        let '(err, unread) := newError resp in
        Close unread ;;; ret (inl err)
      else
        (* io.Copy(ioutil.Discard, resp.Body) reads the body to its end *)
        Close "" ;;; ret (inr resp)
  end.

(** [Client.jsonReply], for a destination [value] of type [A], given by
    its decoder. On success the decoded value is returned with the
    response. *)
Definition jsonReply `{Platform} {A} (c : Client) (method path : string)
    (body : option string) (status : Z) (value : Decoder A)
  : M (error + (Response * A)) :=
  let headers : gmap string string :=
    {[ "Accept-Encoding" := "gzip; deflate" ]} in
  r <- doRequest c method path headers body ;;
  match r with
  | inl err => ret (inl err)
  | inr resp =>
      if negb (bool_decide (StatusCode resp = status)) then
        let '(err, unread) := newError resp in
        Close unread ;;; ret (inl err)
      else
        let enc := Header_Get (RespHeader resp) "Content-Encoding" in
        let stream :=
          if bool_decide (enc = "gzip") then gzip_NewReader (Body resp)
          else if bool_decide (enc = "deflate")
               then inr (flate_NewReader (Body resp))
               else inr (Body resp) in
        match stream with
        | inl (err, unread) => Close unread ;;; ret (inl err)
        | inr s =>
            match value s with
            | (inl err, unread) => Close unread ;;; ret (inl err)
            | (inr v, unread) => Close unread ;;; ret (inr (resp, v))
            end
        end
  end.

(* ================================================================== *)
(** ** item.go: the entities *)
(* ================================================================== *)

Record Item : Type := mkItem {
  Item_Collection : Collection;
  Item_Distance : float32;
  Item_Key : string;
  Item_Ref : string;
  Item_Score : float32;
  Item_Tombstone : bool;
  Item_Updated : Time;
  Item_Value : RawMessage
}.

Record Event : Type := mkEvent {
  Event_Collection : Collection;
  Event_Key : string;
  Event_Ordinal : Z;
  Event_Ref : string;
  Event_Timestamp : Time;
  Event_Type : string;
  Event_Value : RawMessage
}.

Definition Item_with_Ref (i : Item) (ref : string) : Item :=
  mkItem (Item_Collection i) (Item_Distance i) (Item_Key i) ref
         (Item_Score i) (Item_Tombstone i) (Item_Updated i) (Item_Value i).

(** The pair of a Go function that returns a pointer and an error, the
    two being set independently. *)
Definition result (A : Type) : Type := (option A * option error)%type.

(* ================================================================== *)
(** ** Key/value operations *)
(* ================================================================== *)

(** [Collection.innerPut]. *)
Definition innerPut `{Platform} {V} `{JSONMarshaler V} (c : Collection)
    (key : string) (headers : gmap string string) (value : V)
  : M (result Item) :=
  match Marshal value with
  | inl err => ret (None, Some err)
  | inr rawMsg =>
      let item := mkItem c 0%N key "" 0%N false defaultTime rawMsg in
      let path := Name c +:+ "/" +:+ key in
      r <- emptyReply (client c) "PUT" path headers (Some rawMsg) 201 ;;
      match r with
      | inl err => ret (None, Some err)
      | inr resp =>
          let loc := Header_Get (RespHeader resp) "Location" in
          let i := LastIndex loc "/" in
          if bool_decide (i = -1) then
            ret (None, Some (errorString "Missing Location header."))
          else
            ret (Some (Item_with_Ref item (slice loc (i + 1) (len loc))), None)
      end
  end.

(** [Collection.Create]. *)
Definition Create `{Platform} {V} `{JSONMarshaler V} (c : Collection)
    (key : string) (value : V) : M (result Item) :=
  let headers : gmap string string :=
    {[ "If-None-Match" := dquote +:+ "*" +:+ dquote ]} in
  r <- innerPut c key headers value ;;
  let '(item, err) := r in
  match err with
  | Some (PreconditionFailedError _) => ret (item, Some (AlreadyExistsError key))
  | _ => ret (item, err)
  end.

(** [Collection.Update]. *)
Definition Update `{Platform} {V} `{JSONMarshaler V} (c : Collection)
    (key : string) (value : V) : M (result Item) :=
  innerPut c key ∅ value.

(** [Collection.Delete] and [Collection.Purge]. *)
Definition Delete `{Platform} (c : Collection) (key : string)
  : M (option error) :=
  r <- emptyReply (client c) "DELETE" (Name c +:+ "/" +:+ key) ∅ None 204 ;;
  ret (match r with inl err => Some err | inr _ => None end).

Definition Purge `{Platform} (c : Collection) (key : string)
  : M (option error) :=
  r <- emptyReply (client c) "DELETE"
         (Name c +:+ "/" +:+ key +:+ "?purge=true") ∅ None 204 ;;
  ret (match r with inl err => Some err | inr _ => None end).

(** [Item.Unmarshal]. *)
Definition Item_Unmarshal {D} `{JSONUnmarshaler D} (i : Item) (value : D)
  : option error := Unmarshal (Item_Value i) value.

(** [Collection.GetRef]; [value] is [None] for a nil destination. *)
Definition GetRef `{Platform} {D} `{JSONUnmarshaler D} (c : Collection)
    (key ref : string) (value : option D) : M (result Item) :=
  let path := if bool_decide (ref = "") then Name c +:+ "/" +:+ key
              else Name c +:+ "/" +:+ key +:+ "/refs/" +:+ ref in
  r <- jsonReply (client c) "GET" path None 200 Decode_RawMessage ;;
  match r with
  | inl err => ret (None, Some err)
  | inr (resp, raw) =>
      let item := mkItem c 0%N key "" 0%N false defaultTime raw in
      let after_ref (item : Item) : M (result Item) :=
        match value with
        | Some d => ret (Some item, Item_Unmarshal item d)
        | None => ret (Some item, None)
        end in
      if bool_decide (ref = "") then
        let loc := Header_Get (RespHeader resp) "Content-Location" in
        let i := LastIndex loc "/" in
        if bool_decide (i = -1) then
          ret (None, Some (errorString "Missing Content-Location header."))
        else after_ref (Item_with_Ref item (slice loc (i + 1) (len loc)))
      else after_ref (Item_with_Ref item ref)
  end.

(** [Collection.Get]. *)
Definition Get `{Platform} {D} `{JSONUnmarshaler D} (c : Collection)
    (key : string) (value : option D) : M (result Item) :=
  GetRef c key "" value.

(** [Item.Delete]: the conditional delete. *)
Definition Item_Delete `{Platform} (i : Item) : M (option error) :=
  let headers : gmap string string :=
    {[ "If-Match" := dquote +:+ Item_Ref i +:+ dquote ]} in
  let path := Name (Item_Collection i) +:+ "/" +:+ Item_Key i in
  r <- emptyReply (client (Item_Collection i)) "DELETE" path headers None 204 ;;
  match r with
  | inl (PreconditionFailedError _) =>
      ret (Some (NotMostRecentError (Item_Ref i)))
  | inl err => ret (Some err)
  | inr _ => ret None
  end.

(** [Item.Update]: the conditional update. *)
Definition Item_Update `{Platform} {V} `{JSONMarshaler V} (i : Item)
    (value : V) : M (result Item) :=
  let headers : gmap string string :=
    {[ "If-Match" := dquote +:+ Item_Ref i +:+ dquote ]} in
  r <- innerPut (Item_Collection i) (Item_Key i) headers value ;;
  let '(item, err) := r in
  match err with
  | Some (PreconditionFailedError _) =>
      ret (item, Some (NotMostRecentError (Item_Key i)))
  | _ => ret (item, err)
  end.

(* ================================================================== *)
(** ** Event operations *)
(* ================================================================== *)

(** [parts[n]] on a slice whose length the caller has just checked. *)
Definition part (parts : list string) (n : nat) : string := nth n parts "".

(** The header parsing shared, as identical text, by [innerAddEvent] and
    [innerUpdateEvent]: the Location header gives timestamp and ordinal,
    the Etag header gives the ref. *)
Definition parseEventHeaders (resp : Response) (event : Event)
  : result Event :=
  let location := Header_Get (RespHeader resp) "Location" in
  if bool_decide (location = "") then
    (None, Some (errorString "Missing Location header."))
  else
    let parts := Split location "/" in
    if negb (bool_decide (length parts = 8%nat)) then
      (None, Some (errorString "Malformed Location header."))
    else
      match ParseInt (part parts 6) with
      | None =>
          (None, Some (errorString "Malformed Timestamp in the Location header."))
      | Some ts =>
          match ParseInt (part parts 7) with
          | None =>
              (None, Some (errorString "Malformed Ordinal in the Location header."))
          | Some ord =>
              let etag := Header_Get (RespHeader resp) "Etag" in
              if bool_decide (etag = "") then
                (None, Some (errorString "Missing ETag header."))
              else
                let eparts := Split etag dquote in
                if negb (bool_decide (length eparts = 3%nat)) then
                  (None, Some (errorString "Malformed ETag header."))
                else
                  (Some (mkEvent (Event_Collection event) (Event_Key event)
                           ord (part eparts 1) (decodeTimestamp ts)
                           (Event_Type event) (Event_Value event)),
                   None)
          end
      end.

(** [Collection.innerAddEvent]; [ts] is [None] for a nil timestamp. *)
Definition innerAddEvent `{Platform} {V} `{JSONMarshaler V} (c : Collection)
    (key typ : string) (ts : option Time) (value : V) : M (result Event) :=
  match Marshal value with
  | inl err => ret (None, Some err)
  | inr rawMsg =>
      let event := mkEvent c key 0 "" defaultTime typ rawMsg in
      let headers : gmap string string :=
        {[ "Content-Type" := "application/json" ]} in
      let path :=
        match ts with
        | Some t => Name c +:+ "/" +:+ key +:+ "/events/" +:+ typ +:+ "/"
                      +:+ Itoa (encodeTimestamp t)
        | None => Name c +:+ "/" +:+ key +:+ "/events/" +:+ typ
        end in
      r <- emptyReply (client c) "POST" path headers (Some rawMsg) 201 ;;
      match r with
      | inl err => ret (None, Some err)
      | inr resp => ret (parseEventHeaders resp event)
      end
  end.

(** [Collection.AddEvent] and [Collection.AddEventWithTimestamp]. *)
Definition AddEvent `{Platform} {V} `{JSONMarshaler V} (c : Collection)
    (key typ : string) (value : V) : M (result Event) :=
  innerAddEvent c key typ None value.

Definition AddEventWithTimestamp `{Platform} {V} `{JSONMarshaler V}
    (c : Collection) (key typ : string) (ts : Time) (value : V)
  : M (result Event) :=
  innerAddEvent c key typ (Some ts) value.

(** The path of one event: ["%s/%s/events/%s/%d/%d"]. *)
Definition eventPath (c : Collection) (key typ : string) (ts : Time)
    (ordinal : Z) : string :=
  Name c +:+ "/" +:+ key +:+ "/events/" +:+ typ +:+ "/"
    +:+ Itoa (encodeTimestamp ts) +:+ "/" +:+ Itoa ordinal.

(** [Collection.innerUpdateEvent]. *)
Definition innerUpdateEvent `{Platform} {V} `{JSONMarshaler V}
    (c : Collection) (key typ : string) (ts : Time) (ordinal : Z)
    (value : V) (headers : gmap string string) : M (result Event) :=
  match Marshal value with
  | inl err => ret (None, Some err)
  | inr rawMsg =>
      let event := mkEvent c key ordinal "" ts typ rawMsg in
      r <- emptyReply (client c) "PUT" (eventPath c key typ ts ordinal)
             headers (Some rawMsg) 204 ;;
      match r with
      | inl err => ret (None, Some err)
      | inr resp => ret (parseEventHeaders resp event)
      end
  end.

(** [Collection.UpdateEvent]. *)
Definition UpdateEvent `{Platform} {V} `{JSONMarshaler V} (c : Collection)
    (key typ : string) (ts : Time) (ordinal : Z) (value : V)
  : M (result Event) :=
  innerUpdateEvent c key typ ts ordinal value
    {[ "Content-Type" := "application/json" ]}.

(** [Collection.GetEvent]. *)
Definition GetEvent `{Platform} {D} `{JSONUnmarshaler D} (c : Collection)
    (key typ : string) (ts : Time) (ordinal : Z) (value : option D)
  : M (result Event) :=
  r <- jsonReply (client c) "GET" (eventPath c key typ ts ordinal) None 200
         Decode_jsonEvent ;;
  match r with
  | inl err => ret (None, Some err)
  | inr (_, responseData) =>
      let event :=
        mkEvent c key (je_Ordinal responseData)
          (path_Ref (je_Path responseData))
          (decodeTimestamp (je_Timestamp responseData))
          typ (je_Value responseData) in
      match value with
      | Some d => ret (Some event, Unmarshal (Event_Value event) d)
      | None => ret (Some event, None)
      end
  end.

(* ================================================================== *)
(** ** list.go: the iterator *)
(* ================================================================== *)

(** The [Iterator] struct. [results] is a slice of pointers, as the
    decoder made it: an element is [None] for a nil pointer. *)
Record Iterator : Type := mkIterator {
  Error : option error;
  Iterator_client : Client;
  done : bool;
  index : Z;
  iteratingEvents : bool;
  iteratingItems : bool;
  next : string;
  results : list (option jsonListItem)
}.

(** The composite literal every listing call returns: the three fields it
    names, all others zero. *)
Definition newIterator (c : Client) (events items : bool) (path : string)
  : Iterator :=
  mkIterator None c false 0 events items path [].

Definition set_index (i : Iterator) (n : Z) : Iterator :=
  mkIterator (Error i) (Iterator_client i) (done i) n (iteratingEvents i)
    (iteratingItems i) (next i) (results i).

Definition set_done (i : Iterator) (b : bool) : Iterator :=
  mkIterator (Error i) (Iterator_client i) b (index i) (iteratingEvents i)
    (iteratingItems i) (next i) (results i).

Definition set_Error (i : Iterator) (e : option error) : Iterator :=
  mkIterator e (Iterator_client i) (done i) (index i) (iteratingEvents i)
    (iteratingItems i) (next i) (results i).

Definition set_page (i : Iterator) (nx : string)
    (rs : list (option jsonListItem))
  : Iterator :=
  mkIterator (Error i) (Iterator_client i) (done i) (index i)
    (iteratingEvents i) (iteratingItems i) nx rs.

(** [Iterator.Next]: the result and the iterator as the call leaves it.
    [i.index += 1] runs only when [index < len(results) - 1], so it
    cannot overflow. *)
Definition Next `{Platform} (i : Iterator) : M (bool * Iterator) :=
  if done i then ret (false, i)
  else if bool_decide (Error i <> None) then ret (false, i)
  else if index i <? Z.of_nat (length (results i)) - 1 then
    ret (true, set_index i (index i + 1))
  else if bool_decide (next i = "") then
    ret (false, set_done i true)
  else
    r <- jsonReply (Iterator_client i) "GET" (next i) None 200
           Decode_jsonList ;;
    match r with
    | inl err => ret (false, set_Error i (Some err))
    | inr (_, page) =>
        let i1 := set_page i (TrimPrefix (Next_url page) "/v0/")
                    (Results page) in
        if bool_decide (length (Results page) = 0%nat) then
          let i2 := set_done i1 true in ret (negb (done i2), i2)
        else
          let i2 := set_index i1 0 in ret (negb (done i2), i2)
    end.

(** [Iterator.NextWithError]. *)
Definition NextWithError `{Platform} (i : Iterator)
  : M (bool * option error * Iterator) :=
  r <- Next i ;;
  ret (fst r, Error (snd r), snd r).

(** A call that either returns or panics. *)
Inductive outcome (A : Type) : Type :=
| Panics (msg : string)
| Returns (a : A).
Arguments Panics {A} msg.
Arguments Returns {A} a.

(** The index expression [s[n]] on a slice: out of range is a run-time
    panic. *)
Definition at_index {A} (s : list A) (n : Z) : option A :=
  if (n <? 0) || (Z.of_nat (length s) <=? n) then None
  else nth_error s (Z.to_nat n).

(** The run-time panics of [Get] and [GetEvent]: the index expression
    [i.results[i.index]] out of range, and the field read [r.RefTime]
    (or [r.Timestamp]) through a nil [r]. *)
Definition index_out_of_range : string := "index out of range".
Definition nil_dereference : string :=
  "invalid memory address or nil pointer dereference".

(** [Iterator.Get]. *)
Definition Iterator_Get {D} `{JSONUnmarshaler D} (i : Iterator)
    (value : option D) : outcome (result Item) :=
  if negb (iteratingItems i) then
    Returns (None, Some (errorString "Not an Item Iterator."))
  else
    match at_index (results i) (index i) with
    | None => Panics index_out_of_range
    | Some None => Panics nil_dereference
    | Some (Some r) =>
        let item :=
          mkItem (Client_Collection (Iterator_client i)
                    (path_Collection (li_Path r)))
            (li_Distance r) (path_Key (li_Path r)) (path_Ref (li_Path r))
            (li_Score r) (path_Tombstone (li_Path r))
            (decodeTimestamp (li_RefTime r)) (li_Value r) in
        match value with
        | Some d => Returns (Some item, Unmarshal (li_Value r) d)
        | None => Returns (Some item, None)
        end
    end.

(** [Iterator.GetEvent]. *)
Definition Iterator_GetEvent {D} `{JSONUnmarshaler D} (i : Iterator)
    (value : option D) : outcome (result Event) :=
  if negb (iteratingEvents i) then
    Returns (None, Some (errorString "Not an Event Iterator."))
  else
    match at_index (results i) (index i) with
    | None => Panics index_out_of_range
    | Some None => Panics nil_dereference
    | Some (Some r) =>
        let event :=
          mkEvent (Client_Collection (Iterator_client i)
                     (path_Collection (li_Path r)))
            (path_Key (li_Path r)) (path_Ordinal (li_Path r))
            (path_Ref (li_Path r)) (decodeTimestamp (li_Timestamp r))
            (path_Type (li_Path r)) (li_Value r) in
        match value with
        | Some d => Returns (Some event, Unmarshal (li_Value r) d)
        | None => Returns (Some event, None)
        end
    end.

(* ================================================================== *)
(** ** The listing calls *)
(* ================================================================== *)

(** [url.Values.Add]. *)
Definition Values_Add (v : gmap string (list string)) (key value : string)
  : gmap string (list string) :=
  <[key := default [] (v !! key) ++ [value]]> v.

(** Add [key=value] when the guard of the source's [if] holds. *)
Definition add_if (guard : bool) (key value : string)
    (v : gmap string (list string)) : gmap string (list string) :=
  if guard then Values_Add v key value else v.

Record ListQuery : Type := mkListQuery {
  lq_Limit : Z;
  lq_StartKey : string;
  lq_AfterKey : string;
  lq_BeforeKey : string;
  lq_EndKey : string
}.

(** [Collection.List]. *)
Definition List `{Platform} (c : Collection) (query : option ListQuery)
  : Iterator :=
  let path :=
    match query with
    | Some q =>
        let v0 : gmap string (list string) := ∅ in
        let v1 := add_if (negb (bool_decide (lq_Limit q = 0))) "limit"
                    (Itoa (lq_Limit q)) v0 in
        let v2 := add_if (negb (bool_decide (lq_AfterKey q = ""))) "afterKey"
                    (lq_AfterKey q) v1 in
        let v3 := add_if (negb (bool_decide (lq_BeforeKey q = "")))
                    "beforeKey" (lq_BeforeKey q) v2 in
        let v4 := add_if (negb (bool_decide (lq_EndKey q = ""))) "endKey"
                    (lq_EndKey q) v3 in
        let v5 := add_if (negb (bool_decide (lq_StartKey q = "")))
                    "startKey" (lq_StartKey q) v4 in
        Name c +:+ "?" +:+ Encode v5
    | None => Name c
    end in
  newIterator (client c) false true path.

Record HistoryQuery : Type := mkHistoryQuery {
  hq_Limit : Z;
  hq_Offset : Z;
  hq_Values : bool
}.

(** [Collection.History]. *)
Definition History `{Platform} (c : Collection) (key : string)
    (opts : option HistoryQuery) : Iterator :=
  let path :=
    match opts with
    | Some o =>
        let v0 : gmap string (list string) := ∅ in
        let v1 := add_if (negb (bool_decide (hq_Limit o = 0))) "limit"
                    (Itoa (hq_Limit o)) v0 in
        let v2 := add_if (negb (bool_decide (hq_Offset o = 0))) "offset"
                    (Itoa (hq_Offset o)) v1 in
        let v3 := add_if (hq_Values o) "values" "true" v2 in
        Name c +:+ "/" +:+ key +:+ "/refs?" +:+ Encode v3
    | None => Name c +:+ "/" +:+ key +:+ "/refs?"
    end in
  newIterator (client c) false true path.

Record SearchQuery : Type := mkSearchQuery {
  sq_Limit : Z;
  sq_Offset : Z;
  sq_Sort : string
}.

(** [Collection.Search]. *)
Definition Search `{Platform} (c : Collection) (query : string)
    (opts : option SearchQuery) : Iterator :=
  let v0 : gmap string (list string) := Values_Add ∅ "query" query in
  let v :=
    match opts with
    | Some o =>
        let v1 := add_if (negb (bool_decide (sq_Limit o = 0))) "limit"
                    (Itoa (sq_Limit o)) v0 in
        let v2 := add_if (negb (bool_decide (sq_Offset o = 0))) "offset"
                    (Itoa (sq_Offset o)) v1 in
        add_if (negb (bool_decide (sq_Sort o = ""))) "sort" (sq_Sort o) v2
    | None => v0
    end in
  newIterator (client c) false true (Name c +:+ "?" +:+ Encode v).

(** A [time.Time] where the code compares the whole struct with [!=]:
    the instant, and the location pointer, [None] for nil (which stands
    for UTC). A time that carries a monotonic clock reading is never at
    the zero instant, so instant and location decide the comparison with
    the zero [time.Time{}], which is the zero instant with a nil
    location. *)
Record LocatedTime : Type := mkLocatedTime {
  instant : Time;
  location : option string
}.

Definition zeroLocatedTime : LocatedTime := mkLocatedTime defaultTime None.

Record ListEventsQuery : Type := mkListEventsQuery {
  leq_Limit : Z;
  leq_Start : LocatedTime;
  leq_StartOrdinal : Z;
  leq_End : LocatedTime;
  leq_EndOrdinal : Z;
  leq_After : LocatedTime;
  leq_AfterOrdinal : Z;
  leq_Before : LocatedTime;
  leq_BeforeOrdinal : Z
}.

Global Instance Time_eq_dec : EqDecision Time.
Proof. solve_decision. Defined.

Global Instance LocatedTime_eq_dec : EqDecision LocatedTime.
Proof. solve_decision. Defined.

(** One boundary of an event listing: the millisecond timestamp, followed
    by [/ordinal] when the ordinal is not zero; nothing when the time is
    the zero [time.Time{}], location included: the zero instant in a
    location that is not nil is a boundary like any other. *)
Definition add_boundary (key : string) (t : LocatedTime) (ordinal : Z)
    (v : gmap string (list string)) : gmap string (list string) :=
  if bool_decide (t <> zeroLocatedTime) then
    if bool_decide (ordinal <> 0) then
      Values_Add v key
        (Itoa (encodeTimestamp (instant t)) +:+ "/" +:+ Itoa ordinal)
    else Values_Add v key (Itoa (encodeTimestamp (instant t)))
  else v.

(** [Collection.ListEvents]. *)
Definition ListEvents `{Platform} (c : Collection) (key typ : string)
    (opts : option ListEventsQuery) : Iterator :=
  let path :=
    match opts with
    | Some o =>
        let v0 : gmap string (list string) := ∅ in
        let v1 := add_if (negb (bool_decide (leq_Limit o = 0))) "limit"
                    (Itoa (leq_Limit o)) v0 in
        let v2 := add_boundary "afterEvent" (leq_After o)
                    (leq_AfterOrdinal o) v1 in
        let v3 := add_boundary "beforeEvent" (leq_Before o)
                    (leq_BeforeOrdinal o) v2 in
        let v4 := add_boundary "endEvent" (leq_End o) (leq_EndOrdinal o) v3 in
        let v5 := add_boundary "startEvent" (leq_Start o)
                    (leq_StartOrdinal o) v4 in
        Name c +:+ "/" +:+ key +:+ "/events/" +:+ typ +:+ "?" +:+ Encode v5
    | None => Name c +:+ "/" +:+ key +:+ "/events/" +:+ typ
    end in
  newIterator (client c) true false path.

Record GetLinksQuery : Type := mkGetLinksQuery {
  glq_Limit : Z
}.

(** [Collection.GetLinks]. *)
Definition GetLinks (c : Collection) (key : string)
    (opts : option GetLinksQuery) (kind : string) (kinds : list string)
  : Iterator :=
  let path0 := Name c +:+ "/" +:+ key +:+ "/relations/" +:+ kind in
  let path1 := if (0 <? Z.of_nat (length kinds))
               then path0 +:+ "/" +:+ Join kinds "/" else path0 in
  let path2 :=
    match opts with
    | Some o => if negb (bool_decide (glq_Limit o = 0))
                then path1 +:+ "?limit=" +:+ Itoa (glq_Limit o) else path1
    | None => path1
    end in
  newIterator (client c) false true path2.

(* ================================================================== *)
(** ** Running an iterator, and what a paginating server is *)
(* ================================================================== *)

(** What the HTTP client answers to the request [doRequest] would build;
    it does not depend on the world. *)
Definition answer `{Platform} (c : Client) (method trailing : string)
    (headers : gmap string string) (body : option string)
  : error + Response :=
  fst (doRequest c method trailing headers body emptyWorld).

(** The page [Iterator.Next] obtains when it fetches [url], if the fetch
    and the decoding succeed. *)
Definition page_at `{Platform} (c : Client) (url : string) : option jsonList :=
  match fst (jsonReply c "GET" url None 200 Decode_jsonList emptyWorld) with
  | inr (_, page) => Some page
  | inl _ => None
  end.

(** The loop [for iterator.Next() { ... }] of the package documentation,
    run for at most [fuel] calls of [Next]: the elements [results[index]]
    current after each [true] (pointers, nil for a null of the page), and
    the iterator once [Next] has returned [false]. [None] when the fuel
    runs out first or the current element is out of range. *)
Fixpoint iterate `{Platform} (fuel : nat) (i : Iterator)
  : M (option (list (option jsonListItem) * Iterator)) :=
  match fuel with
  | O => ret None
  | S f =>
      r <- Next i ;;
      if fst r then
        rest <- iterate f (snd r) ;;
        ret (match at_index (results (snd r)) (index (snd r)), rest with
             | Some x, Some (xs, j) => Some (x :: xs, j)
             | _, _ => None
             end)
      else ret (Some ([], snd r))
  end.

(** [n] successive calls of [Next]: their results in order, and the
    iterator after the last. *)
Fixpoint Next_times `{Platform} (n : nat) (i : Iterator)
  : M (list bool * Iterator) :=
  match n with
  | O => ret ([], i)
  | S k =>
      r <- Next i ;;
      rest <- Next_times k (snd r) ;;
      ret (fst r :: fst rest, snd rest)
  end.

(** A server that holds [items] behind [url] and hands them out [L] to a
    page: every page but the last is full and names a next page (which
    the client, after stripping the ["/v0/"] prefix, can fetch); the last
    page holds what remains, [last] items, none when nothing remains,
    and has an empty next-page URL. *)
Inductive paged `{Platform} (c : Client) (L : nat)
  : string -> list (option jsonListItem) -> nat -> Prop :=
| paged_last (url : string) (page : jsonList) :
    page_at c url = Some page ->
    Next_url page = "" ->
    (length (Results page) <= L)%nat ->
    paged c L url (Results page) (length (Results page))
| paged_more (url : string) (page : jsonList)
    (rest : list (option jsonListItem)) (last : nat) :
    page_at c url = Some page ->
    length (Results page) = L ->
    TrimPrefix (Next_url page) "/v0/" <> "" ->
    paged c L (TrimPrefix (Next_url page) "/v0/") rest last ->
    paged c L url (Results page ++ rest) last.

(** Put the elements [xs] in front of what a run yielded. *)
Definition prepend (xs : list (option jsonListItem))
    (r : option (list (option jsonListItem) * Iterator))
  : option (list (option jsonListItem) * Iterator) :=
  match r with
  | Some (ys, j) => Some (xs ++ ys, j)
  | None => None
  end.

(** A live iterator: neither exhausted nor errored. *)
Definition live (i : Iterator) : Prop := done i = false /\ Error i = None.

(** [ceil(n / l)]. *)
Definition ceil_div (n l : nat) : nat := ((n + l - 1) / l)%nat.

(** The number of pages of a server that hands out [n] items [l] to a
    page and whose last page holds [last] of them: [ceil(n / l)] when the
    last page holds an item, and one more than [n / l] when it is
    empty. *)
Definition pages_served (n l last : nat) : nat :=
  if (last =? 0)%nat then (n / l + 1)%nat else ceil_div n l.

(** The iterators a listing call returns. *)
Inductive listing `{Platform} : Iterator -> Prop :=
| listing_List c query : listing (List c query)
| listing_Search c query opts : listing (Search c query opts)
| listing_History c key opts : listing (History c key opts)
| listing_ListEvents c key typ opts : listing (ListEvents c key typ opts)
| listing_GetLinks c key opts kind kinds :
    listing (GetLinks c key opts kind kinds).

(** The iterators a program outside the package can hold. The fields of
    an [Iterator] other than [Error] are not exported: such an iterator
    starts as the composite literal of a listing call, which sets
    [client], the kind and [next] and leaves [index] and [results] zero
    (any [Error] and [done] are allowed for here too, as in the literals
    of the iterator tests), and is then advanced by calls of [Next] in
    any world. Code inside the package can build other values: the
    tests of [Get] and [GetEvent] set [results] by hand. *)
Inductive reachable `{Platform} : Iterator -> Prop :=
| reachable_literal e c d events items path :
    reachable (mkIterator e c d 0 events items path [])
| reachable_Next i w :
    reachable i -> reachable (snd (fst (Next i w))).

(* ================================================================== *)
(** ** The words of the specification, for comparison with the code *)
(* ================================================================== *)

(** The error taxonomy of the classifier, as the specification's table
    lists it. *)
Inductive Kind : Type :=
| KNotFound | KPreconditionFailed | KRateLimited | KUnknown
| KAlreadyExists | KNotMostRecent | KLocal.

Definition kind_of (e : error) : Kind :=
  match e with
  | AlreadyExistsError _ => KAlreadyExists
  | NotMostRecentError _ => KNotMostRecent
  | NotFoundError _ => KNotFound
  | PreconditionFailedError _ => KPreconditionFailed
  | RateLimitedError _ => KRateLimited
  | UnknownError _ _ _ => KUnknown
  | errorString _ => KLocal
  end.

(** The specification's table: 404, 412, 419, anything else. *)
Definition classify (status : Z) : Kind :=
  if status =? 404 then KNotFound
  else if status =? 412 then KPreconditionFailed
  else if status =? 419 then KRateLimited
  else KUnknown.

(** "t truncated to millisecond precision": the digits of [t] below the
    millisecond dropped, which is Go's [t.Truncate(time.Millisecond)]. *)
Definition truncated_to_ms (t : Time) : Time :=
  mkTime (sec t) (nsec t - nsec t mod 1000000).

(** One trip of a timestamp over the wire and back. *)
Definition roundtrip (t : Time) : Time := decodeTimestamp (encodeTimestamp t).

(** A [Time] as Go holds it. *)
Definition Time_valid (t : Time) : Prop :=
  MinInt64 <= sec t <= MaxInt64 /\ 0 <= nsec t < 1000000000.

(** The instant [n] nanoseconds after the Unix epoch. *)
Definition at_unix_nanos (n : Z) : Time :=
  mkTime (unixToInternal + n / 1000000000) (n mod 1000000000).

(** Does the byte string contain a ['/']? *)
Fixpoint has_slash (s : string) : bool :=
  match s with
  | EmptyString => false
  | String c s' => bool_decide (c = "/"%char) || has_slash s'
  end.

(** The specification's grammar of a key/value Location or
    Content-Location header, [.../refs/<ref>]: the last path segment is a
    non-empty ref and the one before it is [refs]. *)
Definition refs_grammar (loc : string) : bool :=
  match rev (Split loc "/") with
  | ref :: seg :: _ => negb (bool_decide (ref = "")) && bool_decide (seg = "refs")
  | _ => false
  end.

(** The faults of an event reply's headers that the code detects. The
    Location header is missing, or does not split at ['/'] into exactly
    eight segments, or its seventh or eighth segment is not a decimal
    [int64]. *)
Definition event_location_fault (loc : string) : Prop :=
  loc = "" \/ length (Split loc "/") <> 8%nat
  \/ ParseInt (part (Split loc "/") 6) = None
  \/ ParseInt (part (Split loc "/") 7) = None.

(** The Etag header is missing or does not split at double quotes into
    exactly three parts. *)
Definition etag_fault (etag : string) : Prop :=
  etag = "" \/ length (Split etag dquote) <> 3%nat.

(** The substring after the last ['/'] of a string that has one. *)
Fixpoint after_last_slash (s : string) : string :=
  match s with
  | EmptyString => EmptyString
  | String c s' =>
      if has_slash s' then after_last_slash s'
      else if bool_decide (c = "/"%char) then s' else s
  end.

(** The server answers the request built from these arguments, and
    answers it with this status. *)
Definition answered `{Platform} (c : Client) (method trailing : string)
    (headers : gmap string string) (body : option string) (resp : Response)
    (status : Z) : Prop :=
  answer c method trailing headers body = inr resp /\ StatusCode resp = status.

(** The mutating calls whose reply headers carry the identity of the new
    revision. *)
Inductive MutatingCall : Type :=
| CallCreate (key : string)
| CallUpdate (key : string)
| CallAddEvent (key typ : string)
| CallAddEventWithTimestamp (key typ : string) (ts : Time)
| CallUpdateEvent (key typ : string) (ts : Time) (ordinal : Z).

(** The entity a mutating call returns. *)
Inductive Entity : Type :=
| EntityItem (i : Item)
| EntityEvent (e : Event).

Definition entity_result {A} (wrap : A -> Entity) (r : result A)
  : result Entity := (option_map wrap (fst r), snd r).

(** Make the call on collection [c] with [value]. *)
Definition call `{Platform} {V} `{JSONMarshaler V} (c : Collection)
    (m : MutatingCall) (value : V) : M (result Entity) :=
  match m with
  | CallCreate key =>
      r <- Create c key value ;; ret (entity_result EntityItem r)
  | CallUpdate key =>
      r <- Update c key value ;; ret (entity_result EntityItem r)
  | CallAddEvent key typ =>
      r <- AddEvent c key typ value ;; ret (entity_result EntityEvent r)
  | CallAddEventWithTimestamp key typ ts =>
      r <- AddEventWithTimestamp c key typ ts value ;;
      ret (entity_result EntityEvent r)
  | CallUpdateEvent key typ ts ordinal =>
      r <- UpdateEvent c key typ ts ordinal value ;;
      ret (entity_result EntityEvent r)
  end.

(** The request a mutating call sends for the marshalled value [raw], and
    the status it expects. *)
Definition call_answered `{Platform} (c : Collection) (m : MutatingCall)
    (raw : string) (resp : Response) : Prop :=
  match m with
  | CallCreate key =>
      answered (client c) "PUT" (Name c +:+ "/" +:+ key)
        {[ "If-None-Match" := dquote +:+ "*" +:+ dquote ]} (Some raw) resp 201
  | CallUpdate key =>
      answered (client c) "PUT" (Name c +:+ "/" +:+ key) ∅ (Some raw) resp 201
  | CallAddEvent key typ =>
      answered (client c) "POST" (Name c +:+ "/" +:+ key +:+ "/events/" +:+ typ)
        {[ "Content-Type" := "application/json" ]} (Some raw) resp 201
  | CallAddEventWithTimestamp key typ ts =>
      answered (client c) "POST"
        (Name c +:+ "/" +:+ key +:+ "/events/" +:+ typ +:+ "/"
           +:+ Itoa (encodeTimestamp ts))
        {[ "Content-Type" := "application/json" ]} (Some raw) resp 201
  | CallUpdateEvent key typ ts ordinal =>
      answered (client c) "PUT" (eventPath c key typ ts ordinal)
        {[ "Content-Type" := "application/json" ]} (Some raw) resp 204
  end.

(** The header faults the code detects in the reply to a mutating call:
    for the key/value calls a Location header that is missing or has no
    ['/']; for the event calls the faults of [event_location_fault] and
    [etag_fault]. *)
Definition detected_fault (m : MutatingCall) (resp : Response) : Prop :=
  match m with
  | CallCreate _ | CallUpdate _ =>
      has_slash (Header_Get (RespHeader resp) "Location") = false
  | _ =>
      event_location_fault (Header_Get (RespHeader resp) "Location")
      \/ etag_fault (Header_Get (RespHeader resp) "Etag")
  end.

(* ================================================================== *)
(** ** A mock transport *)
(* ================================================================== *)

(** A platform whose HTTP client is the function [serve], with no
    compression, and with toy JSON: a message or raw value is the body
    itself, and a listing body is looked up in [pages]. *)
Definition mockPlatform (serve : Request -> error + Response)
    (pages : string -> option jsonList) : Platform :=
  {| Do := serve;
     NewRequest_error := fun _ _ => None;
     gzip_NewReader := fun b => inr b;
     flate_NewReader := fun b => b;
     runtime_Version := "go1.3";
     Encode := fun v =>
       Join (map (fun kv => fst kv +:+ "=" +:+ Join (snd kv) ",")
               (map_to_list v)) "&";
     Decode_UnknownError := fun b => (inr b, "");
     Decode_RawMessage := fun b => (inr b, "");
     Decode_jsonList := fun b =>
       match pages b with
       | Some p => (inr p, "")
       | None => (inl (errorString "unexpected end of JSON input"), "")
       end;
     Decode_jsonEvent := fun b =>
       (inl (errorString "unexpected end of JSON input"), "") |}.

Definition mockMarshaler : JSONMarshaler string := fun v => inr v.
Definition mockUnmarshaler : JSONUnmarshaler unit := fun _ _ => None.

(** A server that answers every request with one fixed response. *)
Definition always (resp : Response) : Request -> error + Response :=
  fun _ => inr resp.

Definition noPages : string -> option jsonList := fun _ => None.

Definition testClient : Client := NewClient "token".
Definition testCollection : Collection := Client_Collection testClient "c".

Definition testItem (key : string) : option jsonListItem :=
  Some (mkJsonListItem 0%N 0
          (mkJsonPath "c" key 0 "ref" 0 false "") 0 0%N 0 "{}").

(** Three items served two to a page. *)
Definition page1 : jsonList :=
  mkJsonList 2 0 "/v0/c?limit=2&offset=2" "" [testItem "k1"; testItem "k2"].
Definition page2 : jsonList := mkJsonList 1 0 "" "" [testItem "k3"].

Definition threeItems : Request -> error + Response := fun req =>
  if bool_decide (URL req = "http://api.cl1.orchestrate.io/v0/c?limit=2")
  then inr (mkResponse "200 OK" 200 ∅ "page1")
  else if bool_decide
            (URL req = "http://api.cl1.orchestrate.io/v0/c?limit=2&offset=2")
  then inr (mkResponse "200 OK" 200 ∅ "page2")
  else inr (mkResponse "404 Not Found" 404 ∅ "").

Definition threeItemsPages : string -> option jsonList := fun b =>
  if bool_decide (b = "page1") then Some page1
  else if bool_decide (b = "page2") then Some page2
  else None.

(** An empty collection: one page, no results, no next page. *)
Definition emptyPage : jsonList := mkJsonList 0 0 "" "" [].
Definition emptyListingPages : string -> option jsonList := fun b =>
  if bool_decide (b = "empty") then Some emptyPage else None.

(** The page of the body [{"results":[null]}]: one element, a nil
    pointer. *)
Definition nullPage : jsonList := mkJsonList 0 0 "" "" [None].
Definition nullPages : string -> option jsonList := fun b =>
  if bool_decide (b = "null") then Some nullPage else None.

(** Two items on a full page that names a next page, which turns out
    empty. *)
Definition fullPage : jsonList :=
  mkJsonList 2 0 "/v0/c?limit=2&offset=2" "" [testItem "k1"; testItem "k2"].
Definition fullThenEmptyPages : string -> option jsonList := fun b =>
  if bool_decide (b = "page1") then Some fullPage
  else if bool_decide (b = "page2") then Some emptyPage
  else None.

(* ================================================================== *)
(** ** The operations that return only an error, and the event methods *)
(* ================================================================== *)

(** What a call that returns only an [error] makes of [emptyReply]'s
    result: [_, err := c.client.emptyReply(...); return err]. *)
Definition error_of (r : error + Response) : option error :=
  match r with
  | inl err => Some err
  | inr _ => None
  end.

(** [Client.Ping]. *)
Definition Ping `{Platform} (c : Client) : M (option error) :=
  r <- emptyReply c "HEAD" "" ∅ None 200 ;;
  ret (error_of r).

(** The path of a relation: ["%s/%s/relation/%s/%s/%s"]. *)
Definition relationPath (c : Collection) (key kind toCollection toKey : string)
  : string :=
  Name c +:+ "/" +:+ key +:+ "/relation/" +:+ kind +:+ "/" +:+ toCollection
    +:+ "/" +:+ toKey.

(** [Collection.Link]. *)
Definition Link `{Platform} (c : Collection)
    (key kind toCollection toKey : string) : M (option error) :=
  r <- emptyReply (client c) "PUT" (relationPath c key kind toCollection toKey)
         ∅ None 204 ;;
  ret (error_of r).

(** [Collection.Unlink]. *)
Definition Unlink `{Platform} (c : Collection)
    (key kind toCollection toKey : string) : M (option error) :=
  r <- emptyReply (client c) "DELETE"
         (relationPath c key kind toCollection toKey +:+ "?purge=true")
         ∅ None 204 ;;
  ret (error_of r).

(** [Collection.DeleteEvent]. *)
Definition DeleteEvent `{Platform} (c : Collection) (key typ : string)
    (ts : Time) (ordinal : Z) : M (option error) :=
  r <- emptyReply (client c) "DELETE"
         (eventPath c key typ ts ordinal +:+ "?purge=true") ∅ None 204 ;;
  ret (error_of r).

(** [Event.Unmarshal]. *)
Definition Event_Unmarshal {D} `{JSONUnmarshaler D} (e : Event) (value : D)
  : option error := Unmarshal (Event_Value e) value.

(** [Event.Delete]: the conditional delete of an event. *)
Definition Event_Delete `{Platform} (e : Event) : M (option error) :=
  let headers : gmap string string :=
    {[ "If-Match" := dquote +:+ Event_Ref e +:+ dquote ]} in
  let path :=
    eventPath (Event_Collection e) (Event_Key e) (Event_Type e)
      (Event_Timestamp e) (Event_Ordinal e) +:+ "?purge=true" in
  r <- emptyReply (client (Event_Collection e)) "DELETE" path headers None
         204 ;;
  match r with
  | inl (PreconditionFailedError _) =>
      ret (Some (NotMostRecentError (Event_Ref e)))
  | inl err => ret (Some err)
  | inr _ => ret None
  end.

(** [Event.Update]: the conditional update of an event. *)
Definition Event_Update `{Platform} {V} `{JSONMarshaler V} (e : Event)
    (value : V) : M (result Event) :=
  let headers : gmap string string :=
    {[ "If-Match" := dquote +:+ Event_Ref e +:+ dquote;
       "Content-Type" := "application/json" ]} in
  r <- innerUpdateEvent (Event_Collection e) (Event_Key e) (Event_Type e)
         (Event_Timestamp e) (Event_Ordinal e) value headers ;;
  let '(event, err) := r in
  match err with
  | Some (PreconditionFailedError _) =>
      ret (event, Some (NotMostRecentError (Event_Ref e)))
  | _ => ret (event, err)
  end.

(** The calls that return only an error. *)
Inductive ErrorCall : Type :=
| CallPing
| CallDelete (c : Collection) (key : string)
| CallPurge (c : Collection) (key : string)
| CallLink (c : Collection) (key kind toCollection toKey : string)
| CallUnlink (c : Collection) (key kind toCollection toKey : string)
| CallDeleteEvent (c : Collection) (key typ : string) (ts : Time)
    (ordinal : Z).

(** Make the call with client [cl] (the collection's own client for the
    collection calls). *)
Definition error_call `{Platform} (cl : Client) (m : ErrorCall)
  : M (option error) :=
  match m with
  | CallPing => Ping cl
  | CallDelete c key => Delete c key
  | CallPurge c key => Purge c key
  | CallLink c key kind toCollection toKey =>
      Link c key kind toCollection toKey
  | CallUnlink c key kind toCollection toKey =>
      Unlink c key kind toCollection toKey
  | CallDeleteEvent c key typ ts ordinal => DeleteEvent c key typ ts ordinal
  end.

(** The client, method, path and expected status of such a call. *)
Definition error_call_client (cl : Client) (m : ErrorCall) : Client :=
  match m with
  | CallPing => cl
  | CallDelete c _ | CallPurge c _ | CallLink c _ _ _ _
  | CallUnlink c _ _ _ _ | CallDeleteEvent c _ _ _ _ => client c
  end.

Definition error_call_method (m : ErrorCall) : string :=
  match m with
  | CallPing => "HEAD"
  | CallLink _ _ _ _ _ => "PUT"
  | _ => "DELETE"
  end.

Definition error_call_path (m : ErrorCall) : string :=
  match m with
  | CallPing => ""
  | CallDelete c key => Name c +:+ "/" +:+ key
  | CallPurge c key => Name c +:+ "/" +:+ key +:+ "?purge=true"
  | CallLink c key kind toCollection toKey =>
      relationPath c key kind toCollection toKey
  | CallUnlink c key kind toCollection toKey =>
      relationPath c key kind toCollection toKey +:+ "?purge=true"
  | CallDeleteEvent c key typ ts ordinal =>
      eventPath c key typ ts ordinal +:+ "?purge=true"
  end.

Definition error_call_status (m : ErrorCall) : Z :=
  match m with
  | CallPing => 200
  | _ => 204
  end.

(** The conditional calls and [Create]: the calls that reinterpret a
    failed precondition. Each returns an error, and some an entity. *)
Inductive ConditionalCall (V : Type) : Type :=
| CondCreate (c : Collection) (key : string) (value : V)
| CondItemUpdate (i : Item) (value : V)
| CondItemDelete (i : Item)
| CondEventUpdate (e : Event) (value : V)
| CondEventDelete (e : Event).
Arguments CondCreate {V} c key value.
Arguments CondItemUpdate {V} i value.
Arguments CondItemDelete {V} i.
Arguments CondEventUpdate {V} e value.
Arguments CondEventDelete {V} e.

Definition conditional_call `{Platform} {V} `{JSONMarshaler V}
    (m : ConditionalCall V) : M (result Entity) :=
  match m with
  | CondCreate c key value =>
      r <- Create c key value ;; ret (entity_result EntityItem r)
  | CondItemUpdate i value =>
      r <- Item_Update i value ;; ret (entity_result EntityItem r)
  | CondItemDelete i => r <- Item_Delete i ;; ret (None, r)
  | CondEventUpdate e value =>
      r <- Event_Update e value ;; ret (entity_result EntityEvent r)
  | CondEventDelete e => r <- Event_Delete e ;; ret (None, r)
  end.

(** The answer of the server to the request of a conditional call; there
    is none when the value cannot be marshalled. *)
Definition conditional_answer `{Platform} {V} `{JSONMarshaler V}
    (m : ConditionalCall V) : option (error + Response) :=
  match m with
  | CondCreate c key value =>
      match Marshal value with
      | inr raw =>
          Some (answer (client c) "PUT" (Name c +:+ "/" +:+ key)
                  {[ "If-None-Match" := dquote +:+ "*" +:+ dquote ]}
                  (Some raw))
      | inl _ => None
      end
  | CondItemUpdate i value =>
      match Marshal value with
      | inr raw =>
          Some (answer (client (Item_Collection i)) "PUT"
                  (Name (Item_Collection i) +:+ "/" +:+ Item_Key i)
                  {[ "If-Match" := dquote +:+ Item_Ref i +:+ dquote ]}
                  (Some raw))
      | inl _ => None
      end
  | CondItemDelete i =>
      Some (answer (client (Item_Collection i)) "DELETE"
              (Name (Item_Collection i) +:+ "/" +:+ Item_Key i)
              {[ "If-Match" := dquote +:+ Item_Ref i +:+ dquote ]} None)
  | CondEventUpdate e value =>
      match Marshal value with
      | inr raw =>
          Some (answer (client (Event_Collection e)) "PUT"
                  (eventPath (Event_Collection e) (Event_Key e) (Event_Type e)
                     (Event_Timestamp e) (Event_Ordinal e))
                  {[ "If-Match" := dquote +:+ Event_Ref e +:+ dquote;
                     "Content-Type" := "application/json" ]} (Some raw))
      | inl _ => None
      end
  | CondEventDelete e =>
      Some (answer (client (Event_Collection e)) "DELETE"
              (eventPath (Event_Collection e) (Event_Key e) (Event_Type e)
                 (Event_Timestamp e) (Event_Ordinal e) +:+ "?purge=true")
              {[ "If-Match" := dquote +:+ Event_Ref e +:+ dquote ]} None)
  end.

(** The status a conditional call expects, and the error it makes of a
    failed precondition. *)
Definition conditional_status {V} (m : ConditionalCall V) : Z :=
  match m with
  | CondCreate _ _ _ | CondItemUpdate _ _ => 201
  | _ => 204
  end.

Definition conditional_error {V} (m : ConditionalCall V) : error :=
  match m with
  | CondCreate _ key _ => AlreadyExistsError key
  | CondItemUpdate i _ => NotMostRecentError (Item_Key i)
  | CondItemDelete i => NotMostRecentError (Item_Ref i)
  | CondEventUpdate e _ => NotMostRecentError (Event_Ref e)
  | CondEventDelete e => NotMostRecentError (Event_Ref e)
  end.

(** [n] calls of [Next] from [i]: the iterator they leave. *)
Definition after_Next_times `{Platform} (n : nat) (i : Iterator) (w : World)
  : Iterator := snd (fst (Next_times n i w)).

(** The world the same calls leave. *)
Definition world_after_Next_times `{Platform} (n : nat) (i : Iterator)
    (w : World) : World := snd (Next_times n i w).

(** [strconv.ParseInt(s, 10, bitSize)] at any bit size: the syntax of
    [ParseInt], and the range of a signed integer of [bitSize] bits. *)
Definition ParseIntN (bitSize : Z) (s : string) : option Z :=
  let '(neg, body) :=
    match s with
    | String "+" r => (false, r)
    | String "-" r => (true, r)
    | _ => (false, s)
    end in
  match body with
  | EmptyString => None
  | _ =>
      match digits 0 body with
      | Some n =>
          let v := if neg then - n else n in
          if (- 2 ^ (bitSize - 1) <=? v) && (v <=? 2 ^ (bitSize - 1) - 1)
          then Some v else None
      | None => None
      end
  end.

(** Does the byte string contain the byte [ch]? *)
Fixpoint has_byte (ch : ascii) (s : string) : bool :=
  match s with
  | EmptyString => false
  | String c s' => bool_decide (c = ch) || has_byte ch s'
  end.

(** The byte of a double quote. *)
Definition dquote_byte : ascii := ascii_of_nat 34.

(** A listing that serves [good] in full pages and then fails: the page
    after the last good one cannot be fetched. [L] is the page size. *)
Inductive paged_then_fails `{Platform} (c : Client) (L : nat)
  : string -> list (option jsonListItem) -> error -> Prop :=
| fails_now (url : string) (err : error) :
    fst (jsonReply c "GET" url None 200 Decode_jsonList emptyWorld) = inl err ->
    paged_then_fails c L url [] err
| fails_later (url : string) (page : jsonList)
    (rest : list (option jsonListItem)) (err : error) :
    page_at c url = Some page ->
    length (Results page) = L ->
    TrimPrefix (Next_url page) "/v0/" <> "" ->
    paged_then_fails c L (TrimPrefix (Next_url page) "/v0/") rest err ->
    paged_then_fails c L url (Results page ++ rest) err.

(** The mutating calls on events. *)
Inductive EventCall : Type :=
| EventAdd (key typ : string)
| EventAddWithTimestamp (key typ : string) (ts : Time)
| EventUpdate (key typ : string) (ts : Time) (ordinal : Z).

Definition mutating (m : EventCall) : MutatingCall :=
  match m with
  | EventAdd key typ => CallAddEvent key typ
  | EventAddWithTimestamp key typ ts => CallAddEventWithTimestamp key typ ts
  | EventUpdate key typ ts ordinal => CallUpdateEvent key typ ts ordinal
  end.

(** The key and the type the caller passed. *)
Definition EventCall_key (m : EventCall) : string :=
  match m with
  | EventAdd key _ | EventAddWithTimestamp key _ _ | EventUpdate key _ _ _ =>
      key
  end.

Definition EventCall_type (m : EventCall) : string :=
  match m with
  | EventAdd _ typ | EventAddWithTimestamp _ typ _ | EventUpdate _ typ _ _ =>
      typ
  end.

(** What [json.Unmarshal] says of [raw] and the caller's destination;
    nil for a nil destination, which is not unmarshalled into. *)
Definition unmarshal_into {D} `{JSONUnmarshaler D} (value : option D)
    (raw : RawMessage) : option error :=
  match value with
  | Some d => Unmarshal raw d
  | None => None
  end.

(** A server for a search: three items, two to a page;
    the second page is at offset 2, every other request gets the first
    page. [secondPageDown] is the same server with its second page out of
    order. *)
Definition searchServer : Request -> error + Response := fun req =>
  if bool_decide
       (URL req = "http://api.cl1.orchestrate.io/v0/c?limit=2&offset=2")
  then inr (mkResponse "200 OK" 200 ∅ "page2")
  else inr (mkResponse "200 OK" 200 ∅ "page1").

Definition secondPageDown : Request -> error + Response := fun req =>
  if bool_decide
       (URL req = "http://api.cl1.orchestrate.io/v0/c?limit=2&offset=2")
  then inr (mkResponse "500 Internal Server Error" 500 ∅ "down")
  else inr (mkResponse "200 OK" 200 ∅ "page1").

(* ================================================================== *)
(** ** web.go: the search proxy *)
(* ================================================================== *)

Module Web.

(** One result of the proxy's reply. *)
Record Result : Type := mkResult { Value : RawMessage }.

(** The proxy's reply. *)
Record Results : Type := mkResults {
  Results_list : list Result;
  Count : Z
}.

(** What the handler gave to [encoder.Encode] and then wrote. *)
Inductive Written : Type :=
| WroteResults (r : Results)
| WroteError (e : error).

(** [json.Unmarshal(data, &raw)] for a destination [raw] of type
    [json.RawMessage]: the bytes stored, or the error. *)
Class RawDestination : Type :=
  Unmarshal_raw : RawMessage -> error + RawMessage.

(** The same as a destination of [Iterator.Get]; what is stored is read
    back from [Unmarshal_raw]. *)
Definition raw_unmarshaler `{RawDestination} : JSONUnmarshaler unit :=
  fun data _ =>
    match Unmarshal_raw data with
    | inl err => Some err
    | inr _ => None
    end.

(** How the loop of the handler ends. *)
Inductive LoopEnd : Type :=
| LoopDone (err : option error) (results : list Result) (it : Iterator)
| LoopPanic (msg : string).

(** [ctx.Params[key]]: the empty string for a missing key. *)
Definition param (params : gmap string string) (key : string) : string :=
  default "" (params !! key).

(** The loop [for i := 0; it.Next(); i++ { ... }] of the handler, for at
    most [fuel] calls of [Next]; [err] and [results] are the handler's
    variables. *)
Fixpoint search_loop `{Platform} `{RawDestination} (fuel : nat)
    (it : Iterator) (err : option error) (results : list Result)
  : M (option LoopEnd) :=
  match fuel with
  | O => ret None
  | S f =>
      r <- Next it ;;
      if fst r then
        match Error (snd r) with
        | Some e => ret (Some (LoopDone (Some e) results (snd r)))
        | None =>
            match @Iterator_Get unit raw_unmarshaler (snd r) (Some tt) with
            | Panics msg => ret (Some (LoopPanic msg))
            | Returns (_, Some _) =>
                ret (Some (LoopDone err results (snd r)))
            | Returns (item, None) =>
                let stored :=
                  match item with
                  | Some i =>
                      match Unmarshal_raw (Item_Value i) with
                      | inr v => v
                      | inl _ => ""
                      end
                  | None => ""
                  end in
                search_loop f (snd r) err (results ++ [mkResult stored])
            end
        end
      else ret (Some (LoopDone err results (snd r)))
  end.

(** The limit and the offset of the handler: the parameter when it is
    the numeral of an [int32], 10 and 0 otherwise. *)
Definition limit_of (params : gmap string string) : Z :=
  match ParseIntN 32 (param params "limit") with
  | Some n => n
  | None => 10
  end.

Definition offset_of (params : gmap string string) : Z :=
  match ParseIntN 32 (param params "offset") with
  | Some n => n
  | None => 0
  end.

(** The iterator the handler loops over. [orc] and [host] are the
    package variables. *)
Definition search_iterator `{Platform} (orc : Client) (host : string)
    (params : gmap string string) (collection : string) : Iterator :=
  let orc' := if negb (bool_decide (host = ""))
              then mkClient host (authToken orc) (deprecated orc)
              else orc in
  let c := Client_Collection orc' collection in
  Search c (param params "query")
    (Some (mkSearchQuery (limit_of params) (offset_of params)
             (param params "sort"))).

(** The handler [search]: what it writes, [None] when the fuel runs out,
    a panic when the loop panics. *)
Definition search `{Platform} `{RawDestination} (fuel : nat) (orc : Client)
    (host : string) (params : gmap string string) (collection : string)
  : M (option (outcome Written)) :=
  r <- search_loop fuel (search_iterator orc host params collection) None [] ;;
  ret (match r with
       | None => None
       | Some (LoopPanic msg) => Some (Panics msg)
       | Some (LoopDone err results _) =>
           Some (Returns
                   (match err with
                    | Some e => WroteError e
                    | None =>
                        WroteResults
                          (mkResults results (Z.of_nat (length results)))
                    end))
       end).

(** The [Result] the loop appends for a listed item whose value the
    destination takes. *)
Definition result_of `{RawDestination} (x : option jsonListItem) : Result :=
  mkResult (match x with
            | Some r =>
                match Unmarshal_raw (li_Value r) with
                | inr v => v
                | inl _ => ""
                end
            | None => ""
            end).

(** The element is not nil and the destination takes its value:
    [json.Unmarshal] returns nil. *)
Definition accepted `{RawDestination} (x : option jsonListItem) : Prop :=
  match x with
  | Some r => raw_unmarshaler (li_Value r) tt = None
  | None => False
  end.

(** A raw destination that stores any bytes. *)
Definition mockRaw : RawDestination := fun data => inr data.

End Web.

(* ================================================================== *)
(** ** The older client, package gorc *)
(* ================================================================== *)

Module Gorc.

Definition DefaultAPIHost : string := "api.orchestrate.io".
Definition clientVersion : Z := 3.

Definition userAgent `{Platform} : string :=
  "gorc/" +:+ Itoa clientVersion +:+ " (" +:+ runtime_Version +:+ ")".

Definition userAgentDeprecated `{Platform} : string :=
  "gorc/" +:+ Itoa clientVersion +:+ " (" +:+ runtime_Version
    +:+ ") [deprecated]".

(** The [Client] struct of this package has the fields of the newer
    one. *)
Definition NewClient (token : string) : Client :=
  mkClient DefaultAPIHost token 0.

(** [NewClientWithTransport]; the transport itself is the platform's. *)
Definition NewClientWithTransport (token : string) : Client :=
  mkClient DefaultAPIHost token 1.

(** The errors this package returns: its own [OrchestrateError], or any
    other value of Go's [error]. *)
Inductive OError : Type :=
| OrchestrateError (Status : string) (StatusCode : Z) (Message : string)
| GoError (e : error).

(** The [Error()] method. *)
Definition OError_text (e : OError) : string :=
  match e with
  | OrchestrateError st code msg =>
      st +:+ " (" +:+ Itoa code +:+ "): " +:+ msg
  | GoError e => Error_text e
  end.

(** [float64] values are only copied: their bit pattern. *)
Definition float64 : Type := N.

Record Path : Type := mkPath {
  Path_Collection : string;
  Path_Key : string;
  Path_Ref : string
}.

Record SearchResult : Type := mkSearchResult {
  sr_Path : Path;
  sr_Score : float64;
  sr_Distance : float64;
  sr_RawValue : RawMessage
}.

Record SearchResults : Type := mkSearchResults {
  sr_Count : Z;
  sr_TotalCount : Z;
  sr_Results : list SearchResult;
  sr_Next : string;
  sr_Prev : string
}.

Record GraphResult : Type := mkGraphResult {
  gr_Path : Path;
  gr_RawValue : RawMessage
}.

Record GraphResults : Type := mkGraphResults {
  gr_Count : Z;
  gr_Results : list GraphResult
}.

Record Event : Type := mkEvent {
  ev_Ordinal : Z;
  ev_Timestamp : Z;
  ev_RawValue : RawMessage
}.

Record EventResults : Type := mkEventResults {
  er_Count : Z;
  er_Results : list Event
}.

(** The decoding this package does: [json.Unmarshal(body, oe)] into an
    [OrchestrateError] (the result is the [Message] field), and
    [decoder.Decode] into each result type. For the search results the
    destination [new(SearchResults)] is returned even when the decoding
    fails, so its decoder gives the destination as the decoding left it
    along with the error. *)
Class JSON : Type := {
  Unmarshal_OrchestrateError : string -> error + string;
  Decode_SearchResults : string -> (SearchResults * option error) * string;
  Decode_GraphResults : Decoder GraphResults;
  Decode_EventResults : Decoder EventResults
}.

(** [ioutil.ReadAll(resp.Body)]: a response body is everything its
    reader delivers, so the read returns the whole body and leaves
    nothing unread. *)
Definition ReadAll (body : string) : (error + string) * string :=
  (inr body, "").

(** The request [doRequest] hands to the HTTP client: as in the newer
    package, but over https and with this package's user agent. *)
Definition buildRequest `{Platform} (c : Client) (method trailing : string)
    (headers : gmap string string) (body : option string) : Request :=
  let host := if bool_decide (APIHost c = "") then DefaultAPIHost
              else APIHost c in
  let url := "https://" +:+ host +:+ "/v0/" +:+ trailing in
  let h0 : gmap string (list string) := (fun v => [v]) <$> headers in
  let h1 := Header_Add h0 "User-Agent"
              (if bool_decide (deprecated c = 0) then userAgent
               else userAgentDeprecated) in
  let h2 := match body with
            | Some _ => Header_Add h1 "Content-Type" "application/json"
            | None => h1
            end in
  mkRequest method url h2 (authToken c, "") body.

(** [Client.doRequest]. *)
Definition doRequest `{Platform} (c : Client) (method trailing : string)
    (headers : gmap string string) (body : option string)
  : M (error + Response) :=
  let req := buildRequest c method trailing headers body in
  match NewRequest_error method (URL req) with
  | Some err => ret (inl err)
  | None => send req ;;; ret (Do req)
  end.

(** [newError]: the error, and the bytes of the body left unread. *)
Definition newError `{JSON} (resp : Response) : OError * string :=
  match ReadAll (Body resp) with
  | (inl err, unread) => (GoError err, unread)
  | (inr body, unread) =>
      match Unmarshal_OrchestrateError body with
      | inl _ => (GoError (errorString body), unread)
      | inr message =>
          (OrchestrateError (Status resp) (StatusCode resp) message, unread)
      end
  end.

(** [Client.Ping]. There is no [resp.Body.Close()] in it: the body is
    read on both paths and closed on neither. *)
Definition Ping `{Platform} `{JSON} (c : Client) : M (option OError) :=
  r <- doRequest c "HEAD" "" ∅ None ;;
  match r with
  | inl err => ret (Some (GoError err))
  | inr resp =>
      if negb (bool_decide (StatusCode resp = 200)) then
        let '(err, _) := newError resp in
        ret (Some err)
      else
        (* io.Copy(ioutil.Discard, resp.Body) *)
        ret None
  end.

(** [Client.PutRelation]. *)
Definition PutRelation `{Platform} `{JSON} (c : Client)
    (sourceCollection sourceKey kind sinkCollection sinkKey : string)
  : M (option OError) :=
  let trailingUri :=
    sourceCollection +:+ "/" +:+ sourceKey +:+ "/relation/" +:+ kind
      +:+ "/" +:+ sinkCollection +:+ "/" +:+ sinkKey in
  r <- doRequest c "PUT" trailingUri ∅ None ;;
  match r with
  | inl err => ret (Some (GoError err))
  | inr resp =>
      if negb (bool_decide (StatusCode resp = 204)) then
        let '(err, unread) := newError resp in
        Close unread ;;; ret (Some err)
      else
        (* io.Copy(ioutil.Discard, resp.Body) *)
        Close "" ;;; ret None
  end.

(** [Client.DeleteRelation]. *)
Definition DeleteRelation `{Platform} `{JSON} (c : Client)
    (sourceCollection sourceKey kind sinkCollection sinkKey : string)
  : M (option OError) :=
  let trailingUri :=
    sourceCollection +:+ "/" +:+ sourceKey +:+ "/relation/" +:+ kind
      +:+ "/" +:+ sinkCollection +:+ "/" +:+ sinkKey +:+ "?purge=true" in
  r <- doRequest c "DELETE" trailingUri ∅ None ;;
  match r with
  | inl err => ret (Some (GoError err))
  | inr resp =>
      if negb (bool_decide (StatusCode resp = 204)) then
        let '(err, unread) := newError resp in
        Close unread ;;; ret (Some err)
      else
        (* io.Copy(ioutil.Discard, resp.Body) *)
        Close "" ;;; ret None
  end.

(** [Client.doPutEvent]; [value] is the content of the reader, [None]
    for a nil reader. *)
Definition doPutEvent `{Platform} `{JSON} (c : Client) (trailingUri : string)
    (value : option string) : M (option OError) :=
  r <- doRequest c "PUT" trailingUri ∅ value ;;
  match r with
  | inl err => ret (Some (GoError err))
  | inr resp =>
      if negb (bool_decide (StatusCode resp = 204)) then
        let '(err, unread) := newError resp in
        Close unread ;;; ret (Some err)
      else
        (* io.Copy(ioutil.Discard, resp.Body) *)
        Close "" ;;; ret None
  end.

(** [Client.PutEventRaw]. *)
Definition PutEventRaw `{Platform} `{JSON} (c : Client)
    (collection key kind : string) (value : option string)
  : M (option OError) :=
  doPutEvent c (collection +:+ "/" +:+ key +:+ "/events/" +:+ kind) value.

(** [Client.PutEventWithTimeRaw]. *)
Definition PutEventWithTimeRaw `{Platform} `{JSON} (c : Client)
    (collection key kind : string) (time : Z) (value : option string)
  : M (option OError) :=
  let queryVariables : gmap string (list string) :=
    {[ "timestamp" := [Itoa time] ]} in
  doPutEvent c
    (collection +:+ "/" +:+ key +:+ "/events/" +:+ kind +:+ "?"
       +:+ Encode queryVariables) value.

(** [Client.GetRelations]. Nothing is returned with an error. *)
Definition GetRelations `{Platform} `{JSON} (c : Client)
    (collection key : string) (hops : list string)
  : M (option GraphResults * option OError) :=
  let relationsPath := Join hops "/" in
  let trailingUri :=
    collection +:+ "/" +:+ key +:+ "/relations/" +:+ relationsPath in
  r <- doRequest c "GET" trailingUri ∅ None ;;
  match r with
  | inl err => ret (None, Some (GoError err))
  | inr resp =>
      if negb (bool_decide (StatusCode resp = 200)) then
        let '(err, unread) := newError resp in
        Close unread ;;; ret (None, Some err)
      else
        match Decode_GraphResults (Body resp) with
        | (inl err, unread) => Close unread ;;; ret (None, Some (GoError err))
        | (inr result, unread) => Close unread ;;; ret (Some result, None)
        end
  end.

(** [Client.doGetEvents]. Nothing is returned with an error. *)
Definition doGetEvents `{Platform} `{JSON} (c : Client) (trailingUri : string)
  : M (option EventResults * option OError) :=
  r <- doRequest c "GET" trailingUri ∅ None ;;
  match r with
  | inl err => ret (None, Some (GoError err))
  | inr resp =>
      if negb (bool_decide (StatusCode resp = 200)) then
        let '(err, unread) := newError resp in
        Close unread ;;; ret (None, Some err)
      else
        match Decode_EventResults (Body resp) with
        | (inl err, unread) => Close unread ;;; ret (None, Some (GoError err))
        | (inr results, unread) => Close unread ;;; ret (Some results, None)
        end
  end.

(** [Client.GetEvents]. *)
Definition GetEvents `{Platform} `{JSON} (c : Client)
    (collection key kind : string)
  : M (option EventResults * option OError) :=
  doGetEvents c (collection +:+ "/" +:+ key +:+ "/events/" +:+ kind).

(** [Client.GetEventsInRangeWithLimit]. *)
Definition GetEventsInRangeWithLimit `{Platform} `{JSON} (c : Client)
    (collection key kind : string) (start end_ limit : Z)
  : M (option EventResults * option OError) :=
  let queryVariables : gmap string (list string) :=
    {[ "start" := [Itoa start]; "end" := [Itoa end_];
       "limit" := [Itoa limit] ]} in
  doGetEvents c
    (collection +:+ "/" +:+ key +:+ "/events/" +:+ kind +:+ "?"
       +:+ Encode queryVariables).

(** [Client.GetEventsInRange]. *)
Definition GetEventsInRange `{Platform} `{JSON} (c : Client)
    (collection key kind : string) (start end_ : Z)
  : M (option EventResults * option OError) :=
  GetEventsInRangeWithLimit c collection key kind start end_ 10.

(** [Client.doSearch]. When the decoding fails the destination is
    returned together with the error. *)
Definition doSearch `{Platform} `{JSON} (c : Client) (trailingUri : string)
  : M (option SearchResults * option OError) :=
  r <- doRequest c "GET" trailingUri ∅ None ;;
  match r with
  | inl err => ret (None, Some (GoError err))
  | inr resp =>
      if negb (bool_decide (StatusCode resp = 200)) then
        let '(err, unread) := newError resp in
        Close unread ;;; ret (None, Some err)
      else
        match Decode_SearchResults (Body resp) with
        | ((result, Some err), unread) =>
            Close unread ;;; ret (Some result, Some (GoError err))
        | ((result, None), unread) => Close unread ;;; ret (Some result, None)
        end
  end.

(** [Client.Search]. *)
Definition Search `{Platform} `{JSON} (c : Client) (collection query : string)
    (limit offset : Z) : M (option SearchResults * option OError) :=
  let queryVariables : gmap string (list string) :=
    {[ "query" := [query]; "limit" := [Itoa limit];
       "offset" := [Itoa offset] ]} in
  doSearch c (collection +:+ "?" +:+ Encode queryVariables).

(** [Client.SearchSorted]. *)
Definition SearchSorted `{Platform} `{JSON} (c : Client)
    (collection query sortBy : string) (limit offset : Z)
  : M (option SearchResults * option OError) :=
  let queryVariables : gmap string (list string) :=
    {[ "query" := [query]; "limit" := [Itoa limit];
       "offset" := [Itoa offset]; "sort" := [sortBy] ]} in
  doSearch c (collection +:+ "?" +:+ Encode queryVariables).

(** The slice expression [s[4:]], which panics on a string of fewer
    than four bytes, and then the search. *)
Definition search_from `{Platform} `{JSON} (c : Client) (link : string)
  : M (outcome (option SearchResults * option OError)) :=
  if len link <? 4 then ret (Panics "slice bounds out of range")
  else
    r <- doSearch c (slice link 4 (len link)) ;;
    ret (Returns r).

(** [Client.SearchGetNext] and [Client.SearchGetPrev]. *)
Definition SearchGetNext `{Platform} `{JSON} (c : Client)
    (results : SearchResults)
  : M (outcome (option SearchResults * option OError)) :=
  search_from c (sr_Next results).

Definition SearchGetPrev `{Platform} `{JSON} (c : Client)
    (results : SearchResults)
  : M (outcome (option SearchResults * option OError)) :=
  search_from c (sr_Prev results).

(** [SearchResults.HasNext] and [SearchResults.HasPrev]. *)
Definition HasNext (r : SearchResults) : bool :=
  negb (bool_decide (sr_Next r = "")).

Definition HasPrev (r : SearchResults) : bool :=
  negb (bool_decide (sr_Prev r = "")).

(** The calls of this package that return only an error or whose result
    is dropped here, for statements about requests and bodies. *)
Inductive Call : Type :=
| CallPing
| CallPutRelation (sc sk kind dc dk : string)
| CallDeleteRelation (sc sk kind dc dk : string)
| CallPutEventRaw (collection key kind : string) (value : option string)
| CallPutEventWithTimeRaw (collection key kind : string) (time : Z)
    (value : option string)
| CallGetRelations (collection key : string) (hops : list string)
| CallGetEvents (collection key kind : string)
| CallGetEventsInRange (collection key kind : string) (start end_ : Z)
| CallSearch (collection query : string) (limit offset : Z)
| CallSearchSorted (collection query sortBy : string) (limit offset : Z).

(** Make the call; only the error is kept. *)
Definition call `{Platform} `{JSON} (c : Client) (m : Call)
  : M (option OError) :=
  match m with
  | CallPing => Ping c
  | CallPutRelation sc sk kind dc dk => PutRelation c sc sk kind dc dk
  | CallDeleteRelation sc sk kind dc dk => DeleteRelation c sc sk kind dc dk
  | CallPutEventRaw collection key kind value =>
      PutEventRaw c collection key kind value
  | CallPutEventWithTimeRaw collection key kind time value =>
      PutEventWithTimeRaw c collection key kind time value
  | CallGetRelations collection key hops =>
      r <- GetRelations c collection key hops ;; ret (snd r)
  | CallGetEvents collection key kind =>
      r <- GetEvents c collection key kind ;; ret (snd r)
  | CallGetEventsInRange collection key kind start end_ =>
      r <- GetEventsInRange c collection key kind start end_ ;; ret (snd r)
  | CallSearch collection query limit offset =>
      r <- Search c collection query limit offset ;; ret (snd r)
  | CallSearchSorted collection query sortBy limit offset =>
      r <- SearchSorted c collection query sortBy limit offset ;; ret (snd r)
  end.

(** The request the call sends: method, path and body. *)
Definition call_method (m : Call) : string :=
  match m with
  | CallPing => "HEAD"
  | CallPutRelation _ _ _ _ _ | CallPutEventRaw _ _ _ _
  | CallPutEventWithTimeRaw _ _ _ _ _ => "PUT"
  | CallDeleteRelation _ _ _ _ _ => "DELETE"
  | _ => "GET"
  end.

Definition call_path `{Platform} (m : Call) : string :=
  match m with
  | CallPing => ""
  | CallPutRelation sc sk kind dc dk =>
      sc +:+ "/" +:+ sk +:+ "/relation/" +:+ kind +:+ "/" +:+ dc +:+ "/" +:+ dk
  | CallDeleteRelation sc sk kind dc dk =>
      sc +:+ "/" +:+ sk +:+ "/relation/" +:+ kind +:+ "/" +:+ dc +:+ "/" +:+ dk
        +:+ "?purge=true"
  | CallPutEventRaw collection key kind _ =>
      collection +:+ "/" +:+ key +:+ "/events/" +:+ kind
  | CallPutEventWithTimeRaw collection key kind time _ =>
      collection +:+ "/" +:+ key +:+ "/events/" +:+ kind +:+ "?"
        +:+ Encode {[ "timestamp" := [Itoa time] ]}
  | CallGetRelations collection key hops =>
      collection +:+ "/" +:+ key +:+ "/relations/" +:+ Join hops "/"
  | CallGetEvents collection key kind =>
      collection +:+ "/" +:+ key +:+ "/events/" +:+ kind
  | CallGetEventsInRange collection key kind start end_ =>
      collection +:+ "/" +:+ key +:+ "/events/" +:+ kind +:+ "?"
        +:+ Encode {[ "start" := [Itoa start]; "end" := [Itoa end_];
                      "limit" := [Itoa 10] ]}
  | CallSearch collection query limit offset =>
      collection +:+ "?"
        +:+ Encode {[ "query" := [query]; "limit" := [Itoa limit];
                      "offset" := [Itoa offset] ]}
  | CallSearchSorted collection query sortBy limit offset =>
      collection +:+ "?"
        +:+ Encode {[ "query" := [query]; "limit" := [Itoa limit];
                      "offset" := [Itoa offset]; "sort" := [sortBy] ]}
  end.

Definition call_body (m : Call) : option string :=
  match m with
  | CallPutEventRaw _ _ _ value | CallPutEventWithTimeRaw _ _ _ _ value =>
      value
  | _ => None
  end.

Definition call_status (m : Call) : Z :=
  match m with
  | CallPing | CallGetRelations _ _ _ | CallGetEvents _ _ _
  | CallGetEventsInRange _ _ _ _ _ | CallSearch _ _ _ _
  | CallSearchSorted _ _ _ _ _ => 200
  | _ => 204
  end.

(** Toy JSON for this package: a body that opens a brace is an error
    message, any other is not JSON, and no result type decodes. *)
Definition mockJSON : JSON :=
  {| Unmarshal_OrchestrateError := fun b =>
       if String.prefix "{" b then inr b
       else inl (errorString "invalid character");
     Decode_SearchResults := fun b =>
       ((mkSearchResults 0 0 [] "" "",
         Some (errorString "unexpected end of JSON input")), "");
     Decode_GraphResults := fun b =>
       (inl (errorString "unexpected end of JSON input"), "");
     Decode_EventResults := fun b =>
       (inl (errorString "unexpected end of JSON input"), "") |}.

End Gorc.


(* ================================================================== *)
(** * Properties *)
(* ================================================================== *)

(** ** The string functions, on the values the code meets *)

Example LastIndex_ex1 : LastIndex "/v0/c/k/refs/r1" "/" = 12.
Proof. reflexivity. Qed.
Example LastIndex_ex2 : LastIndex "nothing" "/" = -1.
Proof. reflexivity. Qed.
Example LastIndex_ex3 : LastIndex "" "/" = -1.
Proof. reflexivity. Qed.
Example LastIndex_ex4 : LastIndex "abc" "" = 3.
Proof. reflexivity. Qed.
Example slice_ex1 : slice "/v0/c/k/refs/r1" 13 15 = "r1".
Proof. reflexivity. Qed.
Example Split_ex1 : Split "/v0/c/k/events/t/12/3" "/"
                    = [""; "v0"; "c"; "k"; "events"; "t"; "12"; "3"].
Proof. reflexivity. Qed.
Example Split_ex2 : Split "" "/" = [""].
Proof. reflexivity. Qed.
Example Split_ex3 : Split "a--b--" "--" = ["a"; "b"; ""].
Proof. reflexivity. Qed.
Example Split_ex4 : Split (dquote +:+ "r1" +:+ dquote) dquote = [""; "r1"; ""].
Proof. reflexivity. Qed.
Example ParseInt_ex1 : ParseInt "-42" = Some (-42).
Proof. reflexivity. Qed.
Example ParseInt_ex2 : ParseInt "4x" = None.
Proof. reflexivity. Qed.
Example ParseInt_ex3 : ParseInt "9223372036854775808" = None.
Proof. reflexivity. Qed.
Example ParseInt_ex4 : ParseInt "-9223372036854775808" = Some MinInt64.
Proof. reflexivity. Qed.
Example ParseInt_ex5 : ParseInt "" = None /\ ParseInt "-" = None.
Proof. split; reflexivity. Qed.
Example TrimPrefix_ex : TrimPrefix "/v0/c?offset=5" "/v0/" = "c?offset=5".
Proof. reflexivity. Qed.
Example after_last_slash_ex : after_last_slash "/v0/c/k/refs/r1" = "r1".
Proof. reflexivity. Qed.

(** The tests of the error file. *)
Example TestAlreadyExistsError_Error :
  Error_text (AlreadyExistsError "test")
  = "An item with the key test already exists.".
Proof. reflexivity. Qed.
Example TestNotMostRecentError_Error :
  Error_text (NotMostRecentError "test") = "test was not the most recent ref.".
Proof. reflexivity. Qed.
Example TestUnknownError_Error :
  Error_text (UnknownError "status" 100 "message") = "status (100): message".
Proof. reflexivity. Qed.

(** The URL checks of the GetLinks test. *)
Example TestCollection_GetLinks_limit :
  next (GetLinks (Client_Collection testClient "gorc2-unittests") "key1"
          (Some (mkGetLinksQuery 100)) "kind1" [])
  = "gorc2-unittests/key1/relations/kind1?limit=100".
Proof. reflexivity. Qed.
Example TestCollection_GetLinks_kinds :
  next (GetLinks (Client_Collection testClient "gorc2-unittests") "key1"
          None "kind1" ["kind2"; "kind3"])
  = "gorc2-unittests/key1/relations/kind1/kind2/kind3".
Proof. reflexivity. Qed.

(** The false conditions 2 and 3 of the iterator test: an iterator that is
    done, and one with an empty next link. *)
Example TestIterator_Next_done :
  @Next (mockPlatform threeItems threeItemsPages)
    (mkIterator None testClient true 0 false false "" []) emptyWorld
  = ((false, mkIterator None testClient true 0 false false "" []), emptyWorld).
Proof. reflexivity. Qed.
Example TestIterator_Next_empty_next :
  fst (fst (@Next (mockPlatform threeItems threeItemsPages)
              (mkIterator None testClient false 0 false false "" [])
              emptyWorld))
  = false.
Proof. reflexivity. Qed.

Lemma String_prefix_slash (c : ascii) (s : string) :
  String.prefix "/" (String c s) = bool_decide (c = "/"%char).
Proof.
  cbn [String.prefix].
  destruct (ascii_dec "/" c) as [->|Hne];
    case_bool_decide; try congruence; destruct s; reflexivity.
Qed.

Lemma len_String (c : ascii) (s : string) : len (String c s) = 1 + len s.
Proof. unfold len. cbn [String.length]. lia. Qed.

Lemma len_nonneg (s : string) : 0 <= len s.
Proof. unfold len. lia. Qed.

(** [LastIndex] of a one-byte separator, by the position it starts at. *)
Lemma LastIndex_from_slash (s : string) (pos : Z) :
  0 <= pos ->
  (has_slash s = false /\ LastIndex_from pos s "/" = -1)
  \/ (has_slash s = true
      /\ pos <= LastIndex_from pos s "/" < pos + len s).
Proof.
  revert pos. induction s as [|c s IH]; intros pos Hpos.
  - left. split; reflexivity.
  - cbn [LastIndex_from has_slash]. rewrite String_prefix_slash, len_String.
    pose proof (len_nonneg s) as Hnn.
    destruct (IH (pos + 1)) as [[Hs Hr] | [Hs Hr]]; [lia | |].
    + rewrite Hr, Hs, orb_false_r.
      replace (0 <=? -1) with false by reflexivity.
      case_bool_decide; [right | left]; split; try reflexivity. lia.
    + rewrite Hs, orb_true_r. right. split; [reflexivity|].
      destruct (0 <=? LastIndex_from (pos + 1) s "/") eqn:E; [lia|].
      apply Z.leb_gt in E. lia.
Qed.

(** [LastIndex(s, "/")] is -1 exactly when [s] has no ['/']. *)
Lemma LastIndex_slash_none (s : string) :
  LastIndex s "/" = -1 <-> has_slash s = false.
Proof.
  unfold LastIndex.
  destruct (LastIndex_from_slash s 0) as [[Hs Hr] | [Hs Hr]]; [lia | |].
  - rewrite Hs, Hr. tauto.
  - rewrite Hs. split; [lia | discriminate].
Qed.

(** When it is not -1 the slice the code takes after it is in range. *)
Lemma LastIndex_slash_bounds (s : string) :
  LastIndex s "/" <> -1 ->
  0 <= LastIndex s "/" + 1 <= len s.
Proof.
  unfold LastIndex.
  destruct (LastIndex_from_slash s 0) as [[Hs Hr] | [Hs Hr]]; lia.
Qed.
(** ** The reply handlers *)

Ltac unfold_M := unfold bind, ret, send, Close in *.

(** Case analysis on whatever the goal matches on, all occurrences at
    once. *)
Ltac split_match :=
  match goal with
  | |- context [match ?x with _ => _ end] => destruct x eqn:?
  | |- context [if ?x then _ else _] => destruct x eqn:?
  end.

Section Replies.
Context `{Platform}.

(** A request that [http.NewRequest] accepts is logged and answered by the
    HTTP client. *)
Lemma doRequest_sent (c : Client) (method trailing : string)
    (headers : gmap string string) (body : option string)
    (resp : Response) (w : World) :
  answer c method trailing headers body = inr resp ->
  doRequest c method trailing headers body w
  = (inr resp,
     mkWorld (buildRequest c method trailing headers body :: sent w)
             (closed w)).
Proof.
  unfold answer, doRequest. unfold_M.
  destruct (NewRequest_error _ _); cbn; [discriminate|].
  intros ->. reflexivity.
Qed.

(** [emptyReply] on a status other than the expected one: the classified
    error, one request sent, and the body closed with whatever
    [newError] left unread. *)
Lemma emptyReply_mismatch (c : Client) (method path : string)
    (headers : gmap string string) (body : option string) (status : Z)
    (resp : Response) (w : World) :
  answer c method path headers body = inr resp ->
  StatusCode resp <> status ->
  emptyReply c method path headers body status w
  = (inl (fst (newError resp)),
     mkWorld (buildRequest c method path headers body :: sent w)
             (snd (newError resp) :: closed w)).
Proof.
  intros Ha Hs. unfold emptyReply, bind at 1.
  rewrite (doRequest_sent _ _ _ _ _ _ _ Ha).
  rewrite bool_decide_false by assumption. cbn [negb].
  destruct (newError resp) as [e rest]. reflexivity.
Qed.

(** [emptyReply] on the expected status: the response, one request sent,
    and the body drained before it is closed. *)
Lemma emptyReply_match (c : Client) (method path : string)
    (headers : gmap string string) (body : option string) (status : Z)
    (resp : Response) (w : World) :
  answer c method path headers body = inr resp ->
  StatusCode resp = status ->
  emptyReply c method path headers body status w
  = (inr resp,
     mkWorld (buildRequest c method path headers body :: sent w)
             ("" :: closed w)).
Proof.
  intros Ha Hs. unfold emptyReply, bind at 1.
  rewrite (doRequest_sent _ _ _ _ _ _ _ Ha).
  rewrite bool_decide_true by assumption. reflexivity.
Qed.

(** [jsonReply] on a status other than the expected one. *)
Lemma jsonReply_mismatch {A} (c : Client) (method path : string)
    (body : option string) (status : Z) (value : Decoder A)
    (resp : Response) (w : World) :
  answer c method path {[ "Accept-Encoding" := "gzip; deflate" ]} body
    = inr resp ->
  StatusCode resp <> status ->
  jsonReply c method path body status value w
  = (inl (fst (newError resp)),
     mkWorld (buildRequest c method path
                {[ "Accept-Encoding" := "gzip; deflate" ]} body :: sent w)
             (snd (newError resp) :: closed w)).
Proof.
  intros Ha Hs. unfold jsonReply, bind at 1.
  rewrite (doRequest_sent _ _ _ _ _ _ _ Ha).
  rewrite bool_decide_false by assumption. cbn [negb].
  destruct (newError resp) as [e rest]. reflexivity.
Qed.

(** What [jsonReply] returns does not depend on the world, and it sends
    at most one request. *)
Lemma jsonReply_world {A} (c : Client) (method path : string)
    (body : option string) (status : Z) (value : Decoder A) (w : World) :
  fst (jsonReply c method path body status value w)
  = fst (jsonReply c method path body status value emptyWorld)
  /\ (fetches (snd (jsonReply c method path body status value w))
      <= S (fetches w))%nat.
Proof.
  unfold jsonReply, doRequest, fetches. unfold_M.
  destruct (NewRequest_error _ _); cbn; [split; [reflexivity | lia]|].
  destruct (Do _); cbn; [split; [reflexivity | lia]|].
  repeat (split_match; cbn); split; auto; lia.
Qed.

(** A fetch that yields a page costs exactly one request. *)
Lemma fetch_page (c : Client) (url : string) (page : jsonList) (w : World) :
  page_at c url = Some page ->
  exists resp w',
    jsonReply c "GET" url None 200 Decode_jsonList w = (inr (resp, page), w')
    /\ fetches w' = S (fetches w).
Proof.
  unfold page_at, jsonReply, doRequest, fetches. unfold_M.
  destruct (NewRequest_error _ _); cbn; [discriminate|].
  destruct (Do _); cbn; [discriminate|].
  repeat (split_match; cbn); intros; cbn in *; simplify_eq;
    eexists _, _; split; reflexivity.
Qed.

End Replies.
(** ** The error classifier *)

(** C6. For every response, [newError] returns exactly [NotFoundError] for
    status 404, [PreconditionFailedError] for 412, [RateLimitedError] for
    419, and for every other status an [UnknownError] that carries the raw
    status line, the numeric status code and the [message] field decoded
    from the body (the decoder's error text when the body does not
    decode). The kinds are those of the specification's table. *)
Theorem newError_classifies `{Platform} (resp : Response) :
  kind_of (fst (newError resp)) = classify (StatusCode resp)
  /\ match classify (StatusCode resp) with
     | KNotFound =>
         StatusCode resp = 404
         /\ fst (newError resp) = NotFoundError "404: Not found."
     | KPreconditionFailed =>
         StatusCode resp = 412
         /\ fst (newError resp)
            = PreconditionFailedError "412: Precondition failed."
     | KRateLimited =>
         StatusCode resp = 419
         /\ fst (newError resp) = RateLimitedError "Request rate limited."
     | _ =>
         fst (newError resp)
         = UnknownError (Status resp) (StatusCode resp)
             (match fst (Decode_UnknownError (Body resp)) with
              | inr message => message
              | inl err => Error_text err
              end)
     end.
Proof.
  unfold newError, classify.
  destruct (Z.eqb_spec (StatusCode resp) 404) as [E1|E1].
  { rewrite bool_decide_true by assumption. cbn. auto. }
  rewrite bool_decide_false by assumption.
  destruct (Z.eqb_spec (StatusCode resp) 412) as [E2|E2].
  { rewrite bool_decide_true by assumption. cbn. auto. }
  rewrite bool_decide_false by assumption.
  destruct (Z.eqb_spec (StatusCode resp) 419) as [E3|E3].
  { rewrite bool_decide_true by assumption. cbn. auto. }
  rewrite bool_decide_false by assumption.
  destruct (Decode_UnknownError (Body resp)) as [[err|message] rest];
    cbn; auto.
Qed.

(** A 412 is always classified as a failed precondition, and the body is
    not touched. *)
Lemma newError_412 `{Platform} (resp : Response) :
  StatusCode resp = 412 ->
  newError resp
  = (PreconditionFailedError "412: Precondition failed.", Body resp).
Proof.
  intros E. unfold newError. rewrite E.
  rewrite bool_decide_false by lia. rewrite bool_decide_true by lia.
  reflexivity.
Qed.

(** The three statuses with a kind of their own are classified without
    reading a byte of the body. *)
Lemma newError_leaves_body `{Platform} (resp : Response) :
  classify (StatusCode resp) <> KUnknown ->
  snd (newError resp) = Body resp.
Proof.
  unfold newError, classify.
  destruct (Z.eqb_spec (StatusCode resp) 404) as [E1|E1].
  { rewrite bool_decide_true by assumption. reflexivity. }
  rewrite bool_decide_false by assumption.
  destruct (Z.eqb_spec (StatusCode resp) 412) as [E2|E2].
  { rewrite bool_decide_true by assumption. reflexivity. }
  rewrite bool_decide_false by assumption.
  destruct (Z.eqb_spec (StatusCode resp) 419) as [E3|E3].
  { rewrite bool_decide_true by assumption. reflexivity. }
  congruence.
Qed.

(** ** Reclassification of a failed precondition *)

Section Reclassify.
Context `{Platform} {V : Type} `{JSONMarshaler V}.




End Reclassify.

(** ** How much of a body is read *)

Section Draining.
Context `{Platform}.

(** On the expected status [emptyReply] closes the body with nothing left
    unread. *)
Lemma emptyReply_drains (c : Client) (method path : string)
    (headers : gmap string string) (body : option string) (status : Z)
    (resp : Response) (w : World) :
  answered c method path headers body resp status ->
  closed (snd (emptyReply c method path headers body status w))
  = "" :: closed w.
Proof.
  intros [Ha Hs]. rewrite (emptyReply_match _ _ _ _ _ _ _ _ Ha Hs).
  reflexivity.
Qed.

(** On a 404, 412 or 419 that was not expected, both reply handlers close
    the body with all of it unread. *)
Lemma error_path_reads_nothing {A} (c : Client) (method path : string)
    (headers : gmap string string) (body : option string) (status : Z)
    (value : Decoder A) (r1 r2 : Response) (w : World) :
  answer c method path headers body = inr r1 ->
  answer c method path {[ "Accept-Encoding" := "gzip; deflate" ]} body
    = inr r2 ->
  StatusCode r1 <> status -> classify (StatusCode r1) <> KUnknown ->
  StatusCode r2 <> status -> classify (StatusCode r2) <> KUnknown ->
  closed (snd (emptyReply c method path headers body status w))
    = Body r1 :: closed w
  /\ closed (snd (jsonReply c method path body status value w))
     = Body r2 :: closed w.
Proof.
  intros Ha1 Ha2 Hs1 Hk1 Hs2 Hk2.
  rewrite (emptyReply_mismatch _ _ _ _ _ _ _ _ Ha1 Hs1).
  rewrite (jsonReply_mismatch _ _ _ _ _ _ _ _ Ha2 Hs2).
  cbn. rewrite !newError_leaves_body by assumption. auto.
Qed.

End Draining.

(** C9 (the code fails the claim). A server answers 404 with a body of
    nine bytes. [Delete] goes through [emptyReply] and [Get] through
    [jsonReply]; each returns the not-found error, and each closes the
    body with all nine bytes unread, where the success path of
    [emptyReply] reads the body to its end. *)
Theorem error_path_leaves_body_unread :
  let P := mockPlatform
             (always (mkResponse "404 Not Found" 404 ∅ "not found")) noPages in
  @Delete P testCollection "k" emptyWorld
    = (Some (NotFoundError "404: Not found."),
       mkWorld [@buildRequest P testClient "DELETE" "c/k" ∅ None]
               ["not found"])
  /\ fst (@Get P unit mockUnmarshaler testCollection "k" None emptyWorld)
     = (None, Some (NotFoundError "404: Not found."))
  /\ closed (snd (@Get P unit mockUnmarshaler testCollection "k" None
                    emptyWorld))
     = ["not found"]
  /\ closed (snd (@Delete
                    (mockPlatform (always (mkResponse "204 No Content" 204 ∅
                                             "not found")) noPages)
                    testCollection "k" emptyWorld))
     = [""].
Proof. cbv zeta. repeat split; reflexivity. Qed.

(** ** The iterator: absorbing states *)

Section IteratorSteps.
Context `{Platform}.

(** An exhausted or errored iterator: [Next] is a no-op returning
    false. *)
Lemma Next_absorbing (i : Iterator) (w : World) :
  done i = true \/ Error i <> None ->
  Next i w = ((false, i), w).
Proof.
  intros [Hd | He]; unfold Next.
  - rewrite Hd. reflexivity.
  - destruct (done i); [reflexivity|].
    rewrite bool_decide_true by assumption. reflexivity.
Qed.

(** C3. Once an iterator is exhausted ([done]) or errored ([Error] not
    nil), every later call of [Next] returns false, sends nothing, and
    leaves the iterator, its stored [Error] included, and the world as
    they were: any number [n] of calls all return false. *)
Theorem exhausted_errored_absorbing (i : Iterator) (w : World) (n : nat) :
  done i = true \/ Error i <> None ->
  Next i w = ((false, i), w)
  /\ Next_times n i w = ((repeat false n, i), w).
Proof.
  intros Hs. split; [apply Next_absorbing; assumption|].
  induction n as [|n IH]; [reflexivity|].
  cbn [Next_times repeat]. unfold bind.
  rewrite (Next_absorbing i w Hs). cbn [fst snd]. rewrite IH. reflexivity.
Qed.

(** ** The iterator: moving inside a page *)

(** C2, as amended. When the index is below the last position of the
    fetched page ([index < len(results) - 1]), [Next] sends nothing and
    changes at most the [index] field: [done], [Error], [next] and
    [results] are as before, and on an iterator that is neither exhausted
    nor errored the call returns true with the index advanced by one. *)
Theorem Next_in_page (i : Iterator) (w : World) :
  index i < Z.of_nat (length (results i)) - 1 ->
  snd (Next i w) = w
  /\ done (snd (fst (Next i w))) = done i
  /\ Error (snd (fst (Next i w))) = Error i
  /\ next (snd (fst (Next i w))) = next i
  /\ results (snd (fst (Next i w))) = results i
  /\ Iterator_client (snd (fst (Next i w))) = Iterator_client i
  /\ fst (Next i w)
     = if done i then (false, i)
       else if bool_decide (Error i <> None) then (false, i)
       else (true, set_index i (index i + 1)).
Proof.
  intros Hlt. unfold Next.
  destruct (done i) eqn:Hd; [cbn; rewrite Hd; auto 10|].
  destruct (bool_decide (Error i <> None)); [cbn; rewrite Hd; auto 10|].
  apply Z.ltb_lt in Hlt. rewrite Hlt. cbn. auto 10.
Qed.

End IteratorSteps.

(** An errored iterator stays as it is over three calls. *)
Lemma exhausted_errored_absorbing_witness :
  let P := mockPlatform threeItems threeItemsPages in
  let i := set_Error (@List P testCollection None)
             (Some (errorString "Expected")) in
  @Next P i emptyWorld = ((false, i), emptyWorld)
  /\ @Next_times P 3 i emptyWorld = (([false; false; false], i), emptyWorld).
Proof.
  intros P i.
  apply (@exhausted_errored_absorbing P i emptyWorld 3).
  right. discriminate.
Defined.

(** The first of two fetched items is current. *)
Lemma Next_in_page_witness :
  let P := mockPlatform threeItems threeItemsPages in
  let i := mkIterator None testClient false 0 false true "c?limit=2&offset=2"
             [testItem "k1"; testItem "k2"] in
  snd (@Next P i emptyWorld) = emptyWorld
  /\ fst (@Next P i emptyWorld) = (true, set_index i 1).
Proof.
  intros P i.
  destruct (@Next_in_page P i emptyWorld) as (T1 & _ & _ & _ & _ & _ & T2).
  - cbn. lia.
  - split; [exact T1 | exact T2].
Defined.

(** C2 as stated fails. The iterator holds a page of one item, [index] is
    0, which is below the page length 1, and a next page is named: [Next]
    sends a request (one fetch) and replaces [next] and [results]. *)
Lemma Next_at_last_item_fetches :
  let P := mockPlatform threeItems threeItemsPages in
  let i := mkIterator None testClient false 0 false true "c?limit=2&offset=2"
             [testItem "k2"] in
  index i < Z.of_nat (length (results i))
  /\ fetches (snd (@Next P i emptyWorld)) = 1%nat
  /\ results (snd (fst (@Next P i emptyWorld))) = [testItem "k3"]
  /\ next (snd (fst (@Next P i emptyWorld))) = "".
Proof. cbv zeta. repeat split. Qed.
(** ** The iterator: the current element is in range *)

Section IteratorRange.
Context `{Platform}.

(** [Next] never makes the index negative. *)
Lemma Next_index_nonneg (i : Iterator) (w : World) :
  0 <= index i -> 0 <= index (snd (fst (Next i w))).
Proof.
  intros Hi. unfold Next.
  destruct (done i); [exact Hi|].
  destruct (bool_decide (Error i <> None)); [exact Hi|].
  destruct (index i <? Z.of_nat (length (results i)) - 1); [cbn; lia|].
  destruct (bool_decide (next i = "")); [exact Hi|].
  unfold bind.
  destruct (jsonReply _ _ _ _ _ _ w) as [[err | [resp page]] w'];
    [exact Hi|].
  case_bool_decide; cbn; lia.
Qed.

Lemma reachable_index_nonneg (i : Iterator) : reachable i -> 0 <= index i.
Proof.
  induction 1 as [e c d ev it path | i w Hr IH].
  - cbn. lia.
  - apply Next_index_nonneg. exact IH.
Qed.

(** After a [true] the index is a position of the page. *)
Lemma Next_true_in_range (i : Iterator) (w : World) :
  0 <= index i ->
  fst (fst (Next i w)) = true ->
  0 <= index (snd (fst (Next i w)))
       < Z.of_nat (length (results (snd (fst (Next i w))))).
Proof.
  intros Hi. unfold Next.
  destruct (done i) eqn:Hd; [discriminate|].
  destruct (bool_decide (Error i <> None)); [discriminate|].
  destruct (index i <? Z.of_nat (length (results i)) - 1) eqn:Hlt.
  { intros _. apply Z.ltb_lt in Hlt. cbn. lia. }
  destruct (bool_decide (next i = "")); [discriminate|].
  unfold bind.
  destruct (jsonReply _ _ _ _ _ _ w) as [[err | [resp page]] w'];
    [discriminate|].
  case_bool_decide as Hz; cbn; rewrite ?Hd; [discriminate|].
  intros _. destruct (Results page); cbn in *; [congruence | lia].
Qed.

Lemma at_index_in_range {A} (s : list A) (n : Z) :
  0 <= n < Z.of_nat (length s) -> exists x, at_index s n = Some x.
Proof.
  intros Hn. unfold at_index.
  replace (n <? 0) with false by (symmetry; apply Z.ltb_ge; lia).
  replace (Z.of_nat (length s) <=? n) with false
    by (symmetry; apply Z.leb_gt; lia).
  cbn. destruct (nth_error s (Z.to_nat n)) eqn:E; [eauto|].
  apply nth_error_None in E. lia.
Qed.

End IteratorRange.

(** C10, as amended. For every iterator whose index is not negative,
    as it is for every iterator a program outside the package can hold
    (a listing call builds it with index zero, and [Next] never makes
    the index negative), whenever a call of [Next] has just returned
    true, [0 <= index < len(results)],
    so that the unchecked [results[index]] of [Get] and [GetEvent] is in
    range: neither panics on the index. (In range is not safe: the
    element may be a nil pointer, the JSON null of a page, and then [Get]
    panics when it reads the element's fields.) Before the first
    successful [Next] the invariant does not hold: the iterator a listing
    call returns has no results and index 0, and [Get] and [GetEvent] on
    it panic on the index. *)
Theorem Next_true_index_in_range `{Platform} {D} `{JSONUnmarshaler D}
    (i : Iterator) (w : World) (value : option D)
    (c : Client) (path : string) :
  0 <= index i ->
  fst (fst (Next i w)) = true ->
  let i' := snd (fst (Next i w)) in
  0 <= index i' < Z.of_nat (length (results i'))
  /\ (exists e, at_index (results i') (index i') = Some e)
  /\ Iterator_Get i' value <> Panics index_out_of_range
  /\ Iterator_GetEvent i' value <> Panics index_out_of_range
  /\ (at_index (results i') (index i') = Some None ->
      iteratingItems i' = true ->
      Iterator_Get i' value = Panics nil_dereference)
  /\ (forall j, reachable j -> 0 <= index j)
  /\ Iterator_Get (newIterator c false true path) value
     = Panics index_out_of_range
  /\ Iterator_GetEvent (newIterator c true false path) value
     = Panics index_out_of_range.
Proof.
  intros Hi Ht i'.
  pose proof (Next_true_in_range i w Hi Ht) as Hin.
  fold i' in Hin.
  destruct (at_index_in_range _ _ Hin) as [e He].
  split; [exact Hin|]. split; [eauto|].
  split; [|split; [|split; [|split; [|split; reflexivity]]]].
  - unfold Iterator_Get. rewrite He.
    destruct (iteratingItems i'), e, value; cbn; discriminate.
  - unfold Iterator_GetEvent. rewrite He.
    destruct (iteratingEvents i'), e, value; cbn; discriminate.
  - intros Hn Hk. unfold Iterator_Get. rewrite Hn, Hk. reflexivity.
  - exact reachable_index_nonneg.
Qed.

(** The first [Next] of a listing of three items. *)
Lemma Next_true_index_in_range_witness :
  let P := mockPlatform threeItems threeItemsPages in
  let i := @List P testCollection (Some (mkListQuery 2 "" "" "" "")) in
  let i' := snd (fst (@Next P i emptyWorld)) in
  0 <= index i' < Z.of_nat (length (results i'))
  /\ @Iterator_Get unit mockUnmarshaler i' None <> Panics index_out_of_range
  /\ @Iterator_Get unit mockUnmarshaler i None = Panics index_out_of_range.
Proof.
  intros P i i'.
  destruct (@Next_true_index_in_range P unit mockUnmarshaler i emptyWorld
              None testClient "c?limit=2")
    as (T1 & _ & T3 & _ & _ & _ & T5 & _).
  - cbn. lia.
  - reflexivity.
  - split; [exact T1|]. split; [exact T3 | exact T5].
Defined.

(** C10 as stated fails on an iterator whose index is negative, a value
    of the struct that code inside the package can build, the way the
    tests of [Get] and [GetEvent] build theirs, by a literal and an
    assignment to an unexported field: [Next] steps within the page,
    returns true, and leaves the index out of range, where [Get]
    panics. *)
Lemma Next_true_negative_index :
  let P := mockPlatform threeItems threeItemsPages in
  let i := mkIterator None testClient false (-2) false true ""
             [testItem "k1"] in
  fst (fst (@Next P i emptyWorld)) = true
  /\ index (snd (fst (@Next P i emptyWorld))) = -1
  /\ length (results (snd (fst (@Next P i emptyWorld)))) = 1%nat
  /\ @Iterator_Get unit mockUnmarshaler (snd (fst (@Next P i emptyWorld))) None
     = Panics index_out_of_range.
Proof. cbv zeta. repeat split. Qed.

(** In range is not safe. The body [{"results":[null]}] decodes to a page
    of one nil pointer: [Next] returns true with the index in range, and
    [Get] panics on the dereference. *)
Example Get_panics_on_null_element :
  let P := mockPlatform (always (mkResponse "200 OK" 200 ∅ "null")) nullPages in
  let i := @List P testCollection None in
  fst (fst (@Next P i emptyWorld)) = true
  /\ index (snd (fst (@Next P i emptyWorld))) = 0
  /\ results (snd (fst (@Next P i emptyWorld))) = [None]
  /\ @Iterator_Get unit mockUnmarshaler (snd (fst (@Next P i emptyWorld))) None
     = Panics nil_dereference.
Proof. cbv zeta. repeat split. Qed.
(** ** The iterator: a whole listing *)

Lemma prepend_prepend xs ys r :
  prepend xs (prepend ys r) = prepend (xs ++ ys) r.
Proof. destruct r as [[zs j]|]; cbn; [rewrite app_assoc|]; reflexivity. Qed.

Lemma ceil_div_one (n l : nat) :
  (1 <= n <= l)%nat -> ceil_div n l = 1%nat.
Proof.
  intros Hn. unfold ceil_div. symmetry.
  apply (Nat.div_unique _ _ _ (n - 1)); lia.
Qed.

Lemma ceil_div_page (r l : nat) :
  (1 <= l)%nat -> ceil_div (l + r) l = S (ceil_div r l).
Proof.
  intros Hl. unfold ceil_div.
  replace (l + r + l - 1)%nat with ((r + l - 1) + 1 * l)%nat by lia.
  rewrite Nat.div_add by lia. lia.
Qed.

Lemma ceil_div_pos (r l : nat) :
  (1 <= l)%nat -> (1 <= r)%nat -> (1 <= ceil_div r l)%nat.
Proof.
  intros Hl Hr. unfold ceil_div.
  apply Nat.div_le_lower_bound; lia.
Qed.

(** A single page, empty or not. *)
Lemma pages_served_last (n l : nat) :
  (1 <= l)%nat -> (n <= l)%nat -> pages_served n l n = 1%nat.
Proof.
  intros Hl Hn. unfold pages_served. destruct n as [|n].
  - cbn [Nat.eqb]. rewrite Nat.div_small by lia. reflexivity.
  - cbn [Nat.eqb]. apply ceil_div_one. lia.
Qed.

(** One full page more is one page more. *)
Lemma pages_served_page (n l last : nat) :
  (1 <= l)%nat -> pages_served (l + n) l last = S (pages_served n l last).
Proof.
  intros Hl. unfold pages_served. destruct (last =? 0)%nat.
  - replace (l + n)%nat with (1 * l + n)%nat by lia.
    rewrite Nat.div_add_l by lia. lia.
  - apply ceil_div_page. exact Hl.
Qed.

Section Exhaustion.
Context `{Platform}.

Lemma Next_live_unfold (i : Iterator) :
  live i ->
  Next i
  = if index i <? Z.of_nat (length (results i)) - 1 then
      ret (true, set_index i (index i + 1))
    else if bool_decide (next i = "") then ret (false, set_done i true)
    else
      r <- jsonReply (Iterator_client i) "GET" (next i) None 200
             Decode_jsonList ;;
      match r with
      | inl err => ret (false, set_Error i (Some err))
      | inr (_, page) =>
          let i1 := set_page i (TrimPrefix (Next_url page) "/v0/")
                      (Results page) in
          if bool_decide (length (Results page) = 0%nat) then
            let i2 := set_done i1 true in ret (negb (done i2), i2)
          else
            let i2 := set_index i1 0 in ret (negb (done i2), i2)
      end.
Proof.
  intros [Hd He]. unfold Next. rewrite Hd, He.
  rewrite bool_decide_false by congruence. reflexivity.
Qed.

(** One step of the loop when [Next] returns true. *)
Lemma iterate_true (f : nat) (i i' : Iterator) (w w' : World)
    (x : option jsonListItem) :
  Next i w = ((true, i'), w') ->
  at_index (results i') (index i') = Some x ->
  iterate (S f) i w
  = (prepend [x] (fst (iterate f i' w')), snd (iterate f i' w')).
Proof.
  intros Hn Hx. cbn [iterate]. unfold bind at 1. rewrite Hn. cbn [fst snd].
  unfold bind, ret. destruct (iterate f i' w') as [r w'']. rewrite Hx.
  destruct r as [[xs j]|]; reflexivity.
Qed.

(** One step of the loop when [Next] returns false. *)
Lemma iterate_false (f : nat) (i i' : Iterator) (w w' : World) :
  Next i w = ((false, i'), w') ->
  iterate (S f) i w = (Some ([], i'), w').
Proof.
  intros Hn. cbn [iterate]. unfold bind at 1. rewrite Hn. reflexivity.
Qed.

Lemma at_index_app {A} (pre suf : list A) (x : A) :
  at_index (pre ++ x :: suf) (Z.of_nat (length pre)) = Some x.
Proof.
  unfold at_index. rewrite length_app. cbn [length].
  replace (Z.of_nat (length pre) <? 0) with false
    by (symmetry; apply Z.ltb_ge; lia).
  replace (Z.of_nat (length pre + S (length suf)) <=? Z.of_nat (length pre))
    with false by (symmetry; apply Z.leb_gt; lia).
  cbn. rewrite Nat2Z.id. rewrite nth_error_app2 by lia.
  rewrite Nat.sub_diag. reflexivity.
Qed.

(** Walking through the rest of a fetched page costs no request: with
    [x] current and [suf] after it, the loop yields [suf] and goes on
    from the last position of the page. *)
Lemma iterate_in_page (suf pre : list (option jsonListItem))
    (x : option jsonListItem)
    (i : Iterator) (f : nat) (w : World) :
  live i ->
  results i = pre ++ x :: suf ->
  index i = Z.of_nat (length pre) ->
  iterate (length suf + f) i w
  = (prepend suf
       (fst (iterate f (set_index i (Z.of_nat (length (results i)) - 1)) w)),
     snd (iterate f (set_index i (Z.of_nat (length (results i)) - 1)) w)).
Proof.
  revert pre x i. induction suf as [|y suf IH]; intros pre x i Hl Hr Hi.
  - cbn [length Nat.add].
    replace (set_index i (Z.of_nat (length (results i)) - 1)) with i.
    + destruct (iterate f i w) as [[[xs j]|] w']; reflexivity.
    + destruct i; cbn in *. subst. unfold set_index. cbn.
      f_equal. rewrite length_app. cbn [length]. lia.
  - cbn [length Nat.add].
    assert (Hn : Next i w = ((true, set_index i (index i + 1)), w)).
    { rewrite (Next_live_unfold i Hl).
      replace (index i <? Z.of_nat (length (results i)) - 1) with true;
        [reflexivity|].
      symmetry. apply Z.ltb_lt. rewrite Hr, Hi, length_app. cbn [length]. lia. }
    assert (Hx : at_index (results (set_index i (index i + 1)))
                   (index (set_index i (index i + 1))) = Some y).
    { cbn. rewrite Hr, Hi.
      replace (pre ++ x :: y :: suf) with ((pre ++ [x]) ++ y :: suf)
        by (rewrite <- app_assoc; reflexivity).
      replace (Z.of_nat (length pre) + 1) with (Z.of_nat (length (pre ++ [x])))
        by (rewrite length_app; cbn [length]; lia).
      apply at_index_app. }
    rewrite (iterate_true _ _ _ _ _ _ Hn Hx).
    rewrite (IH (pre ++ [x]) y (set_index i (index i + 1))).
    + cbn [fst snd results set_index]. rewrite prepend_prepend. reflexivity.
    + destruct Hl. split; assumption.
    + cbn. rewrite Hr, <- app_assoc. reflexivity.
    + cbn. rewrite Hi, length_app. cbn [length]. lia.
Qed.


(** At the end of its page, with no next page named, a live iterator
    becomes exhausted without a request. *)
Lemma Next_no_next (i : Iterator) (w : World) :
  live i ->
  Z.of_nat (length (results i)) - 1 <= index i ->
  next i = "" ->
  Next i w = ((false, set_done i true), w).
Proof.
  intros Hl Hi Hn. rewrite (Next_live_unfold i Hl).
  replace (index i <? Z.of_nat (length (results i)) - 1) with false
    by (symmetry; apply Z.ltb_ge; lia).
  rewrite bool_decide_true by assumption. reflexivity.
Qed.

(** At the end of its page, with a next page named and served, a live
    iterator fetches it: one request. *)
Lemma Next_fetch (i : Iterator) (w : World) (page : jsonList) :
  live i ->
  Z.of_nat (length (results i)) - 1 <= index i ->
  next i <> "" ->
  page_at (Iterator_client i) (next i) = Some page ->
  exists w',
    fetches w' = S (fetches w)
    /\ Next i w
       = (if bool_decide (length (Results page) = 0%nat)
          then (false, set_done (set_page i (TrimPrefix (Next_url page) "/v0/")
                                   (Results page)) true)
          else (true, set_index (set_page i (TrimPrefix (Next_url page) "/v0/")
                                   (Results page)) 0),
          w').
Proof.
  intros Hl Hi Hn Hp. rewrite (Next_live_unfold i Hl).
  replace (index i <? Z.of_nat (length (results i)) - 1) with false
    by (symmetry; apply Z.ltb_ge; lia).
  rewrite bool_decide_false by assumption.
  destruct (fetch_page _ _ _ w Hp) as (resp & w' & Hj & Hf).
  exists w'. split; [exact Hf|].
  unfold bind. rewrite Hj. destruct Hl as [Hd He].
  case_bool_decide; cbn; unfold ret; rewrite ?Hd; reflexivity.
Qed.

(** The loop over a paginating server, started at the end of a page (or
    on a fresh iterator) whose next page is [url]. *)
Lemma iterate_paged (c : Client) (L : nat) (url : string)
    (items : list (option jsonListItem)) (last : nat) :
  (1 <= L)%nat ->
  paged c L url items last ->
  forall (i : Iterator) (w : World) (extra : nat),
    live i ->
    Iterator_client i = c ->
    Z.of_nat (length (results i)) - 1 <= index i ->
    next i = url ->
    url <> "" ->
    exists final w',
      iterate (S (length items) + extra) i w = (Some (items, final), w')
      /\ fetches w' = (fetches w + pages_served (length items) L last)%nat
      /\ Error final = None
      /\ done final = true.
Proof.
  intros HL Hpaged.
  induction Hpaged as [url page Hp Hnx Hlen
                      | url page rest last Hp Hlen Hnx Hpaged IH];
    intros i w extra Hl Hc Hi Hn Hurl.
  - (* the last page *)
    subst c url.
    destruct (Next_fetch i w page Hl Hi Hurl Hp) as (w' & Hf & HN).
    rewrite (pages_served_last _ _ HL Hlen).
    destruct (Results page) as [|x suf] eqn:Hres.
    + rewrite bool_decide_true in HN by reflexivity.
      cbn [length Nat.add]. rewrite (iterate_false _ _ _ _ _ HN).
      eexists _, _. split; [reflexivity|].
      destruct Hl as [Hd He].
      split; [|split; [assumption | reflexivity]].
      rewrite Hf. lia.
    + rewrite bool_decide_false in HN by discriminate.
      set (i1 := set_index (set_page i (TrimPrefix (Next_url page) "/v0/")
                              (x :: suf)) 0) in *.
      assert (Hl1 : live i1) by (destruct Hl; split; assumption).
      assert (Hx : at_index (results i1) (index i1) = Some x) by reflexivity.
      cbn [length]. 
      replace (S (S (length suf)) + extra)%nat
        with (S (length suf + S extra)) by lia.
      rewrite (iterate_true _ _ _ _ _ _ HN Hx).
      rewrite (iterate_in_page suf [] x i1 (S extra) w' Hl1 eq_refl eq_refl).
      assert (HN2 : Next (set_index i1 (Z.of_nat (length (results i1)) - 1)) w'
                    = ((false,
                        set_done
                          (set_index i1 (Z.of_nat (length (results i1)) - 1))
                          true), w')).
      { apply Next_no_next.
        - destruct Hl1; split; assumption.
        - cbn. lia.
        - cbn. rewrite Hnx. reflexivity. }
      rewrite (iterate_false _ _ _ _ _ HN2). cbn [fst snd prepend].
      rewrite app_nil_r.
      eexists _, _. split; [reflexivity|].
      destruct Hl as [Hd He].
      split; [|split; [assumption | reflexivity]].
      rewrite Hf. lia.
  - (* a full page, and more to come *)
    subst c url.
    destruct (Next_fetch i w page Hl Hi Hurl Hp) as (w' & Hf & HN).
    destruct (Results page) as [|x suf] eqn:Hres.
    { cbn [length] in Hlen. lia. }
    rewrite bool_decide_false in HN by discriminate.
    set (url' := TrimPrefix (Next_url page) "/v0/") in *.
    set (i1 := set_index (set_page i url' (x :: suf)) 0) in *.
    assert (Hl1 : live i1) by (destruct Hl; split; assumption).
    assert (Hx : at_index (results i1) (index i1) = Some x) by reflexivity.
    set (i2 := set_index i1 (Z.of_nat (length (results i1)) - 1)).
    destruct (IH i2 w' extra) as (final & w'' & Hit & Hf2 & He2 & Hd2).
    + destruct Hl1; split; assumption.
    + reflexivity.
    + cbn. lia.
    + reflexivity.
    + exact Hnx.
    + rewrite length_app. cbn [length].
      replace (S (S (length suf) + length rest) + extra)%nat
        with (S (length suf + (S (length rest) + extra))) by lia.
      rewrite (iterate_true _ _ _ _ _ _ HN Hx).
      rewrite (iterate_in_page suf [] x i1 _ w' Hl1 eq_refl eq_refl).
      fold i2. rewrite Hit. cbn [fst snd prepend].
      exists final, w''. split; [reflexivity|].
      split; [|split; assumption].
      rewrite Hf2, Hf. cbn [length] in Hlen.
      replace (S (length suf) + length rest)%nat with (L + length rest)%nat
        by lia.
      rewrite pages_served_page by assumption. lia.
Qed.

(** What the loop yields is what [Next] said: one [true] for every
    element, then the [false] that ended it. *)
Lemma iterate_Next_times (fuel : nat) :
  forall (i : Iterator) (w w' : World) (xs : list (option jsonListItem))
         (final : Iterator),
    iterate fuel i w = (Some (xs, final), w') ->
    Next_times (S (length xs)) i w
    = ((repeat true (length xs) ++ [false], final), w').
Proof.
  induction fuel as [|f IH]; intros i w w' xs final Hit; [discriminate|].
  cbn [iterate] in Hit. unfold bind at 1 in Hit.
  destruct (Next i w) as [[b i1] w1] eqn:HN. cbn [fst snd] in Hit.
  destruct b.
  - unfold bind, ret in Hit.
    destruct (iterate f i1 w1) as [r w2] eqn:Hrec.
    destruct (at_index (results i1) (index i1)); [|discriminate].
    destruct r as [[ys fin]|]; [|discriminate].
    inversion Hit; subst. cbn [length repeat app].
    change (Next_times (S (S (length ys))) i w)
      with ((r <- Next i ;;
             rest <- Next_times (S (length ys)) (snd r) ;;
             ret (fst r :: fst rest, snd rest)) w).
    unfold bind at 1. rewrite HN. cbn [fst snd]. unfold bind at 1.
    rewrite (IH _ _ _ _ _ Hrec). reflexivity.
  - inversion Hit; subst. cbn [length repeat app Next_times].
    unfold bind, ret. rewrite HN. reflexivity.
Qed.

End Exhaustion.

(** ** The listing calls *)

Section Listings.
Context `{Platform}.

(** Every listing call returns a fresh iterator: no request is made until
    the first [Next]. *)
Lemma listing_fresh (i : Iterator) :
  listing i ->
  exists c events items path, i = newIterator c events items path.
Proof. destruct 1; eexists _, _, _, _; reflexivity. Qed.

Lemma append_nonempty (a : string) (ch : ascii) (b : string) :
  a +:+ String ch b <> "".
Proof. destruct a; discriminate. Qed.

Lemma append_nonempty_l (a b : string) : a <> "" -> a +:+ b <> "".
Proof. destruct a; [congruence | discriminate]. Qed.

(** The initial path is never empty, except for [List(nil)] on a
    collection whose name is empty. *)
Lemma listing_path_nonempty (i : Iterator) :
  listing i ->
  next i <> ""
  \/ exists c, i = List c None /\ Name c = "".
Proof.
  destruct 1 as [c query | c query opts | c key opts | c key typ opts
                | c key opts kind kinds].
  - destruct query as [q|].
    + left. cbn. apply append_nonempty.
    + cbn. destruct (Name c) eqn:E.
      * right. exists c. split; [reflexivity | exact E].
      * left. discriminate.
  - left. cbn. apply append_nonempty.
  - left. destruct opts; cbn; apply append_nonempty.
  - left. destruct opts; cbn; apply append_nonempty.
  - left. unfold GetLinks. cbn [next newIterator].
    assert (H0 : Name c +:+ "/" +:+ key +:+ "/relations/" +:+ kind <> "").
    { destruct (Name c); discriminate. }
    assert (H1 : (if 0 <? Z.of_nat (length kinds)
                  then (Name c +:+ "/" +:+ key +:+ "/relations/" +:+ kind)
                         +:+ "/" +:+ Join kinds "/"
                  else Name c +:+ "/" +:+ key +:+ "/relations/" +:+ kind)
                 <> "").
    { destruct (0 <? Z.of_nat (length kinds));
        [apply append_nonempty_l|]; exact H0. }
    destruct opts as [o|]; [|exact H1].
    destruct (negb (bool_decide (glq_Limit o = 0)));
      [apply append_nonempty_l|]; exact H1.
Qed.

End Listings.

(** C1, as amended. Take any listing call (List, Search, History,
    ListEvents, GetLinks) whose initial path is not empty, over a server
    that holds [N] items and serves them in full pages of [L >= 1] items,
    naming a next page on every page but the last, whose [last] items
    are what remains, possibly none. Then the loop over [Next] yields
    exactly the [N] items in order, [Next] returns true exactly [N] times
    and then false, the calls send one request for every page served:
    [ceil (N / L)] in all when the last page holds an item, and
    [N / L + 1] when it is empty (when [N = 0], and when the last full
    page names a next page that comes back empty); and after the [N]-th
    true [Next] returns false with a nil [Error], as does every call after
    that. *)
Theorem iterator_exhaustion `{Platform} (i0 : Iterator) (L : nat)
    (items : list (option jsonListItem)) (last : nat) (w : World)
    (extra : nat) :
  listing i0 ->
  next i0 <> "" ->
  (1 <= L)%nat ->
  paged (Iterator_client i0) L (next i0) items last ->
  exists final w',
    iterate (S (length items) + extra) i0 w = (Some (items, final), w')
    /\ Next_times (S (length items)) i0 w
       = ((repeat true (length items) ++ [false], final), w')
    /\ fetches w' = (fetches w + pages_served (length items) L last)%nat
    /\ ((0 < last)%nat ->
        fetches w' = (fetches w + ceil_div (length items) L)%nat)
    /\ (last = 0%nat ->
        fetches w' = (fetches w + (length items / L + 1))%nat)
    /\ Error final = None
    /\ Next final w' = ((false, final), w').
Proof.
  intros Hlist Hnext HL Hpaged.
  destruct (listing_fresh i0 Hlist) as (c & ev & it & path & ->).
  destruct (iterate_paged _ L _ items last HL Hpaged
              (newIterator c ev it path) w extra)
    as (final & w' & Hit & Hf & He & Hd).
  - split; reflexivity.
  - reflexivity.
  - cbn. lia.
  - reflexivity.
  - exact Hnext.
  - exists final, w'. split; [exact Hit|].
    split; [exact (iterate_Next_times _ _ _ _ _ _ Hit)|].
    split; [exact Hf|].
    split.
    { intros Hlast. rewrite Hf. unfold pages_served.
      destruct last; [lia | reflexivity]. }
    split.
    { intros ->. rewrite Hf. reflexivity. }
    split; [exact He|].
    apply Next_absorbing. left. exact Hd.
Qed.

(** Three items, two to a page: three [true]s, two requests. *)
Lemma iterator_exhaustion_witness :
  let P := mockPlatform threeItems threeItemsPages in
  let i0 := @List P testCollection (Some (mkListQuery 2 "" "" "" "")) in
  exists final w',
    @iterate P 4 i0 emptyWorld
    = (Some ([testItem "k1"; testItem "k2"; testItem "k3"], final), w')
    /\ @Next_times P 4 i0 emptyWorld = (([true; true; true; false], final), w')
    /\ fetches w' = 2%nat
    /\ Error final = None
    /\ @Next P final w' = ((false, final), w').
Proof.
  intros P i0.
  destruct (@iterator_exhaustion P i0 2
              [testItem "k1"; testItem "k2"; testItem "k3"] 1 emptyWorld 0)
    as (final & w' & T1 & T2 & T3 & _ & _ & T4 & T5).
  - apply (@listing_List P).
  - discriminate.
  - lia.
  - apply (@paged_more P testClient 2 "c?limit=2" page1 [testItem "k3"] 1).
    + reflexivity.
    + reflexivity.
    + discriminate.
    + apply (@paged_last P testClient 2 "c?limit=2&offset=2" page2).
      * reflexivity.
      * reflexivity.
      * cbn. lia.
  - exists final, w'. repeat split; assumption.
Defined.

(** C1 as stated fails for an empty listing. The server holds no item and
    answers the listing with one empty page and no next page, which is
    the first case of the iterator test. [ceil (0 / 10)] is 0, but the
    first [Next] has to ask: it returns false, with a nil [Error], after
    one request. *)
Lemma empty_listing_costs_one_fetch :
  let P := mockPlatform (always (mkResponse "200 OK" 200 ∅ "empty"))
             emptyListingPages in
  let i0 := @List P testCollection None in
  @paged P (Iterator_client i0) 10 (next i0) [] 0
  /\ ceil_div 0 10 = 0%nat
  /\ fst (@iterate P 1 i0 emptyWorld)
     = Some ([], set_done (set_page i0 "" []) true)
  /\ fetches (snd (@iterate P 1 i0 emptyWorld)) = 1%nat
  /\ fetches (snd (@Next_times P 5 i0 emptyWorld)) = 1%nat.
Proof.
  cbv zeta. split.
  - apply (@paged_last
             (mockPlatform (always (mkResponse "200 OK" 200 ∅ "empty"))
                emptyListingPages) testClient 10 "c" emptyPage).
    + reflexivity.
    + reflexivity.
    + cbn. lia.
  - repeat split.
Qed.

(** The other listing with an empty last page: two items, two to a page,
    on a full page that names a next page, which comes back empty. The
    two items cost two requests, one more than [ceil (2 / 2)]. *)
Example full_page_then_empty_page_costs_two_fetches :
  let P := mockPlatform threeItems fullThenEmptyPages in
  let i0 := @List P testCollection (Some (mkListQuery 2 "" "" "" "")) in
  @paged P (Iterator_client i0) 2 (next i0) [testItem "k1"; testItem "k2"] 0
  /\ ceil_div 2 2 = 1%nat
  /\ pages_served 2 2 0 = 2%nat
  /\ fst (fst (@Next_times P 3 i0 emptyWorld)) = [true; true; false]
  /\ fetches (snd (@Next_times P 3 i0 emptyWorld)) = 2%nat.
Proof.
  cbv zeta. split.
  - apply (@paged_more (mockPlatform threeItems fullThenEmptyPages)
             testClient 2 "c?limit=2" fullPage [] 0).
    + reflexivity.
    + reflexivity.
    + discriminate.
    + apply (@paged_last (mockPlatform threeItems fullThenEmptyPages)
               testClient 2 "c?limit=2&offset=2" emptyPage).
      * reflexivity.
      * reflexivity.
      * cbn. lia.
  - repeat split.
Qed.

(** ** Timestamps on the wire *)

Lemma wrap64_id (z : Z) : MinInt64 <= z <= MaxInt64 -> wrap64 z = z.
Proof.
  unfold wrap64, MinInt64, MaxInt64. intros Hz.
  rewrite Z.mod_small; lia.
Qed.

Lemma wrap64_range (z : Z) : MinInt64 <= wrap64 z <= MaxInt64.
Proof.
  unfold wrap64, MinInt64, MaxInt64.
  pose proof (Z.mod_pos_bound (z + 2 ^ 63) (2 ^ 64) ltac:(lia)). lia.
Qed.

(** Rebuilding a time from [ms] milliseconds gives the instant
    [ms * 1e6] nanoseconds from the epoch, before it as well as after. *)
Lemma decodeTimestamp_instant (ms : Z) :
  MinInt64 <= ms * 1000000 <= MaxInt64 ->
  decodeTimestamp ms = at_unix_nanos (ms * 1000000).
Proof.
  unfold MinInt64, MaxInt64. intros Hms.
  unfold decodeTimestamp, at_unix_nanos, Unix.
  assert (Hqr : ms = 1000 * Z.quot ms 1000 + Z.rem ms 1000
                /\ -1000 < Z.rem ms 1000 < 1000
                /\ (0 <= ms -> 0 <= Z.rem ms 1000)
                /\ (ms <= 0 -> Z.rem ms 1000 <= 0))
    by (Z.to_euclidean_division_equations; lia).
  destruct Hqr as (Hqr & Hr & Hsign).
  set (q := Z.quot ms 1000) in *. set (r := Z.rem ms 1000) in *.
  rewrite (wrap64_id (r * 1000000)) by (unfold MinInt64, MaxInt64; lia).
  assert (Hq : -9223372036854776 <= q <= 9223372036854776) by lia.
  destruct (Z.ltb_spec (r * 1000000) 0) as [Hneg|Hpos].
  - cbn [orb].
    assert (Hq0 : Z.quot (r * 1000000) 1000000000 = 0).
    { clear - Hr Hneg. Z.to_euclidean_division_equations. lia. }
    rewrite Hq0. rewrite Z.add_0_r. rewrite Z.mul_0_l.
    rewrite (wrap64_id q) by (unfold MinInt64, MaxInt64; lia).
    rewrite (wrap64_id 0) by (unfold MinInt64, MaxInt64; lia).
    rewrite Z.sub_0_r.
    rewrite (wrap64_id (r * 1000000)) by (unfold MinInt64, MaxInt64; lia).
    destruct (Z.ltb_spec (r * 1000000) 0); [|lia].
    rewrite (wrap64_id (q - 1)) by (unfold MinInt64, MaxInt64; lia).
    rewrite (wrap64_id (r * 1000000 + 1000000000))
      by (unfold MinInt64, MaxInt64; lia).
    rewrite (wrap64_id (q - 1 + unixToInternal))
      by (unfold MinInt64, MaxInt64, unixToInternal; lia).
    clear Hq0. f_equal; Z.to_euclidean_division_equations; lia.
  - destruct (Z.leb_spec 1000000000 (r * 1000000)); [lia|]. cbn [orb].
    rewrite (wrap64_id (q + unixToInternal))
      by (unfold MinInt64, MaxInt64, unixToInternal; lia).
    f_equal; Z.to_euclidean_division_equations; lia.
Qed.

(** The nanosecond count of an instant that fits [int64]. *)
Lemma UnixNano_instant (n : Z) :
  MinInt64 <= n <= MaxInt64 -> UnixNano (at_unix_nanos n) = n.
Proof.
  intros Hn. unfold UnixNano, at_unix_nanos, internalToUnix. cbn [sec nsec].
  replace ((unixToInternal + n / 1000000000 + - unixToInternal) * 1000000000
           + n mod 1000000000) with n.
  - apply wrap64_id. exact Hn.
  - pose proof (Z.div_mod n 1000000000 ltac:(lia)). lia.
Qed.

(** A wire timestamp times 1e6 never leaves [int64]. *)
Lemma encodeTimestamp_range (t : Time) :
  MinInt64 <= encodeTimestamp t * 1000000 <= MaxInt64.
Proof.
  unfold encodeTimestamp.
  pose proof (wrap64_range ((sec t + internalToUnix) * 1000000000 + nsec t))
    as Hu. fold (UnixNano t) in Hu.
  set (u := UnixNano t) in *.
  assert (Hq : (0 <= u -> 0 <= Z.quot u 1000000 * 1000000 <= u)
               /\ (u <= 0 -> u <= Z.quot u 1000000 * 1000000 <= 0))
    by (Z.to_euclidean_division_equations; lia).
  unfold MinInt64, MaxInt64 in *. lia.
Qed.

(** A second trip changes nothing, whatever the time. *)
Lemma roundtrip_idempotent (t : Time) : roundtrip (roundtrip t) = roundtrip t.
Proof.
  unfold roundtrip at 1 3. 
  pose proof (encodeTimestamp_range t) as Hr.
  set (ms := encodeTimestamp t) in *.
  unfold roundtrip. fold ms.
  rewrite (decodeTimestamp_instant ms Hr).
  unfold encodeTimestamp. rewrite (UnixNano_instant _ Hr).
  rewrite Z.quot_mul by lia.
  apply decodeTimestamp_instant. exact Hr.
Qed.

(** C8, as amended. Timestamps go on the wire as [UnixNano()/1000000] and
    come back as [time.Unix(ms/1000, (ms%1000)*1000000)]. For every time
    whose nanosecond count fits [int64] and that is not before the Unix
    epoch, or is a whole number of milliseconds, the trip yields the time
    truncated to millisecond precision; and for every time whatever a
    second trip changes nothing. *)
Theorem timestamp_roundtrip (t : Time) :
  0 <= nsec t < 1000000000 ->
  MinInt64 <= (sec t + internalToUnix) * 1000000000 + nsec t <= MaxInt64 ->
  unixToInternal <= sec t \/ nsec t mod 1000000 = 0 ->
  roundtrip t = truncated_to_ms t
  /\ (forall t' : Time, roundtrip (roundtrip t') = roundtrip t').
Proof.
  intros Hn Hu Hcase. split; [|exact roundtrip_idempotent].
  unfold roundtrip.
  rewrite (decodeTimestamp_instant _ (encodeTimestamp_range t)).
  unfold encodeTimestamp, UnixNano. rewrite (wrap64_id _ Hu).
  unfold truncated_to_ms, at_unix_nanos, internalToUnix in *.
  set (s := sec t) in *. set (n := nsec t) in *.
  set (u := (s + - unixToInternal) * 1000000000 + n) in *.
  pose proof (Z.quot_rem' u 1000000) as Hqr.
  pose proof (Z.div_mod n 1000000 ltac:(lia)) as Hdm.
  pose proof (Z.mod_pos_bound n 1000000 ltac:(lia)) as Hmb.
  assert (Hq : Z.quot u 1000000 * 1000000 = u - n mod 1000000).
  { assert (Hrem : Z.rem u 1000000 = n mod 1000000); [|lia].
    destruct Hcase as [Hpos | Hwhole].
    - rewrite Z.rem_mod_nonneg by (unfold u; lia).
      unfold u.
      replace ((s + - unixToInternal) * 1000000000 + n)
        with (n + ((s + - unixToInternal) * 1000) * 1000000) by lia.
      apply Z.mod_add. lia.
    - rewrite Hwhole.
      assert (Hdiv : u = (((s + - unixToInternal) * 1000) + n / 1000000)
                         * 1000000) by (unfold u; lia).
      rewrite Hdiv. apply Z.rem_mul. lia. }
  rewrite Hq. unfold u.
  f_equal; Z.to_euclidean_division_equations; lia.
Qed.

(** A time of today: 1.7e9 seconds after the epoch, with nanoseconds. *)
Lemma timestamp_roundtrip_witness :
  let t := mkTime (unixToInternal + 1700000000) 123456789 in
  roundtrip t = mkTime (unixToInternal + 1700000000) 123000000
  /\ roundtrip (roundtrip t) = roundtrip t.
Proof.
  intros t.
  destruct (timestamp_roundtrip t) as [T1 T2].
  - cbv [t sec nsec]. lia.
  - cbv [t sec nsec internalToUnix unixToInternal MinInt64 MaxInt64]. lia.
  - left. cbv [t sec]. lia.
  - split; [rewrite T1; reflexivity | apply T2].
Defined.

(** C8 as stated fails before the epoch. One nanosecond before 1970 the
    wire form is 0, Go's division truncating toward zero, and the time
    that comes back is the epoch itself, which is later than the time sent
    and is not that time with its sub-millisecond digits dropped. *)
Lemma roundtrip_before_epoch :
  let t := mkTime (unixToInternal - 1) 999999999 in
  Time_valid t
  /\ UnixNano t = -1
  /\ encodeTimestamp t = 0
  /\ roundtrip t = mkTime unixToInternal 0
  /\ truncated_to_ms t = mkTime (unixToInternal - 1) 999000000
  /\ roundtrip t <> truncated_to_ms t.
Proof.
  cbv zeta. split; [|split; [|split; [|split; [|split]]]].
  - unfold Time_valid, MinInt64, MaxInt64, unixToInternal. cbn [sec nsec]. lia.
  - reflexivity.
  - reflexivity.
  - reflexivity.
  - reflexivity.
  - discriminate.
Qed.

(** The zero [time.Time{}] is out of [UnixNano]'s range: it does not
    come back either. *)
Example roundtrip_zero_time : roundtrip defaultTime <> defaultTime.
Proof. discriminate. Qed.

(** ** Reply headers *)

Lemma substring_all (s : string) : String.substring 0 (String.length s) s = s.
Proof. induction s as [|c s IH]; cbn; [|rewrite IH]; reflexivity. Qed.

(** The slice the code takes after the last ['/'] is the substring after
    the last ['/']. *)
Lemma slice_after_LastIndex_from (s : string) (pos : Z) :
  0 <= pos ->
  has_slash s = true ->
  String.substring (Z.to_nat (LastIndex_from pos s "/" - pos + 1))
    (Z.to_nat (len s - (LastIndex_from pos s "/" - pos + 1))) s
  = after_last_slash s.
Proof.
  revert pos. induction s as [|c s IH]; intros pos Hpos Hs; [discriminate|].
  cbn [LastIndex_from has_slash after_last_slash] in *.
  rewrite String_prefix_slash, len_String.
  pose proof (len_nonneg s) as Hnn.
  destruct (LastIndex_from_slash s (pos + 1)) as [[Hs' Hr] | [Hs' Hr]]; [lia| |].
  - rewrite Hr, Hs'. rewrite Hs', orb_false_r in Hs. rewrite Hs.
    replace (0 <=? -1) with false by reflexivity.
    replace (Z.to_nat (pos - pos + 1)) with 1%nat by lia.
    replace (Z.to_nat (1 + len s - (pos - pos + 1))) with (String.length s)
      by (unfold len; lia).
    cbn [String.substring]. apply substring_all.
  - rewrite Hs'.
    replace (0 <=? LastIndex_from (pos + 1) s "/") with true
      by (symmetry; apply Z.leb_le; lia).
    rewrite <- (IH (pos + 1)) by (try lia; assumption).
    set (r := LastIndex_from (pos + 1) s "/") in *.
    replace (Z.to_nat (r - pos + 1)) with (S (Z.to_nat (r - (pos + 1) + 1)))
      by lia.
    cbn [String.substring]. f_equal. lia.
Qed.

Lemma slice_after_last_slash (s : string) :
  has_slash s = true ->
  slice s (LastIndex s "/" + 1) (len s) = after_last_slash s.
Proof.
  intros Hs. unfold slice, LastIndex.
  rewrite <- (slice_after_LastIndex_from s 0) by (try lia; assumption).
  f_equal; f_equal; lia.
Qed.

Section Headers.
Context `{Platform} {V : Type} `{JSONMarshaler V}.

(** [innerPut] on the expected status: an error and no item when the
    Location header has no ['/'], the item with its ref otherwise. *)
Lemma innerPut_201 (c : Collection) (key : string)
    (headers : gmap string string) (value : V) (raw : string)
    (resp : Response) (w : World) :
  Marshal value = inr raw ->
  answered (client c) "PUT" (Name c +:+ "/" +:+ key) headers (Some raw)
    resp 201 ->
  fst (innerPut c key headers value w)
  = if has_slash (Header_Get (RespHeader resp) "Location") then
      (Some (mkItem c 0%N key
               (after_last_slash (Header_Get (RespHeader resp) "Location"))
               0%N false defaultTime raw), None)
    else (None, Some (errorString "Missing Location header.")).
Proof.
  intros Hm [Ha Hs]. unfold innerPut. rewrite Hm. unfold bind at 1.
  rewrite (emptyReply_match _ _ _ _ _ _ _ _ Ha Hs).
  set (loc := Header_Get (RespHeader resp) "Location").
  destruct (has_slash loc) eqn:Hsl.
  - rewrite bool_decide_false.
    + unfold ret, Item_with_Ref. cbn.
      rewrite slice_after_last_slash by assumption. reflexivity.
    + intros E. apply LastIndex_slash_none in E. congruence.
  - rewrite bool_decide_true by (apply LastIndex_slash_none; assumption).
    reflexivity.
Qed.

(** The event headers: any detected fault gives an error and no event. *)
Lemma parseEventHeaders_fault (resp : Response) (event : Event) :
  event_location_fault (Header_Get (RespHeader resp) "Location")
  \/ etag_fault (Header_Get (RespHeader resp) "Etag") ->
  exists msg, parseEventHeaders resp event = (None, Some (errorString msg)).
Proof.
  intros Hf. unfold parseEventHeaders.
  set (loc := Header_Get (RespHeader resp) "Location") in *.
  set (etag := Header_Get (RespHeader resp) "Etag") in *.
  case_bool_decide as Hloc; [eauto|].
  case_bool_decide as Hlen; cbn [negb]; [|eauto].
  destruct (ParseInt (part (Split loc "/") 6)) as [ts|] eqn:Hts; [|eauto].
  destruct (ParseInt (part (Split loc "/") 7)) as [ord|] eqn:Hord; [|eauto].
  case_bool_decide as Hetag; [eauto|].
  case_bool_decide as Helen; cbn [negb]; [|eauto].
  exfalso. destruct Hf as [[? | [? | [? | ?]]] | [? | ?]]; congruence.
Qed.

(** Without a detected fault the event comes back whole. *)
Lemma parseEventHeaders_ok (resp : Response) (event : Event) :
  ~ (event_location_fault (Header_Get (RespHeader resp) "Location")
     \/ etag_fault (Header_Get (RespHeader resp) "Etag")) ->
  exists e, parseEventHeaders resp event = (Some e, None).
Proof.
  intros Hf. unfold parseEventHeaders, event_location_fault, etag_fault in *.
  set (loc := Header_Get (RespHeader resp) "Location") in *.
  set (etag := Header_Get (RespHeader resp) "Etag") in *.
  case_bool_decide as Hloc; [tauto|].
  case_bool_decide as Hlen; cbn [negb]; [|tauto].
  destruct (ParseInt (part (Split loc "/") 6)) as [ts|] eqn:Hts; [|tauto].
  destruct (ParseInt (part (Split loc "/") 7)) as [ord|] eqn:Hord; [|tauto].
  case_bool_decide as Hetag; [tauto|].
  case_bool_decide as Helen; cbn [negb]; [eauto|tauto].
Qed.

(** C5, as amended. A mutating call (Create, Update, AddEvent,
    AddEventWithTimestamp, UpdateEvent) that receives its expected
    success status returns an error and a nil entity, never a partly
    filled Item or Event, whenever the reply has a header fault the code
    detects: for Create and Update a Location header that is missing or
    has no ['/']; for the event calls a Location header that is missing,
    does not split at ['/'] into exactly eight segments, or whose seventh
    or eighth segment is not a decimal [int64], or an Etag header that is
    missing or does not split at double quotes into exactly three
    parts. *)
Theorem header_fault_returns_nil (c : Collection) (m : MutatingCall)
    (value : V) (raw : string) (resp : Response) (w : World) :
  Marshal value = inr raw ->
  call_answered c m raw resp ->
  detected_fault m resp ->
  exists msg, fst (call c m value w) = (None, Some (errorString msg)).
Proof.
  intros Hm Ha Hf.
  destruct m as [key | key | key typ | key typ ts | key typ ts ordinal];
    cbn [call call_answered detected_fault] in *.
  - unfold bind, Create.
    pose proof (innerPut_201 c key _ value raw resp w Hm Ha) as E.
    rewrite Hf in E. unfold bind.
    destruct (innerPut c key _ value w) as [[item err] w']. cbn in E.
    inversion E; subst. cbn. eauto.
  - unfold bind, Update.
    pose proof (innerPut_201 c key _ value raw resp w Hm Ha) as E.
    rewrite Hf in E.
    destruct (innerPut c key _ value w) as [[item err] w']. cbn in E.
    inversion E; subst. cbn. eauto.
  - destruct Ha as [Ha Hs].
    unfold bind, AddEvent, innerAddEvent. rewrite Hm. unfold bind.
    rewrite (emptyReply_match _ _ _ _ _ _ _ _ Ha Hs). unfold ret.
    destruct (parseEventHeaders_fault resp
                (mkEvent c key 0 "" defaultTime typ raw) Hf) as [msg ->].
    cbn. eauto.
  - destruct Ha as [Ha Hs].
    unfold bind, AddEventWithTimestamp, innerAddEvent. rewrite Hm. unfold bind.
    rewrite (emptyReply_match _ _ _ _ _ _ _ _ Ha Hs). unfold ret.
    destruct (parseEventHeaders_fault resp
                (mkEvent c key 0 "" defaultTime typ raw) Hf) as [msg ->].
    cbn. eauto.
  - destruct Ha as [Ha Hs].
    unfold bind, UpdateEvent, innerUpdateEvent. rewrite Hm. unfold bind.
    rewrite (emptyReply_match _ _ _ _ _ _ _ _ Ha Hs). unfold ret.
    destruct (parseEventHeaders_fault resp
                (mkEvent c key ordinal "" ts typ raw) Hf) as [msg ->].
    cbn. eauto.
Qed.

End Headers.

(** A 201 with its Location header stripped, the fault of the test of
    [innerPut]; and an event reply whose Etag has lost its quotes. *)
Lemma header_fault_returns_nil_witness :
  let P := mockPlatform (always (mkResponse "201 Created" 201 ∅ "")) noPages in
  let Q := mockPlatform
             (always (mkResponse "201 Created" 201
                        {[ "Location" := ["/v0/c/k/events/t/1400000000000/7"];
                           "Etag" := ["r1"] ]} "")) noPages in
  (exists msg,
     fst (@call P string mockMarshaler testCollection (CallCreate "k") "{}"
            emptyWorld) = (None, Some (errorString msg)))
  /\ (exists msg,
        fst (@call Q string mockMarshaler testCollection
               (CallAddEvent "k" "t") "{}" emptyWorld)
        = (None, Some (errorString msg))).
Proof.
  intros P Q. split.
  - apply (@header_fault_returns_nil P string mockMarshaler testCollection
             (CallCreate "k") "{}" "{}" (mkResponse "201 Created" 201 ∅ "")
             emptyWorld).
    + reflexivity.
    + split; reflexivity.
    + reflexivity.
  - apply (@header_fault_returns_nil Q string mockMarshaler testCollection
             (CallAddEvent "k" "t") "{}" "{}"
             (mkResponse "201 Created" 201
                {[ "Location" := ["/v0/c/k/events/t/1400000000000/7"];
                   "Etag" := ["r1"] ]} "")
             emptyWorld).
    + reflexivity.
    + split; reflexivity.
    + right. right. vm_compute. lia.
Defined.

(** C5 as stated fails. The Location header ["/"] is not of the
    specification's form [.../refs/<ref>], yet it has a ['/']: [Create]
    and [Update] report no error and return an Item whose ref is
    empty. *)
Lemma malformed_location_accepted :
  let P := mockPlatform
             (always (mkResponse "201 Created" 201
                        {[ "Location" := ["/"] ]} "")) noPages in
  refs_grammar "/" = false
  /\ fst (@Create P string mockMarshaler testCollection "k" "{}" emptyWorld)
     = (Some (mkItem testCollection 0%N "k" "" 0%N false defaultTime "{}"),
        None)
  /\ fst (@Update P string mockMarshaler testCollection "k" "{}" emptyWorld)
     = (Some (mkItem testCollection 0%N "k" "" 0%N false defaultTime "{}"),
        None).
Proof. cbv zeta. repeat split. Qed.

Example refs_grammar_ex : refs_grammar "/v0/c/k/refs/r1" = true.
Proof. reflexivity. Qed.

(** ** Get and GetRef *)

(** C7, as amended. On a 200 response whose body decodes, [Get(key,
    value)] is [GetRef(key, "", value)]; with no ref requested the
    returned Item's ref is the substring after the last ['/'] of the
    Content-Location header, and the call fails, returning a nil Item and
    an error, when that header is absent or has no ['/']; with a ref
    requested the returned Item's ref is that ref, whatever the
    headers. *)
Theorem GetRef_ref `{Platform} {D} `{JSONUnmarshaler D} (c : Collection)
    (key ref : string) (value : option D) (resp : Response)
    (raw : RawMessage) (w : World) :
  fst (jsonReply (client c) "GET"
         (if bool_decide (ref = "") then Name c +:+ "/" +:+ key
          else Name c +:+ "/" +:+ key +:+ "/refs/" +:+ ref)
         None 200 Decode_RawMessage emptyWorld)
  = inr (resp, raw) ->
  let loc := Header_Get (RespHeader resp) "Content-Location" in
  let r := fst (GetRef c key ref value w) in
  Get c key value = GetRef c key "" value
  /\ if bool_decide (ref = "") then
       if has_slash loc then
         fst r = Some (mkItem c 0%N key (after_last_slash loc) 0%N false
                         defaultTime raw)
       else r = (None, Some (errorString "Missing Content-Location header."))
     else
       fst r = Some (mkItem c 0%N key ref 0%N false defaultTime raw).
Proof.
  intros Hj loc r. split; [reflexivity|].
  subst r. unfold GetRef, bind.
  pose proof (jsonReply_world (client c) "GET"
                (if bool_decide (ref = "") then Name c +:+ "/" +:+ key
                 else Name c +:+ "/" +:+ key +:+ "/refs/" +:+ ref)
                None 200 Decode_RawMessage w) as [Hw _].
  rewrite Hj in Hw.
  destruct (jsonReply _ _ _ _ _ _ w) as [res w'] eqn:Hres.
  cbn [fst] in Hw. subst res.
  case_bool_decide as Href.
  - fold loc. destruct (has_slash loc) eqn:Hsl.
    + case_bool_decide as E;
        [apply LastIndex_slash_none in E; congruence|].
      unfold Item_with_Ref. cbn.
      rewrite slice_after_last_slash by assumption.
      destruct value; reflexivity.
    + case_bool_decide as E; [reflexivity|].
      exfalso. apply E. apply LastIndex_slash_none. assumption.
  - unfold Item_with_Ref. destruct value; reflexivity.
Qed.

(** A 200 with a Content-Location of the usual form. *)
Lemma GetRef_ref_witness :
  let P := mockPlatform
             (always (mkResponse "200 OK" 200
                        {[ "Content-Location" := ["/v0/c/k/refs/r1"] ]}
                        "{}")) noPages in
  fst (fst (@Get P unit mockUnmarshaler testCollection "k" None emptyWorld))
  = Some (mkItem testCollection 0%N "k" "r1" 0%N false defaultTime "{}").
Proof.
  intros P.
  destruct (@GetRef_ref P unit mockUnmarshaler testCollection "k" "" None
              (mkResponse "200 OK" 200
                 {[ "Content-Location" := ["/v0/c/k/refs/r1"] ]} "{}")
              "{}" emptyWorld) as [T1 T2].
  - reflexivity.
  - rewrite T1. exact T2.
Defined.

(** C7 as stated fails. The Content-Location header ["/"] is not of the
    specification's form [.../refs/<ref>], yet [Get] does not fail: it
    returns an Item whose ref is empty, and no error. *)
Lemma malformed_content_location_accepted :
  let P := mockPlatform
             (always (mkResponse "200 OK" 200
                        {[ "Content-Location" := ["/"] ]} "{}")) noPages in
  refs_grammar "/" = false
  /\ @Get P unit mockUnmarshaler testCollection "k" None emptyWorld
     = @GetRef P unit mockUnmarshaler testCollection "k" "" None emptyWorld
  /\ fst (@Get P unit mockUnmarshaler testCollection "k" None emptyWorld)
     = (Some (mkItem testCollection 0%N "k" "" 0%N false defaultTime "{}"),
        None).
Proof. cbv zeta. repeat split. Qed.

(** ** Further properties of the iterator and of the mutating calls *)

(** X1. A call of [Next] sends at most one request, whatever the state
    of the iterator and the answer of the server. *)
Theorem Next_at_most_one_fetch `{Platform} (i : Iterator) (w : World) :
  (fetches w <= fetches (snd (Next i w)) <= S (fetches w))%nat.
Proof.
  unfold Next.
  destruct (done i); [cbn; lia|].
  destruct (bool_decide (Error i <> None)); [cbn; lia|].
  destruct (index i <? Z.of_nat (length (results i)) - 1); [cbn; lia|].
  destruct (bool_decide (next i = "")); [cbn; lia|].
  unfold bind.
  pose proof (jsonReply_world (Iterator_client i) "GET" (next i) None 200
                Decode_jsonList w) as [_ Hle].
  assert (Hge : (fetches w
                 <= fetches (snd (jsonReply (Iterator_client i) "GET" (next i)
                                    None 200 Decode_jsonList w)))%nat).
  { unfold jsonReply, doRequest, fetches. unfold_M.
    destruct (NewRequest_error _ _); cbn; [lia|].
    destruct (Do _); cbn; [lia|].
    repeat (split_match; cbn); lia. }
  destruct (jsonReply _ _ _ _ _ _ w) as [[err | [resp page]] w']; cbn in *.
  - lia.
  - destruct (bool_decide (length (Results page) = 0%nat)); cbn; lia.
Qed.

Ltac all_or_nothing :=
  first [ left; eexists; reflexivity | right; eexists; reflexivity ].

Section AllOrNothing.
Context `{Platform} {V : Type} `{JSONMarshaler V}.

Lemma innerPut_all_or_nothing (c : Collection) (key : string)
    (headers : gmap string string) (value : V) (w : World) :
  (exists err, fst (innerPut c key headers value w) = (None, Some err))
  \/ (exists x, fst (innerPut c key headers value w) = (Some x, None)).
Proof.
  unfold innerPut. destruct (Marshal value); [all_or_nothing|].
  unfold bind. destruct (emptyReply _ _ _ _ _ _ w) as [[err|resp] w'].
  - all_or_nothing.
  - case_bool_decide; all_or_nothing.
Qed.

Lemma parseEventHeaders_all_or_nothing (resp : Response) (event : Event) :
  (exists err, parseEventHeaders resp event = (None, Some err))
  \/ (exists x, parseEventHeaders resp event = (Some x, None)).
Proof.
  unfold parseEventHeaders.
  repeat (split_match; cbn; try solve [all_or_nothing]).
Qed.

Lemma entity_result_all_or_nothing {A} (wrap : A -> Entity) (r : result A) :
  (exists err, r = (None, Some err)) \/ (exists x, r = (Some x, None)) ->
  (exists err, entity_result wrap r = (None, Some err))
  \/ (exists x, entity_result wrap r = (Some x, None)).
Proof. intros [[err ->] | [x ->]]; all_or_nothing. Qed.

End AllOrNothing.

(** X2. Whatever the value, the server and its reply, a mutating call
    returns either a nil entity with an error or an entity with a nil
    error: never an entity together with an error, never neither. *)
Theorem call_all_or_nothing `{Platform} {V} `{JSONMarshaler V}
    (c : Collection) (m : MutatingCall) (value : V) (w : World) :
  (exists err, fst (call c m value w) = (None, Some err))
  \/ (exists x, fst (call c m value w) = (Some x, None)).
Proof.
  destruct m as [key | key | key typ | key typ ts | key typ ts ordinal];
    cbn [call]; unfold bind.
  - destruct (Create c key value w) as [r w'] eqn:E. cbn [fst ret].
    apply entity_result_all_or_nothing.
    unfold Create, bind in E.
    pose proof (innerPut_all_or_nothing c key
                  {[ "If-None-Match" := dquote +:+ "*" +:+ dquote ]} value w)
      as Hp.
    destruct (innerPut c key _ value w) as [[item err] w1].
    cbn [fst] in Hp.
    destruct Hp as [[e Hp] | [x Hp]]; inversion Hp; subst.
    + destruct e; inversion E; all_or_nothing.
    + inversion E. all_or_nothing.
  - destruct (Update c key value w) as [r w'] eqn:E. cbn [fst ret].
    apply entity_result_all_or_nothing.
    pose proof (innerPut_all_or_nothing c key ∅ value w) as Hp.
    unfold Update in E. rewrite E in Hp. exact Hp.
  - unfold AddEvent, innerAddEvent.
    destruct (Marshal value); [all_or_nothing|]. unfold bind.
    destruct (emptyReply _ _ _ _ _ _ w) as [[err|resp] w'];
      [all_or_nothing|].
    cbn [fst ret]. apply entity_result_all_or_nothing.
    apply parseEventHeaders_all_or_nothing.
  - unfold AddEventWithTimestamp, innerAddEvent.
    destruct (Marshal value); [all_or_nothing|]. unfold bind.
    destruct (emptyReply _ _ _ _ _ _ w) as [[err|resp] w'];
      [all_or_nothing|].
    cbn [fst ret]. apply entity_result_all_or_nothing.
    apply parseEventHeaders_all_or_nothing.
  - unfold UpdateEvent, innerUpdateEvent.
    destruct (Marshal value); [all_or_nothing|]. unfold bind.
    destruct (emptyReply _ _ _ _ _ _ w) as [[err|resp] w'];
      [all_or_nothing|].
    cbn [fst ret]. apply entity_result_all_or_nothing.
    apply parseEventHeaders_all_or_nothing.
Qed.

(** X3. A fetch that fails, in the transport, on the status or in the
    decoding, makes [Next] return false and stores the error in [Error],
    with page, index and next link as they were; by the absorbing states
    the error then stays. *)
Theorem Next_fetch_failure_is_stored `{Platform} (i : Iterator) (w : World)
    (err : error) :
  live i ->
  Z.of_nat (length (results i)) - 1 <= index i ->
  next i <> "" ->
  fst (jsonReply (Iterator_client i) "GET" (next i) None 200 Decode_jsonList
         emptyWorld) = inl err ->
  fst (Next i w) = (false, set_Error i (Some err))
  /\ fst (Next (set_Error i (Some err)) (snd (Next i w)))
     = (false, set_Error i (Some err)).
Proof.
  intros Hl Hi Hn Hj. 
  assert (E : fst (Next i w) = (false, set_Error i (Some err))).
  { rewrite (Next_live_unfold i Hl).
    replace (index i <? Z.of_nat (length (results i)) - 1) with false
      by (symmetry; apply Z.ltb_ge; lia).
    rewrite bool_decide_false by assumption. unfold bind.
    pose proof (jsonReply_world (Iterator_client i) "GET" (next i) None 200
                  Decode_jsonList w) as [Hw _].
    rewrite Hj in Hw.
    destruct (jsonReply _ _ _ _ _ _ w) as [res w']. cbn [fst] in Hw.
    subst res. reflexivity. }
  split; [exact E|].
  rewrite Next_absorbing; [reflexivity|]. right. discriminate.
Qed.

(** The fourth false condition of the iterator test: the host cannot be
    dialled. *)
Lemma Next_fetch_failure_is_stored_witness :
  let P := mockPlatform
             (fun _ => inl (errorString "dial tcp: invalid port 100000"))
             noPages in
  let i := @List P testCollection None in
  fst (@Next P i emptyWorld)
  = (false,
     set_Error i (Some (errorString "dial tcp: invalid port 100000"))).
Proof.
  intros P i.
  apply (@Next_fetch_failure_is_stored P i emptyWorld
           (errorString "dial tcp: invalid port 100000")).
  - split; reflexivity.
  - cbn. lia.
  - discriminate.
  - reflexivity.
Defined.

(** ** The calls that return only an error *)

Section ErrorCalls.
Context `{Platform}.

(** What [emptyReply] returns and sends once [http.NewRequest] has
    accepted the request. *)
Lemma emptyReply_accepted (c : Client) (method path : string)
    (headers : gmap string string) (body : option string) (status : Z)
    (w : World) :
  NewRequest_error method (URL (buildRequest c method path headers body))
    = None ->
  fst (emptyReply c method path headers body status w)
  = match Do (buildRequest c method path headers body) with
    | inl err => inl err
    | inr resp =>
        if bool_decide (StatusCode resp = status) then inr resp
        else inl (fst (newError resp))
    end
  /\ sent (snd (emptyReply c method path headers body status w))
     = buildRequest c method path headers body :: sent w.
Proof.
  intros Hn. unfold emptyReply, doRequest. rewrite Hn. unfold_M. cbn.
  destruct (Do _) as [err|resp]; cbn; [split; reflexivity|].
  case_bool_decide; cbn; [split; reflexivity|].
  destruct (newError resp); cbn. split; reflexivity.
Qed.

(** Each of the calls is [emptyReply] on its own method, path and
    status, with no headers and no body, the response dropped. *)
Lemma error_call_emptyReply (cl : Client) (m : ErrorCall) (w : World) :
  error_call cl m w
  = (error_of
       (fst (emptyReply (error_call_client cl m) (error_call_method m)
               (error_call_path m) ∅ None (error_call_status m) w)),
     snd (emptyReply (error_call_client cl m) (error_call_method m)
            (error_call_path m) ∅ None (error_call_status m) w)).
Proof.
  destruct m; cbn;
    unfold Ping, Delete, Purge, Link, Unlink, DeleteEvent, bind, ret;
    match goal with |- context [emptyReply ?a ?b ?c ?d ?e ?f ?g] =>
      destruct (emptyReply a b c d e f g) as [[err|resp] w'] end;
    reflexivity.
Qed.

End ErrorCalls.

(** X4. [Ping], [Delete], [Purge], [Link], [Unlink] and [DeleteEvent]
    send exactly one request (no headers of their own, no body) once
    [http.NewRequest] has accepted it, and return nil exactly when the
    server answered with the one status the call expects: 200 for
    [Ping], 204 for the others. Otherwise the error is the transport's,
    or the one [newError] makes of the response. *)
Theorem error_call_nil_iff_expected_status `{Platform} (cl : Client)
    (m : ErrorCall) (w : World) :
  NewRequest_error (error_call_method m)
    (URL (buildRequest (error_call_client cl m) (error_call_method m)
            (error_call_path m) ∅ None)) = None ->
  sent (snd (error_call cl m w))
  = buildRequest (error_call_client cl m) (error_call_method m)
      (error_call_path m) ∅ None :: sent w
  /\ (fst (error_call cl m w) = None
      <-> exists resp,
            Do (buildRequest (error_call_client cl m) (error_call_method m)
                  (error_call_path m) ∅ None) = inr resp
            /\ StatusCode resp = error_call_status m)
  /\ (forall resp,
        Do (buildRequest (error_call_client cl m) (error_call_method m)
              (error_call_path m) ∅ None) = inr resp ->
        StatusCode resp <> error_call_status m ->
        fst (error_call cl m w) = Some (fst (newError resp)))
  /\ (forall err,
        Do (buildRequest (error_call_client cl m) (error_call_method m)
              (error_call_path m) ∅ None) = inl err ->
        fst (error_call cl m w) = Some err).
Proof.
  intros Hn. rewrite error_call_emptyReply. cbn [fst snd].
  destruct (emptyReply_accepted _ _ _ ∅ None (error_call_status m) w Hn)
    as [-> ->].
  split; [reflexivity|].
  destruct (Do _) as [err|resp]; cbn.
  - split; [|split].
    + split; [discriminate|]. intros (resp & E & _). discriminate.
    + intros resp E. discriminate.
    + intros err' E. congruence.
  - split; [|split].
    + case_bool_decide as E; cbn.
      * split; [|reflexivity]. intros _. eauto.
      * split; [discriminate|]. intros (resp' & E' & Hs). congruence.
    + intros resp' E Hs. injection E as <-.
      rewrite bool_decide_false by assumption. reflexivity.
    + intros err E. discriminate.
Qed.

(** A server that answers 204 to everything: the deletes and the links
    succeed, and [Ping], which wants 200, fails. *)
Lemma error_call_nil_iff_expected_status_witness :
  let P := mockPlatform (always (mkResponse "204 No Content" 204 ∅ ""))
             noPages in
  fst (@error_call P testClient (CallPurge testCollection "k") emptyWorld)
    = None
  /\ fst (@error_call P testClient CallPing emptyWorld)
     = Some (UnknownError "204 No Content" 204 "").
Proof.
  intros P. split.
  - apply (@error_call_nil_iff_expected_status P testClient
             (CallPurge testCollection "k") emptyWorld eq_refl).
    eexists. split; reflexivity.
  - apply (proj1 (proj2 (proj2
             (@error_call_nil_iff_expected_status P testClient CallPing
                emptyWorld eq_refl)))
             (mkResponse "204 No Content" 204 ∅ "") eq_refl).
    cbn. lia.
Defined.

(** ** The conditional calls on an unexpected status *)

Section Conditional.
Context `{Platform} {V : Type} `{JSONMarshaler V}.

(** [innerPut] on a status other than 201. *)
Lemma innerPut_mismatch (c : Collection) (key : string)
    (headers : gmap string string) (value : V) (raw : string)
    (resp : Response) (w : World) :
  Marshal value = inr raw ->
  answer (client c) "PUT" (Name c +:+ "/" +:+ key) headers (Some raw)
    = inr resp ->
  StatusCode resp <> 201 ->
  fst (innerPut c key headers value w) = (None, Some (fst (newError resp))).
Proof.
  intros Hm Ha Hs. unfold innerPut. rewrite Hm. unfold bind at 1.
  rewrite (emptyReply_mismatch _ _ _ _ _ _ _ _ Ha Hs). reflexivity.
Qed.

(** [innerUpdateEvent] on a status other than 204. *)
Lemma innerUpdateEvent_mismatch (c : Collection) (key typ : string)
    (ts : Time) (ordinal : Z) (headers : gmap string string) (value : V)
    (raw : string) (resp : Response) (w : World) :
  Marshal value = inr raw ->
  answer (client c) "PUT" (eventPath c key typ ts ordinal) headers (Some raw)
    = inr resp ->
  StatusCode resp <> 204 ->
  fst (innerUpdateEvent c key typ ts ordinal value headers w)
  = (None, Some (fst (newError resp))).
Proof.
  intros Hm Ha Hs. unfold innerUpdateEvent. rewrite Hm. unfold bind at 1.
  rewrite (emptyReply_mismatch _ _ _ _ _ _ _ _ Ha Hs). reflexivity.
Qed.

End Conditional.

(** [newError] makes a [PreconditionFailedError] of status 412 and of no
    other. *)
Lemma newError_precondition_iff `{Platform} (resp : Response) :
  (exists msg, fst (newError resp) = PreconditionFailedError msg)
  <-> StatusCode resp = 412.
Proof.
  split.
  - intros [msg E]. unfold newError in E.
    repeat (case_bool_decide; [cbn in E; try discriminate; assumption|]).
    destruct (Decode_UnknownError _) as [[?|?] ?]; discriminate.
  - intros E. rewrite (newError_412 _ E). eauto.
Qed.

(** X5. [Create], [Item.Update], [Item.Delete], [Event.Update] and
    [Event.Delete], when the server answers with a status other than the
    one expected, return no entity; the error is the call's own
    reading of a failed precondition when the status is 412
    ([AlreadyExistsError] of the key for [Create], [NotMostRecentError]
    of the key for [Item.Update] and of the ref for the three others),
    and for every other status the error of [newError], unchanged. *)
Theorem conditional_call_unexpected_status `{Platform} {V}
    `{JSONMarshaler V} (m : ConditionalCall V) (resp : Response) (w : World) :
  conditional_answer m = Some (inr resp) ->
  StatusCode resp <> conditional_status m ->
  fst (conditional_call m w)
  = (None,
     Some (if bool_decide (StatusCode resp = 412) then conditional_error m
           else fst (newError resp))).
Proof.
  intros Ha Hs.
  assert (Hp : forall e : error,
            e = fst (newError resp) ->
            match e with
            | PreconditionFailedError _ => StatusCode resp = 412
            | _ => StatusCode resp <> 412
            end).
  { intros e ->. destruct (fst (newError resp)) eqn:E;
      try (intros E412; apply newError_precondition_iff in E412 as [? ?];
           congruence).
    apply newError_precondition_iff. eauto. }
  destruct m as [c key value|i value|i|e value|e]; cbn in Ha, Hs |- *.
  - destruct (Marshal value) as [|raw] eqn:Hm; [discriminate|].
    injection Ha as Ha. unfold Create, bind.
    pose proof (innerPut_mismatch c key _ value raw resp w Hm Ha Hs) as E.
    destruct (innerPut c key _ value w) as [[item err] w']. cbn in E.
    injection E as -> ->. specialize (Hp _ eq_refl).
    destruct (fst (newError resp)); cbn;
      first [rewrite bool_decide_true by assumption
            |rewrite bool_decide_false by assumption]; reflexivity.
  - destruct (Marshal value) as [|raw] eqn:Hm; [discriminate|].
    injection Ha as Ha. unfold Item_Update, bind.
    pose proof (innerPut_mismatch _ _ _ value raw resp w Hm Ha Hs) as E.
    destruct (innerPut _ _ _ value w) as [[item err] w']. cbn in E.
    injection E as -> ->. specialize (Hp _ eq_refl).
    destruct (fst (newError resp)); cbn;
      first [rewrite bool_decide_true by assumption
            |rewrite bool_decide_false by assumption]; reflexivity.
  - injection Ha as Ha. unfold Item_Delete, bind.
    rewrite (emptyReply_mismatch _ _ _ _ _ _ _ _ Ha Hs).
    specialize (Hp _ eq_refl).
    destruct (fst (newError resp)); cbn;
      first [rewrite bool_decide_true by assumption
            |rewrite bool_decide_false by assumption]; reflexivity.
  - destruct (Marshal value) as [|raw] eqn:Hm; [discriminate|].
    injection Ha as Ha. unfold Event_Update, bind.
    pose proof (innerUpdateEvent_mismatch _ _ _ _ _ _ value raw resp w
                  Hm Ha Hs) as E.
    destruct (innerUpdateEvent _ _ _ _ _ value _ w) as [[event err] w'].
    cbn in E. injection E as -> ->. specialize (Hp _ eq_refl).
    destruct (fst (newError resp)); cbn;
      first [rewrite bool_decide_true by assumption
            |rewrite bool_decide_false by assumption]; reflexivity.
  - injection Ha as Ha. unfold Event_Delete, bind.
    rewrite (emptyReply_mismatch _ _ _ _ _ _ _ _ Ha Hs).
    specialize (Hp _ eq_refl).
    destruct (fst (newError resp)); cbn;
      first [rewrite bool_decide_true by assumption
            |rewrite bool_decide_false by assumption]; reflexivity.
Qed.

(** An event whose ref is stale: the server answers 412 to the update and
    to the delete; and a server out of order answers 500, which stays an
    [UnknownError]. *)
Lemma conditional_call_unexpected_status_witness :
  let P412 := mockPlatform
                (always (mkResponse "412 Precondition Failed" 412 ∅ ""))
                noPages in
  let P500 := mockPlatform
                (always (mkResponse "500 Internal Server Error" 500 ∅ "down"))
                noPages in
  let e := mkEvent testCollection "k" 3 "r1" defaultTime "t" "{}" in
  fst (@conditional_call P412 string mockMarshaler (CondEventUpdate e "{}")
         emptyWorld)
    = (None, Some (NotMostRecentError "r1"))
  /\ fst (@conditional_call P500 string mockMarshaler (CondEventDelete e)
            emptyWorld)
     = (None, Some (UnknownError "500 Internal Server Error" 500 "down")).
Proof.
  intros P412 P500 e. split.
  - apply (@conditional_call_unexpected_status P412 string mockMarshaler
             (CondEventUpdate e "{}")
             (mkResponse "412 Precondition Failed" 412 ∅ "") emptyWorld
             eq_refl).
    cbn. lia.
  - apply (@conditional_call_unexpected_status P500 string mockMarshaler
             (CondEventDelete e)
             (mkResponse "500 Internal Server Error" 500 ∅ "down") emptyWorld
             eq_refl).
    cbn. lia.
Defined.

(** ** What the reading calls return *)

(** X6. The calls that read an entity, [GetRef] (and [Get]), [GetEvent],
    [Iterator.Get] and [Iterator.GetEvent], never return nil with a nil
    error; and when they return an entity, the error returned with it is
    exactly what [json.Unmarshal] says of the entity's value and the
    caller's destination, nil for a nil destination. So unlike the
    mutating calls, a reading call can return an entity and an error
    together. *)
Theorem read_returns_entity_with_unmarshal_error `{Platform} {D}
    `{JSONUnmarshaler D} (value : option D) :
  (forall c key ref w,
     match fst (GetRef c key ref value w) with
     | (Some item, err) => err = unmarshal_into value (Item_Value item)
     | (None, err) => err <> None
     end)
  /\ (forall c key typ ts ordinal w,
        match fst (GetEvent c key typ ts ordinal value w) with
        | (Some event, err) => err = unmarshal_into value (Event_Value event)
        | (None, err) => err <> None
        end)
  /\ (forall i,
        match Iterator_Get i value with
        | Returns (Some item, err) => err = unmarshal_into value (Item_Value item)
        | Returns (None, err) => err <> None
        | Panics _ => True
        end)
  /\ (forall i,
        match Iterator_GetEvent i value with
        | Returns (Some event, err) => err = unmarshal_into value (Event_Value event)
        | Returns (None, err) => err <> None
        | Panics _ => True
        end).
Proof.
  unfold unmarshal_into. repeat split.
  - intros c key ref w. unfold GetRef, bind.
    destruct (jsonReply _ _ _ _ _ _ w) as [[err | [resp raw]] w']; cbn;
      [discriminate|].
    repeat case_bool_decide; destruct value; cbn; (reflexivity || discriminate).
  - intros c key typ ts ordinal w. unfold GetEvent, bind.
    destruct (jsonReply _ _ _ _ _ _ w) as [[err | [resp raw]] w']; cbn;
      [discriminate|].
    destruct value; cbn; reflexivity.
  - intros i. unfold Iterator_Get.
    destruct (iteratingItems i); cbn; [|discriminate].
    destruct (at_index _ _) as [[r|]|]; [|exact I|exact I].
    destruct value; reflexivity.
  - intros i. unfold Iterator_GetEvent.
    destruct (iteratingEvents i); cbn; [|discriminate].
    destruct (at_index _ _) as [[r|]|]; [|exact I|exact I].
    destruct value; reflexivity.
Qed.

(** ** The kind, the client and the error of an iterator *)

Section IteratorInvariants.
Context `{Platform}.

(** [Next] changes neither the kind of the iterator nor its client. *)
Lemma Next_keeps_kind (i : Iterator) (w : World) :
  iteratingEvents (snd (fst (Next i w))) = iteratingEvents i
  /\ iteratingItems (snd (fst (Next i w))) = iteratingItems i
  /\ Iterator_client (snd (fst (Next i w))) = Iterator_client i.
Proof.
  unfold Next. destruct (done i); [auto|].
  case_bool_decide; [auto|].
  destruct (_ <? _); [auto|].
  case_bool_decide; [auto|].
  unfold bind.
  destruct (jsonReply _ _ _ _ _ _ w) as [[err | [resp page]] w']; [auto|].
  case_bool_decide; auto.
Qed.

Lemma Next_times_keeps_kind (n : nat) (i : Iterator) (w : World) :
  iteratingEvents (after_Next_times n i w) = iteratingEvents i
  /\ iteratingItems (after_Next_times n i w) = iteratingItems i
  /\ Iterator_client (after_Next_times n i w) = Iterator_client i.
Proof.
  unfold after_Next_times. revert i w. induction n as [|n IH]; intros i w.
  - auto.
  - cbn [Next_times]. unfold bind, ret.
    pose proof (Next_keeps_kind i w) as (E1 & E2 & E3).
    destruct (Next i w) as [[b i1] w1]. cbn [fst snd] in *.
    specialize (IH i1 w1) as (F1 & F2 & F3).
    destruct (Next_times n i1 w1) as [[bs i2] w2]. cbn [fst snd] in *.
    repeat split; congruence.
Qed.

(** A call of [Next] that returns true leaves no error, and found
    none. *)
Lemma Next_true_live (i : Iterator) (w : World) :
  fst (fst (Next i w)) = true ->
  Error i = None
  /\ Error (snd (fst (Next i w))) = None
  /\ done (snd (fst (Next i w))) = false.
Proof.
  unfold Next. destruct (done i) eqn:Hd; [discriminate|].
  case_bool_decide as He; [discriminate|].
  assert (He' : Error i = None)
    by (destruct (Error i);
        [exfalso; first [discriminate He | apply He; discriminate]
        | reflexivity]).
  destruct (_ <? _); [cbn; auto|].
  case_bool_decide; [discriminate|].
  unfold bind.
  destruct (jsonReply _ _ _ _ _ _ w) as [[err | [resp page]] w'];
    [discriminate|].
  case_bool_decide; cbn; [discriminate|]. auto.
Qed.

End IteratorInvariants.

(** X7. The kind of an iterator is fixed when the listing call makes it.
    However often [Next] has been called, and whatever the server
    answered, [Get] on an iterator of [ListEvents] returns the error
    "Not an Item Iterator." and [GetEvent] on an iterator of [List],
    [Search], [History] or [GetLinks] returns "Not an Event Iterator.":
    no entity, and no panic, even before the first [Next] and after the
    last. The iterator also keeps the client of its collection. *)
Theorem wrong_kind_is_an_error `{Platform} {D} `{JSONUnmarshaler D}
    (c : Collection) (n : nat) (w : World) (value : option D) :
  (forall key typ opts,
     Iterator_Get (after_Next_times n (ListEvents c key typ opts) w) value
     = Returns (None, Some (errorString "Not an Item Iterator.")))
  /\ (forall query,
        Iterator_GetEvent (after_Next_times n (List c query) w) value
        = Returns (None, Some (errorString "Not an Event Iterator.")))
  /\ (forall query opts,
        Iterator_GetEvent (after_Next_times n (Search c query opts) w) value
        = Returns (None, Some (errorString "Not an Event Iterator.")))
  /\ (forall key opts,
        Iterator_GetEvent (after_Next_times n (History c key opts) w) value
        = Returns (None, Some (errorString "Not an Event Iterator.")))
  /\ (forall key opts kind kinds,
        Iterator_GetEvent
          (after_Next_times n (GetLinks c key opts kind kinds) w) value
        = Returns (None, Some (errorString "Not an Event Iterator.")))
  /\ (forall i, listing i -> Iterator_client i = client c ->
        Iterator_client (after_Next_times n i w) = client c).
Proof.
  repeat split; intros.
  - unfold Iterator_Get.
    destruct (Next_times_keeps_kind n (ListEvents c key typ opts) w)
      as (_ & -> & _). reflexivity.
  - unfold Iterator_GetEvent.
    destruct (Next_times_keeps_kind n (List c query) w) as (-> & _).
    reflexivity.
  - unfold Iterator_GetEvent.
    destruct (Next_times_keeps_kind n (Search c query opts) w) as (-> & _).
    reflexivity.
  - unfold Iterator_GetEvent.
    destruct (Next_times_keeps_kind n (History c key opts) w) as (-> & _).
    reflexivity.
  - unfold Iterator_GetEvent.
    destruct (Next_times_keeps_kind n (GetLinks c key opts kind kinds) w)
      as (-> & _). reflexivity.
  - destruct (Next_times_keeps_kind n i w) as (_ & _ & ->). assumption.
Qed.

(** X8. [Next] never returns true on an iterator that holds an error, and
    never leaves an error or an exhausted iterator when it returns true.
    So the pair of [NextWithError] is never (true, error), whether the
    [Error] field is read before the call of [Next] or after it. *)
Theorem Next_true_means_no_error `{Platform} (i : Iterator) (w : World) :
  fst (fst (Next i w)) = true ->
  Error i = None
  /\ Error (snd (fst (Next i w))) = None
  /\ done (snd (fst (Next i w))) = false
  /\ fst (NextWithError i w) = (true, None, snd (fst (Next i w))).
Proof.
  intros Ht. destruct (Next_true_live i w Ht) as (E1 & E2 & E3).
  repeat split; try assumption.
  unfold NextWithError, bind, ret.
  destruct (Next i w) as [[b i'] w']. cbn [fst snd] in *. congruence.
Qed.

(** The first [Next] on a listing of three items. *)
Lemma Next_true_means_no_error_witness :
  let P := mockPlatform threeItems threeItemsPages in
  let i := @List P testCollection (Some (mkListQuery 2 "" "" "" "")) in
  fst (fst (@NextWithError P i emptyWorld)) = (true, None).
Proof.
  intros P i.
  pose proof (@Next_true_means_no_error P i emptyWorld eq_refl)
    as (_ & _ & _ & E).
  rewrite E. reflexivity.
Defined.

(** ** From the wire to a time and back *)

(** X9. A timestamp read off the wire and put back on it is unchanged:
    for every count of milliseconds [ms] that a time can hold in
    nanoseconds ([ms * 1e6] fits [int64]), before the epoch as well as
    after, the time rebuilt by [time.Unix(ms/1000, (ms%1000)*1000000)]
    goes out again as [ms]. So the path of an event built from the
    timestamp that [GetEvent], [Iterator.GetEvent] or a reply's Location
    header gave is the path that holds the server's own number. *)
Theorem wire_timestamp_is_kept (ms : Z) :
  MinInt64 <= ms * 1000000 <= MaxInt64 ->
  encodeTimestamp (decodeTimestamp ms) = ms
  /\ (forall c key typ ordinal,
        eventPath c key typ (decodeTimestamp ms) ordinal
        = Name c +:+ "/" +:+ key +:+ "/events/" +:+ typ +:+ "/"
            +:+ Itoa ms +:+ "/" +:+ Itoa ordinal).
Proof.
  intros Hr.
  assert (E : encodeTimestamp (decodeTimestamp ms) = ms).
  { rewrite (decodeTimestamp_instant ms Hr). unfold encodeTimestamp.
    rewrite (UnixNano_instant _ Hr). apply Z.quot_mul. lia. }
  split; [exact E|]. intros. unfold eventPath. rewrite E. reflexivity.
Qed.

(** Half a second before the epoch, and the timestamp of the package's
    tests. *)
Lemma wire_timestamp_is_kept_witness :
  encodeTimestamp (decodeTimestamp (-500)) = -500
  /\ encodeTimestamp (decodeTimestamp 1398286518286) = 1398286518286.
Proof.
  split.
  - apply (wire_timestamp_is_kept (-500)). unfold MinInt64, MaxInt64. lia.
  - apply (wire_timestamp_is_kept 1398286518286). unfold MinInt64, MaxInt64.
    lia.
Defined.

(** ** Numerals and separators: what the server formats, the client parses *)

(** A decimal digit is read back as itself. *)
Lemma digit_pretty_N_char (d : N) :
  (d < 10)%N -> digit (pretty_N_char d) = Some (Z.of_N d).
Proof.
  intros Hd.
  assert (d = 0 \/ d = 1 \/ d = 2 \/ d = 3 \/ d = 4 \/ d = 5 \/ d = 6
          \/ d = 7 \/ d = 8 \/ d = 9)%N as Hc by lia.
  repeat (destruct Hc as [-> | Hc]; [reflexivity|]). subst. reflexivity.
Qed.

(** Reading the digits that [pretty_N_go] writes in front of [s]. *)
Lemma digits_pretty_N_go (x : N) (s : string) :
  digits 0 (pretty_N_go x s) = digits (Z.of_N x) s.
Proof.
  revert s. induction (N.lt_wf_0 x) as [x _ IH]. intros s.
  destruct (N.eq_dec x 0%N) as [-> | Hx].
  - rewrite pretty_N_go_0. reflexivity.
  - rewrite pretty_N_go_step by lia.
    rewrite IH by (apply N.div_lt; lia).
    cbn [digits].
    rewrite digit_pretty_N_char by (apply N.mod_lt; lia).
    f_equal. pose proof (N.div_mod x 10 ltac:(lia)). lia.
Qed.

(** A positive number is written with a digit in front. *)
Lemma pretty_N_go_head (x : N) (s : string) :
  (0 < x)%N ->
  exists d r, (d < 10)%N /\ pretty_N_go x s = String (pretty_N_char d) r.
Proof.
  revert s. induction (N.lt_wf_0 x) as [x _ IH]. intros s Hx.
  rewrite pretty_N_go_step by assumption.
  destruct (N.eq_dec (x `div` 10)%N 0%N) as [E | E].
  - rewrite E, pretty_N_go_0. exists (x `mod` 10)%N, s.
    split; [apply N.mod_lt; lia | reflexivity].
  - apply IH; [apply N.div_lt; lia | apply N.neq_0_lt_0; assumption].
Qed.

(** No digit is the byte [ch]: then writing a number adds no [ch]. *)
Lemma has_byte_pretty_N_go (ch : ascii) (x : N) (s : string) :
  digit ch = None ->
  has_byte ch (pretty_N_go x s) = has_byte ch s.
Proof.
  intros Hch. revert s. induction (N.lt_wf_0 x) as [x _ IH]. intros s.
  destruct (N.eq_dec x 0%N) as [-> | Hx].
  - rewrite pretty_N_go_0. reflexivity.
  - rewrite pretty_N_go_step by lia.
    rewrite IH by (apply N.div_lt; lia). cbn [has_byte].
    rewrite bool_decide_false; [reflexivity|].
    intros E. rewrite <- E in Hch.
    rewrite digit_pretty_N_char in Hch by (apply N.mod_lt; lia).
    discriminate.
Qed.

(** [strconv.ParseInt] on a string that starts with no sign. *)
Lemma ParseInt_unsigned (c : ascii) (r : string) :
  c <> "+"%char -> c <> "-"%char ->
  ParseInt (String c r)
  = match digits 0 (String c r) with
    | Some n => if (MinInt64 <=? n) && (n <=? MaxInt64) then Some n else None
    | None => None
    end.
Proof.
  intros Hp Hm. unfold ParseInt.
  destruct c as [[] [] [] [] [] [] [] []]; try congruence; reflexivity.
Qed.

(** [strconv.ParseInt] on a minus sign followed by at least one byte. *)
Lemma ParseInt_minus (c : ascii) (r : string) :
  ParseInt (String "-" (String c r))
  = match digits 0 (String c r) with
    | Some n =>
        if (MinInt64 <=? - n) && (- n <=? MaxInt64) then Some (- n) else None
    | None => None
    end.
Proof. reflexivity. Qed.

(** [strconv.ParseInt] reads back what [strconv.Itoa] and [%d] write. *)
Lemma ParseInt_Itoa (n : Z) :
  MinInt64 <= n <= MaxInt64 -> ParseInt (Itoa n) = Some n.
Proof.
  intros Hn. unfold Itoa, pretty, pretty_Z.
  destruct n as [|p|p].
  - reflexivity.
  - unfold pretty, pretty_positive, pretty, pretty_N.
    rewrite decide_False by lia.
    destruct (pretty_N_go_head (N.pos p) "" ltac:(lia)) as (d & r & Hd & E).
    pose proof (digits_pretty_N_go (N.pos p) "") as Hdig.
    rewrite E in *.
    rewrite ParseInt_unsigned.
    + rewrite Hdig. cbn [digits Z.of_N].
      destruct ((MinInt64 <=? Z.pos p) && (Z.pos p <=? MaxInt64)) eqn:Hr.
      * reflexivity.
      * exfalso. apply andb_false_iff in Hr. lia.
    + intros E'. pose proof (digit_pretty_N_char d Hd) as Hg.
      rewrite E' in Hg. discriminate.
    + intros E'. pose proof (digit_pretty_N_char d Hd) as Hg.
      rewrite E' in Hg. discriminate.
  - unfold pretty, pretty_positive, pretty, pretty_N.
    rewrite decide_False by lia.
    destruct (pretty_N_go_head (N.pos p) "" ltac:(lia)) as (d & r & Hd & E).
    pose proof (digits_pretty_N_go (N.pos p) "") as Hdig.
    rewrite E in *. change ("-" +:+ String (pretty_N_char d) r)
      with (String "-" (String (pretty_N_char d) r)).
    rewrite ParseInt_minus, Hdig. cbn [digits Z.of_N].
    destruct ((MinInt64 <=? - Z.pos p) && (- Z.pos p <=? MaxInt64)) eqn:Hr.
    + reflexivity.
    + exfalso. apply andb_false_iff in Hr. lia.
Qed.

(** A numeral holds no byte that is neither a digit nor the sign. *)
Lemma has_byte_Itoa (ch : ascii) (n : Z) :
  digit ch = None -> ch <> "-"%char -> has_byte ch (Itoa n) = false.
Proof.
  intros Hd Hm. unfold Itoa, pretty, pretty_Z. destruct n as [|p|p].
  - cbn. rewrite bool_decide_false; [reflexivity|].
    intros <-. discriminate.
  - unfold pretty, pretty_positive, pretty, pretty_N.
    rewrite decide_False by lia. rewrite has_byte_pretty_N_go by assumption.
    reflexivity.
  - unfold pretty, pretty_positive, pretty, pretty_N.
    rewrite decide_False by lia.
    change (has_byte ch ("-" +:+ pretty_N_go (N.pos p) ""))
      with (bool_decide ("-"%char = ch)
            || has_byte ch (pretty_N_go (N.pos p) "")).
    rewrite has_byte_pretty_N_go by assumption.
    rewrite bool_decide_false by congruence. reflexivity.
Qed.

(** Splitting at a one-byte separator a string that does not hold it. *)
Lemma Split_from_byte (ch : ascii) (s : string) (cur : list ascii) :
  has_byte ch s = false ->
  Split_from (String ch "") O cur s
  = [string_of_list_ascii (rev cur ++ list_ascii_of_string s)].
Proof.
  revert cur. induction s as [|c s IH]; intros cur Hs.
  - cbn. rewrite app_nil_r. reflexivity.
  - cbn [has_byte] in Hs. apply orb_false_iff in Hs as [Hc Hs].
    apply bool_decide_eq_false in Hc.
    cbn [Split_from String.prefix].
    destruct (ascii_dec ch c) as [E|E]; [congruence|].
    rewrite IH by assumption. cbn [rev list_ascii_of_string].
    rewrite <- app_assoc. reflexivity.
Qed.

(** Splitting at a one-byte separator: the piece up to its first
    occurrence, then the pieces of the rest. *)
Lemma Split_from_byte_app (ch : ascii) (a rest : string) (cur : list ascii) :
  has_byte ch a = false ->
  Split_from (String ch "") O cur (a +:+ String ch rest)
  = string_of_list_ascii (rev cur ++ list_ascii_of_string a)
      :: Split_from (String ch "") O [] rest.
Proof.
  revert cur. induction a as [|c a IH]; intros cur Ha.
  - change ("" +:+ String ch rest) with (String ch rest).
    cbn [Split_from String.prefix list_ascii_of_string String.length
         Nat.sub].
    destruct (ascii_dec ch ch) as [_|E]; [|congruence].
    replace (String.prefix "" rest) with true by (destruct rest; reflexivity).
    rewrite app_nil_r. reflexivity.
  - cbn [has_byte] in Ha. apply orb_false_iff in Ha as [Hc Ha].
    apply bool_decide_eq_false in Hc.
    change (String c a +:+ String ch rest)
      with (String c (a +:+ String ch rest)).
    cbn [Split_from String.prefix].
    destruct (ascii_dec ch c) as [E|E]; [congruence|].
    rewrite IH by assumption. cbn [rev list_ascii_of_string].
    rewrite <- app_assoc. reflexivity.
Qed.

Lemma Split_byte_none (ch : ascii) (s : string) :
  has_byte ch s = false -> Split s (String ch "") = [s].
Proof.
  intros Hs. unfold Split. rewrite Split_from_byte by assumption.
  cbn [rev app]. rewrite string_of_list_ascii_of_string. reflexivity.
Qed.

Lemma Split_byte_app (ch : ascii) (a rest : string) :
  has_byte ch a = false ->
  Split (a +:+ String ch rest) (String ch "")
  = a :: Split rest (String ch "").
Proof.
  intros Ha. unfold Split. rewrite Split_from_byte_app by assumption.
  cbn [rev app]. rewrite string_of_list_ascii_of_string. reflexivity.
Qed.

(** [strings.Split] undoes [strings.Join] on pieces that do not hold
    the separator. *)
Lemma Split_Join (ch : ascii) (segs : list string) :
  segs <> [] ->
  Forall (fun s => has_byte ch s = false) segs ->
  Split (Join segs (String ch "")) (String ch "") = segs.
Proof.
  induction segs as [|x rest IH]; intros Hne Hall; [congruence|].
  inversion Hall as [|? ? Hx Hrest]; subst.
  destruct rest as [|y rest'].
  - cbn [Join]. apply Split_byte_none. assumption.
  - change (Join (x :: y :: rest') (String ch ""))
      with (x +:+ String ch (Join (y :: rest') (String ch ""))).
    rewrite Split_byte_app by assumption.
    rewrite IH by (assumption || discriminate). reflexivity.
Qed.

(** The headers of an event reply as the server formats them: a Location
    of eight segments that ends in the timestamp and the ordinal, and a
    quoted Etag. *)
Lemma parseEventHeaders_formatted (resp : Response) (event : Event)
    (segs : list string) (ts ord : Z) (ref : string) :
  length segs = 6%nat ->
  Forall (fun s => has_byte "/" s = false) segs ->
  MinInt64 <= ts <= MaxInt64 ->
  MinInt64 <= ord <= MaxInt64 ->
  has_byte dquote_byte ref = false ->
  Header_Get (RespHeader resp) "Location"
    = Join (segs ++ [Itoa ts; Itoa ord]) "/" ->
  Header_Get (RespHeader resp) "Etag" = dquote +:+ ref +:+ dquote ->
  parseEventHeaders resp event
  = (Some (mkEvent (Event_Collection event) (Event_Key event) ord ref
             (decodeTimestamp ts) (Event_Type event) (Event_Value event)),
     None).
Proof.
  intros Hlen Hsegs Hts Hord Href Hloc Hetag.
  assert (Hsplit : Split (Header_Get (RespHeader resp) "Location") "/"
                   = segs ++ [Itoa ts; Itoa ord]).
  { rewrite Hloc. apply (Split_Join "/").
    - destruct segs; discriminate.
    - apply Forall_app. split; [assumption|].
      repeat constructor; apply has_byte_Itoa; (reflexivity || discriminate). }
  assert (Hesplit : Split (Header_Get (RespHeader resp) "Etag") dquote
                    = [""; ref; ""]).
  { rewrite Hetag.
    change (dquote +:+ ref +:+ dquote)
      with ("" +:+ String dquote_byte (ref +:+ String dquote_byte "")).
    change dquote with (String dquote_byte "").
    rewrite (Split_byte_app dquote_byte "") by reflexivity.
    rewrite (Split_byte_app dquote_byte ref "") by assumption.
    reflexivity. }
  unfold parseEventHeaders. rewrite Hsplit, Hesplit.
  rewrite bool_decide_false.
  2:{ intros E. rewrite E in Hsplit. apply (f_equal (@length string)) in Hsplit.
      rewrite length_app, Hlen in Hsplit. discriminate. }
  rewrite bool_decide_true by (rewrite length_app, Hlen; reflexivity).
  cbn [negb].
  do 7 (destruct segs as [|? segs]; try discriminate).
  cbn [app part nth].
  rewrite (ParseInt_Itoa ts Hts), (ParseInt_Itoa ord Hord).
  rewrite bool_decide_false.
  2:{ rewrite Hetag. discriminate. }
  rewrite bool_decide_true by reflexivity. reflexivity.
Qed.

(** X10. What the server formats, the client reads back. When the reply
    to [AddEvent], [AddEventWithTimestamp] or [UpdateEvent] has the
    expected status, a Location header of eight ['/']-separated segments
    of which the last two are the numerals of a timestamp and an ordinal
    (as [%d] writes an [int64]), and an Etag header that is a ref between
    double quotes, the call returns no error, and an event that has
    exactly that ordinal, that ref and the time of that timestamp, the
    marshalled value, and the key and type the caller passed: the first
    six segments of the Location are not looked at. *)
Theorem event_headers_read_back `{Platform} {V} `{JSONMarshaler V}
    (c : Collection) (m : EventCall) (value : V) (raw : string)
    (resp : Response) (segs : list string) (ts ord : Z) (ref : string)
    (w : World) :
  Marshal value = inr raw ->
  call_answered c (mutating m) raw resp ->
  length segs = 6%nat ->
  Forall (fun s => has_byte "/" s = false) segs ->
  MinInt64 <= ts <= MaxInt64 ->
  MinInt64 <= ord <= MaxInt64 ->
  has_byte dquote_byte ref = false ->
  Header_Get (RespHeader resp) "Location"
    = Join (segs ++ [Itoa ts; Itoa ord]) "/" ->
  Header_Get (RespHeader resp) "Etag" = dquote +:+ ref +:+ dquote ->
  fst (call c (mutating m) value w)
  = (Some (EntityEvent
             (mkEvent c (EventCall_key m) ord ref (decodeTimestamp ts)
                (EventCall_type m) raw)),
     None).
Proof.
  intros Hm Ha Hlen Hsegs Hts Hord Href Hloc Hetag.
  destruct m as [key typ | key typ t0 | key typ t0 ord0];
    cbn [mutating call call_answered EventCall_key EventCall_type] in *;
    destruct Ha as [Ha Hs].
  - unfold bind, AddEvent, innerAddEvent. rewrite Hm. unfold bind.
    rewrite (emptyReply_match _ _ _ _ _ _ _ _ Ha Hs). unfold ret.
    rewrite (parseEventHeaders_formatted resp _ segs ts ord ref) by assumption.
    reflexivity.
  - unfold bind, AddEventWithTimestamp, innerAddEvent. rewrite Hm. unfold bind.
    rewrite (emptyReply_match _ _ _ _ _ _ _ _ Ha Hs). unfold ret.
    rewrite (parseEventHeaders_formatted resp _ segs ts ord ref) by assumption.
    reflexivity.
  - unfold bind, UpdateEvent, innerUpdateEvent. rewrite Hm. unfold bind.
    rewrite (emptyReply_match _ _ _ _ _ _ _ _ Ha Hs). unfold ret.
    rewrite (parseEventHeaders_formatted resp _ segs ts ord ref) by assumption.
    reflexivity.
Qed.

(** The Location of the package's tests, with both numerals in order. *)
Lemma event_headers_read_back_witness :
  let resp :=
    mkResponse "201 Created" 201
      {[ "Location" := ["/v0/collection/key/events/type1/100/1"];
         "Etag" := [dquote +:+ "ref" +:+ dquote] ]} "" in
  let P := mockPlatform (always resp) noPages in
  fst (@call P string mockMarshaler testCollection (CallAddEvent "key" "type1")
         "{}" emptyWorld)
  = (Some (EntityEvent
             (mkEvent testCollection "key" 1 "ref" (decodeTimestamp 100)
                "type1" "{}")),
     None).
Proof.
  intros resp P.
  apply (@event_headers_read_back P string mockMarshaler testCollection
           (EventAdd "key" "type1") "{}" "{}" resp
           [""; "v0"; "collection"; "key"; "events"; "type1"]
           100 1 "ref" emptyWorld).
  - reflexivity.
  - split; reflexivity.
  - reflexivity.
  - repeat constructor.
  - unfold MinInt64, MaxInt64. lia.
  - unfold MinInt64, MaxInt64. lia.
  - reflexivity.
  - reflexivity.
  - reflexivity.
Defined.

(** ** The headers of a mutating request *)

Section ContentType.
Context `{Platform}.

(** [emptyReply] when [http.NewRequest] rejects the request: nothing is
    sent. *)
Lemma emptyReply_rejected (c : Client) (method path : string)
    (headers : gmap string string) (body : option string) (status : Z)
    (w : World) (err : error) :
  NewRequest_error method (URL (buildRequest c method path headers body))
    = Some err ->
  emptyReply c method path headers body status w = (inl err, w).
Proof.
  intros Hn. unfold emptyReply, doRequest. rewrite Hn. reflexivity.
Qed.

(** A list is not itself with one more element in front. *)
Lemma cons_neq_self {A} (x : A) (l : list A) : l <> x :: l.
Proof.
  intros E. apply (f_equal (@length A)) in E. cbn in E. lia.
Qed.

(** What [emptyReply] sends, if it sends. *)
Lemma emptyReply_sends (c : Client) (method path : string)
    (headers : gmap string string) (body : option string) (status : Z)
    (w : World) (req : Request) :
  sent (snd (emptyReply c method path headers body status w)) = req :: sent w ->
  req = buildRequest c method path headers body.
Proof.
  destruct (NewRequest_error method
              (URL (buildRequest c method path headers body))) as [err|] eqn:Hn.
  - rewrite (emptyReply_rejected _ _ _ _ _ _ _ _ Hn). cbn.
    intros E. destruct (cons_neq_self _ _ E).
  - destruct (emptyReply_accepted c method path headers body status w Hn)
      as [_ ->].
    intros E. injection E as <-. reflexivity.
Qed.

(** The Content-Type values of a request with a body: the one
    [doRequest] adds, after the caller's own if there is one. *)
Lemma buildRequest_content_type (c : Client) (method path : string)
    (headers : gmap string string) (raw : string) :
  ReqHeader (buildRequest c method path headers (Some raw)) !! "Content-Type"
  = Some (match headers !! "Content-Type" with
          | Some v => [v; "application/json"]
          | None => ["application/json"]
          end).
Proof.
  unfold buildRequest, Header_Add. cbn [ReqHeader].
  rewrite lookup_insert_eq.
  rewrite lookup_insert_ne by discriminate.
  rewrite lookup_fmap.
  destruct (headers !! "Content-Type"); reflexivity.
Qed.

End ContentType.

Section MutatingRequests.
Context `{Platform} {V : Type} `{JSONMarshaler V}.

(** The request of [innerPut], if it sends one. *)
Lemma innerPut_sends (c : Collection) (key : string)
    (headers : gmap string string) (value : V) (w : World) (req : Request) :
  sent (snd (innerPut c key headers value w)) = req :: sent w ->
  exists raw,
    req = buildRequest (client c) "PUT" (Name c +:+ "/" +:+ key) headers
            (Some raw).
Proof.
  unfold innerPut. destruct (Marshal value) as [e|raw].
  - cbn. intros E. destruct (cons_neq_self _ _ E).
  - unfold bind.
    pose proof (emptyReply_sends (client c) "PUT" (Name c +:+ "/" +:+ key)
                  headers (Some raw) 201 w req) as Hsend.
    destruct (emptyReply _ _ _ _ _ _ w) as [[err|resp] w']; cbn [snd] in *.
    + cbn. intros E. eauto.
    + case_bool_decide; cbn; intros E; eauto.
Qed.

(** The request of [innerAddEvent], if it sends one. *)
Lemma innerAddEvent_sends (c : Collection) (key typ : string)
    (ts : option Time) (value : V) (w : World) (req : Request) :
  sent (snd (innerAddEvent c key typ ts value w)) = req :: sent w ->
  exists path raw,
    req = buildRequest (client c) "POST" path
            {[ "Content-Type" := "application/json" ]} (Some raw).
Proof.
  unfold innerAddEvent. destruct (Marshal value) as [e|raw].
  - cbn. intros E. destruct (cons_neq_self _ _ E).
  - unfold bind.
    match goal with
    | |- context [emptyReply ?cl ?me ?pa ?he ?bo ?st w] =>
        pose proof (emptyReply_sends cl me pa he bo st w req) as Hsend;
        destruct (emptyReply cl me pa he bo st w) as [[err|resp] w']
    end; cbn [snd] in *; cbn; intros E; eauto.
Qed.

(** The request of [innerUpdateEvent], if it sends one. *)
Lemma innerUpdateEvent_sends (c : Collection) (key typ : string) (ts : Time)
    (ordinal : Z) (value : V) (headers : gmap string string) (w : World)
    (req : Request) :
  sent (snd (innerUpdateEvent c key typ ts ordinal value headers w))
    = req :: sent w ->
  exists raw,
    req = buildRequest (client c) "PUT" (eventPath c key typ ts ordinal)
            headers (Some raw).
Proof.
  unfold innerUpdateEvent. destruct (Marshal value) as [e|raw].
  - cbn. intros E. destruct (cons_neq_self _ _ E).
  - unfold bind.
    match goal with
    | |- context [emptyReply ?cl ?me ?pa ?he ?bo ?st w] =>
        pose proof (emptyReply_sends cl me pa he bo st w req) as Hsend;
        destruct (emptyReply cl me pa he bo st w) as [[err|resp] w']
    end; cbn [snd] in *; cbn; intros E; eauto.
Qed.

(** [Create] leaves the world as [innerPut] left it. *)
Lemma Create_world (c : Collection) (key : string) (value : V) (w : World) :
  snd (Create c key value w)
  = snd (innerPut c key {[ "If-None-Match" := dquote +:+ "*" +:+ dquote ]}
           value w).
Proof.
  unfold Create, bind.
  destruct (innerPut c key _ value w) as [[item [[]|]] w']; reflexivity.
Qed.

End MutatingRequests.


(** X11. The event calls send the Content-Type header twice. Whenever
    [AddEvent], [AddEventWithTimestamp] or [UpdateEvent] sends its
    request, the request carries two Content-Type values, both
    [application/json]: the one the call puts in its own headers, and
    the one [doRequest] adds for every request with a body. [Create] and
    [Update], which pass no Content-Type of their own, send it once. *)
Theorem event_calls_send_content_type_twice `{Platform} {V}
    `{JSONMarshaler V} (c : Collection) (m : MutatingCall) (value : V)
    (w : World) (req : Request) :
  sent (snd (call c m value w)) = req :: sent w ->
  ReqHeader req !! "Content-Type"
  = Some match m with
         | CallCreate _ | CallUpdate _ => ["application/json"]
         | _ => ["application/json"; "application/json"]
         end.
Proof.
  assert (Hw : forall {A B} (m0 : M A) (f : A -> B),
            snd ((r <- m0 ;; ret (f r)) w) = snd (m0 w)).
  { intros A B m0 f. unfold bind, ret. destruct (m0 w). reflexivity. }
  destruct m as [key | key | key typ | key typ ts | key typ ts ordinal];
    cbn [call]; rewrite Hw; intros E.
  - rewrite Create_world in E. apply innerPut_sends in E as [raw ->].
    rewrite buildRequest_content_type. reflexivity.
  - apply innerPut_sends in E as [raw ->].
    rewrite buildRequest_content_type. reflexivity.
  - apply innerAddEvent_sends in E as (path & raw & ->).
    rewrite buildRequest_content_type. reflexivity.
  - apply innerAddEvent_sends in E as (path & raw & ->).
    rewrite buildRequest_content_type. reflexivity.
  - apply innerUpdateEvent_sends in E as [raw ->].
    rewrite buildRequest_content_type. reflexivity.
Qed.

(** [AddEvent] against any server. *)
Lemma event_calls_send_content_type_twice_witness :
  let P := mockPlatform (always (mkResponse "201 Created" 201 ∅ "")) noPages in
  (ReqHeader <$> sent (snd (@call P string mockMarshaler testCollection
                              (CallAddEvent "k" "t") "{}" emptyWorld)))
    !! 0%nat
  ≫= (fun h => h !! "Content-Type")
  = Some ["application/json"; "application/json"].
Proof.
  intros P.
  rewrite <- (@event_calls_send_content_type_twice P string mockMarshaler
                testCollection (CallAddEvent "k" "t") "{}" emptyWorld
                (@buildRequest P testClient "POST" "c/k/events/t"
                   {[ "Content-Type" := "application/json" ]} (Some "{}"))
                eq_refl).
  reflexivity.
Defined.

(** ** A listing that fails on the way *)

Section FailingListing.
Context `{Platform}.

(** At the end of its page, with a next page named that cannot be
    fetched, a live iterator stores the error. *)
Lemma Next_fetch_fails (i : Iterator) (w : World) (err : error) :
  live i ->
  Z.of_nat (length (results i)) - 1 <= index i ->
  next i <> "" ->
  fst (jsonReply (Iterator_client i) "GET" (next i) None 200 Decode_jsonList
         emptyWorld) = inl err ->
  exists w', Next i w = ((false, set_Error i (Some err)), w').
Proof.
  intros Hl Hi Hn Hj. rewrite (Next_live_unfold i Hl).
  replace (index i <? Z.of_nat (length (results i)) - 1) with false
    by (symmetry; apply Z.ltb_ge; lia).
  rewrite bool_decide_false by assumption. unfold bind.
  pose proof (jsonReply_world (Iterator_client i) "GET" (next i) None 200
                Decode_jsonList w) as [Hw _].
  rewrite Hj in Hw.
  destruct (jsonReply _ _ _ _ _ _ w) as [res w']. cbn [fst] in Hw.
  subst res. eexists. reflexivity.
Qed.

(** The loop over a server that fails after some full pages. *)
Lemma iterate_fails (c : Client) (L : nat) (url : string)
    (good : list (option jsonListItem)) (err : error) :
  (1 <= L)%nat ->
  paged_then_fails c L url good err ->
  forall (i : Iterator) (w : World) (extra : nat),
    live i ->
    Iterator_client i = c ->
    Z.of_nat (length (results i)) - 1 <= index i ->
    next i = url ->
    url <> "" ->
    exists final w',
      iterate (S (length good) + extra) i w = (Some (good, final), w')
      /\ Error final = Some err
      /\ done final = false.
Proof.
  intros HL Hf.
  induction Hf as [url err Hj | url page rest err Hp Hlen Hnx Hf IH];
    intros i w extra Hl Hc Hi Hn Hurl.
  - subst c url.
    destruct (Next_fetch_fails i w err Hl Hi Hurl Hj) as (w' & HN).
    cbn [length Nat.add]. rewrite (iterate_false _ _ _ _ _ HN).
    eexists _, _. split; [reflexivity|]. destruct Hl as [Hd He].
    split; [reflexivity | exact Hd].
  - subst c url.
    destruct (Next_fetch i w page Hl Hi Hurl Hp) as (w' & _ & HN).
    destruct (Results page) as [|x suf] eqn:Hres.
    { cbn [length] in Hlen. lia. }
    rewrite bool_decide_false in HN by discriminate.
    set (url' := TrimPrefix (Next_url page) "/v0/") in *.
    set (i1 := set_index (set_page i url' (x :: suf)) 0) in *.
    assert (Hl1 : live i1) by (destruct Hl; split; assumption).
    assert (Hx : at_index (results i1) (index i1) = Some x) by reflexivity.
    set (i2 := set_index i1 (Z.of_nat (length (results i1)) - 1)).
    destruct (IH i2 w' extra) as (final & w'' & Hit & He2 & Hd2).
    + destruct Hl1; split; assumption.
    + reflexivity.
    + cbn. lia.
    + reflexivity.
    + exact Hnx.
    + rewrite length_app. cbn [length].
      replace (S (S (length suf) + length rest) + extra)%nat
        with (S (length suf + (S (length rest) + extra))) by lia.
      rewrite (iterate_true _ _ _ _ _ _ HN Hx).
      rewrite (iterate_in_page suf [] x i1 _ w' Hl1 eq_refl eq_refl).
      fold i2. rewrite Hit. cbn [fst snd prepend].
      exists final, w''. split; [reflexivity|]. split; assumption.
Qed.

End FailingListing.

(** X12. A listing that breaks off. Take any listing call whose initial
    path is not empty, over a server that serves some full pages of
    [L >= 1] items, each naming a next page, and then fails, in the
    transport, on the status or in the decoding. The loop over [Next]
    yields exactly the items of the pages before the failure, in order;
    then [Next] returns false with the error of the failed fetch in
    [Error] and the iterator not marked done, and so does every later
    call, without a retry: no request is sent again. *)
Theorem listing_breaks_off `{Platform} (i0 : Iterator) (L : nat)
    (good : list (option jsonListItem)) (err : error) (w : World) (extra : nat) :
  listing i0 ->
  next i0 <> "" ->
  (1 <= L)%nat ->
  paged_then_fails (Iterator_client i0) L (next i0) good err ->
  exists final w',
    iterate (S (length good) + extra) i0 w = (Some (good, final), w')
    /\ Next_times (S (length good)) i0 w
       = ((repeat true (length good) ++ [false], final), w')
    /\ Error final = Some err
    /\ done final = false
    /\ Next final w' = ((false, final), w').
Proof.
  intros Hlist Hnext HL Hf.
  destruct (listing_fresh i0 Hlist) as (c & ev & it & path & ->).
  destruct (iterate_fails _ L _ good err HL Hf
              (newIterator c ev it path) w extra)
    as (final & w' & Hit & He & Hd).
  - split; reflexivity.
  - reflexivity.
  - cbn. lia.
  - reflexivity.
  - exact Hnext.
  - exists final, w'. split; [exact Hit|].
    split; [exact (iterate_Next_times _ _ _ _ _ _ Hit)|].
    split; [exact He|]. split; [exact Hd|].
    apply Next_absorbing. right. rewrite He. discriminate.
Qed.

(** Two items come, then the second page answers 500. *)
Lemma listing_breaks_off_witness :
  let P := mockPlatform secondPageDown threeItemsPages in
  let i0 := @List P testCollection (Some (mkListQuery 2 "" "" "" "")) in
  exists final w',
    @iterate P 3 i0 emptyWorld
    = (Some ([testItem "k1"; testItem "k2"], final), w')
    /\ @Next_times P 3 i0 emptyWorld = (([true; true; false], final), w')
    /\ Error final
       = Some (UnknownError "500 Internal Server Error" 500 "down")
    /\ done final = false
    /\ @Next P final w' = ((false, final), w').
Proof.
  intros P i0.
  apply (@listing_breaks_off P i0 2 [testItem "k1"; testItem "k2"]
           (UnknownError "500 Internal Server Error" 500 "down")
           emptyWorld 0).
  - apply (@listing_List P).
  - discriminate.
  - lia.
  - apply (@fails_later P testClient 2 "c?limit=2" page1 []).
    + reflexivity.
    + reflexivity.
    + discriminate.
    + apply (@fails_now P testClient 2 "c?limit=2&offset=2").
      reflexivity.
Defined.

(** ** web.go: the search proxy *)

Section SearchProxy.
Context `{Platform} `{Web.RawDestination}.

(** The loop of the handler, on an iterator over items a program can
    hold, never sets [err] and never indexes out of range: if it panics,
    it is on a nil element. *)
Lemma search_loop_no_error (fuel : nat) :
  forall (i : Iterator) (acc : list Web.Result) (w : World),
    reachable i ->
    iteratingItems i = true ->
    match fst (Web.search_loop fuel i None acc w) with
    | Some (Web.LoopDone err _ _) => err = None
    | Some (Web.LoopPanic msg) => msg = nil_dereference
    | None => True
    end.
Proof.
  induction fuel as [|f IH]; intros i acc w Hr Hk; [exact I|].
  cbn [Web.search_loop]. unfold bind at 1.
  pose proof (reachable_Next i w Hr) as Hr1.
  pose proof (Next_keeps_kind i w) as (_ & Hk1 & _).
  pose proof (Next_true_live i w) as Hlive.
  pose proof (Next_true_in_range i w (reachable_index_nonneg i Hr)) as Hrange.
  destruct (Next i w) as [[b i1] w1]. cbn [fst snd] in *.
  destruct b; [|reflexivity].
  destruct (Hlive eq_refl) as (_ & He & _). rewrite He.
  unfold Iterator_Get. rewrite Hk1, Hk. cbn [negb].
  destruct (at_index_in_range (results i1) (index i1) (Hrange eq_refl))
    as [[x|] ->]; [|reflexivity].
  destruct (Unmarshal (li_Value x) tt); [reflexivity|].
  apply IH; [exact Hr1 | congruence].
Qed.

(** The loop of the handler yields what the loop over [Next] yields, as
    long as the destination takes every value. *)
Lemma search_loop_iterate (fuel : nat) :
  forall (i final : Iterator) (w w' : World) (xs : list (option jsonListItem))
         (err : option error) (acc : list Web.Result),
    iterate fuel i w = (Some (xs, final), w') ->
    iteratingItems i = true ->
    Forall Web.accepted xs ->
    Web.search_loop fuel i err acc w
    = (Some (Web.LoopDone err (acc ++ map Web.result_of xs) final), w').
Proof.
  induction fuel as [|f IH]; intros i final w w' xs err acc Hit Hk Hacc;
    [discriminate|].
  cbn [iterate] in Hit. cbn [Web.search_loop]. unfold bind at 1 in Hit.
  unfold bind at 1.
  pose proof (Next_keeps_kind i w) as (_ & Hk1 & _).
  pose proof (Next_true_live i w) as Hlive.
  destruct (Next i w) as [[b i1] w1]. cbn [fst snd] in *.
  destruct b.
  - unfold bind, ret in Hit.
    destruct (iterate f i1 w1) as [r w2] eqn:Hrec.
    destruct (at_index (results i1) (index i1)) as [x|] eqn:Hx;
      [|discriminate].
    destruct r as [[ys fin]|]; [|discriminate].
    inversion Hit; subst. inversion Hacc as [|? ? Hax Hays]; subst.
    destruct (Hlive eq_refl) as (_ & He & _). rewrite He.
    destruct x as [x|]; [|destruct Hax].
    unfold Iterator_Get. rewrite Hk1, Hk, Hx. cbn [negb].
    unfold Web.accepted in Hax. unfold Unmarshal. rewrite Hax.
    rewrite (IH _ _ _ _ _ err _ Hrec) by (assumption || congruence).
    cbn [map Item_Value]. rewrite <- app_assoc. reflexivity.
  - inversion Hit; subst. cbn [map]. rewrite app_nil_r. reflexivity.
Qed.

End SearchProxy.

(** X13. Whatever the request parameters, the server and its answers,
    the handler [search] never writes an error and never indexes out of
    range: the check of [it.Error] inside the loop cannot fire, since
    [Next] has just returned true, so [err] is nil at the end and what is
    written is the results, with [Count] the number of results; and the
    one panic there can be is that of [it.Get] on a nil element, the JSON
    null of a page. *)
Theorem search_writes_results `{Platform} `{Web.RawDestination}
    (fuel : nat) (orc : Client) (host : string)
    (params : gmap string string) (collection : string) (w : World) :
  match fst (Web.search fuel orc host params collection w) with
  | Some (Returns (Web.WroteResults r)) =>
      Web.Count r = Z.of_nat (length (Web.Results_list r))
  | Some (Returns (Web.WroteError _)) => False
  | Some (Panics msg) => msg = nil_dereference
  | None => True
  end.
Proof.
  unfold Web.search, bind, ret.
  pose proof (search_loop_no_error fuel
                (Web.search_iterator orc host params collection) [] w
                (reachable_literal _ _ _ _ _ _) eq_refl) as Hl.
  destruct (Web.search_loop _ _ _ _ w) as [[[err rs it | msg] |] w'];
    cbn [fst] in *.
  - subst err. reflexivity.
  - exact Hl.
  - exact I.
Qed.

(** The panic does happen: the server answers the search with the body
    [{"results":[null]}]. *)
Example search_panics_on_null_element :
  let P := mockPlatform (always (mkResponse "200 OK" 200 ∅ "null")) nullPages in
  fst (@Web.search P Web.mockRaw 2 testClient "" {[ "query" := "*" ]} "c"
         emptyWorld)
  = Some (Panics nil_dereference).
Proof. reflexivity. Qed.

(** X14. The limit of the handler is a page size, not a bound. Over a
    server that holds [N] items that match and serves them in full pages
    of [L >= 1] items, the last page holding the [last] that remain, the
    handler, when no element is null and its destination takes every
    value, writes all [N] items in order with [Count = N], whatever
    [limit] the request asked for, and sends one request for every page
    to do so: [ceil (N / L)] when the last page holds an item, [N / L + 1]
    when it is empty. *)
Theorem search_walks_every_page `{Platform} `{Web.RawDestination}
    (orc : Client) (host : string) (params : gmap string string)
    (collection : string) (L : nat) (items : list (option jsonListItem))
    (last : nat) (w : World) (extra : nat) :
  (1 <= L)%nat ->
  paged (Iterator_client (Web.search_iterator orc host params collection)) L
    (next (Web.search_iterator orc host params collection)) items last ->
  Forall Web.accepted items ->
  fst (Web.search (S (length items) + extra) orc host params collection w)
  = Some (Returns
            (Web.WroteResults
               (Web.mkResults (map Web.result_of items)
                  (Z.of_nat (length items)))))
  /\ fetches
       (snd (Web.search (S (length items) + extra) orc host params
               collection w))
     = (fetches w + pages_served (length items) L last)%nat.
Proof.
  intros HL Hp Hacc.
  destruct (iterate_paged _ L _ items last HL Hp
              (Web.search_iterator orc host params collection) w extra)
    as (final & w' & Hit & Hf & _ & _).
  - split; reflexivity.
  - reflexivity.
  - cbn. lia.
  - reflexivity.
  - cbn. apply append_nonempty.
  - unfold Web.search, bind, ret.
    rewrite (search_loop_iterate _ _ _ _ _ _ None [] Hit eq_refl Hacc).
    cbn [fst snd app]. rewrite length_map. split; [reflexivity | exact Hf].
Qed.

(** Three items are found, two to a page; the request asks for one. *)
Lemma search_walks_every_page_witness :
  let P := mockPlatform searchServer threeItemsPages in
  fst (@Web.search P Web.mockRaw 4 testClient ""
         {[ "query" := "*"; "limit" := "1" ]} "c" emptyWorld)
  = Some (Returns
            (Web.WroteResults
               (Web.mkResults
                  [Web.mkResult "{}"; Web.mkResult "{}"; Web.mkResult "{}"]
                  3))).
Proof.
  intros P.
  apply (@search_walks_every_page P Web.mockRaw testClient ""
           {[ "query" := "*"; "limit" := "1" ]} "c" 2
           [testItem "k1"; testItem "k2"; testItem "k3"] 1 emptyWorld 0).
  - lia.
  - eapply (@paged_more P testClient 2 _ page1 [testItem "k3"] 1).
    + reflexivity.
    + reflexivity.
    + discriminate.
    + apply (@paged_last P testClient 2 "c?limit=2&offset=2" page2).
      * reflexivity.
      * reflexivity.
      * cbn. lia.
  - repeat constructor.
Defined.

(** X15. A failure on the way is not reported. Over a server that serves
    some full pages and then fails, the handler, when no element of
    these pages is null and its destination takes every value, writes
    the items of the pages before the failure as if they were all there
    were, with their count and no error: the handler does not look at
    the iterator's [Error] after the loop. *)
Theorem search_hides_a_failed_fetch `{Platform} `{Web.RawDestination}
    (orc : Client) (host : string) (params : gmap string string)
    (collection : string) (L : nat) (good : list (option jsonListItem)) (err : error)
    (w : World) (extra : nat) :
  (1 <= L)%nat ->
  paged_then_fails
    (Iterator_client (Web.search_iterator orc host params collection)) L
    (next (Web.search_iterator orc host params collection)) good err ->
  Forall Web.accepted good ->
  fst (Web.search (S (length good) + extra) orc host params collection w)
  = Some (Returns
            (Web.WroteResults
               (Web.mkResults (map Web.result_of good)
                  (Z.of_nat (length good))))).
Proof.
  intros HL Hp Hacc.
  destruct (iterate_fails _ L _ good err HL Hp
              (Web.search_iterator orc host params collection) w extra)
    as (final & w' & Hit & _ & _).
  - split; reflexivity.
  - reflexivity.
  - cbn. lia.
  - reflexivity.
  - cbn. apply append_nonempty.
  - unfold Web.search, bind, ret.
    rewrite (search_loop_iterate _ _ _ _ _ _ None [] Hit eq_refl Hacc).
    cbn [fst app]. rewrite length_map. reflexivity.
Qed.

(** The second page answers 500: two results are written, and no
    error. *)
Lemma search_hides_a_failed_fetch_witness :
  let P := mockPlatform secondPageDown threeItemsPages in
  fst (@Web.search P Web.mockRaw 3 testClient ""
         {[ "query" := "*" ]} "c" emptyWorld)
  = Some (Returns
            (Web.WroteResults
               (Web.mkResults [Web.mkResult "{}"; Web.mkResult "{}"] 2))).
Proof.
  intros P.
  apply (@search_hides_a_failed_fetch P Web.mockRaw testClient ""
           {[ "query" := "*" ]} "c" 2 [testItem "k1"; testItem "k2"]
           (UnknownError "500 Internal Server Error" 500 "down")
           emptyWorld 0).
  - lia.
  - eapply (@fails_later P testClient 2 _ page1 []).
    + reflexivity.
    + reflexivity.
    + discriminate.
    + apply (@fails_now P testClient 2 "c?limit=2&offset=2").
      reflexivity.
  - repeat constructor.
Defined.

(** ** The older client, package gorc *)

(** A string is a prefix of itself followed by anything. *)
Lemma prefix_append (a b : string) : String.prefix a (a +:+ b) = true.
Proof.
  induction a as [|ch a IH].
  - destruct b; reflexivity.
  - change (String ch a +:+ b) with (String ch (a +:+ b)).
    cbn [String.prefix]. destruct (ascii_dec ch ch); [exact IH | congruence].
Qed.

Section GorcReplies.
Context `{Platform} `{Gorc.JSON}.

(** [Gorc.doRequest] once [http.NewRequest] has accepted the request. *)
Lemma Gorc_doRequest_accepted (c : Client) (method trailing : string)
    (headers : gmap string string) (body : option string) (w : World) :
  NewRequest_error method
    (URL (Gorc.buildRequest c method trailing headers body)) = None ->
  Gorc.doRequest c method trailing headers body w
  = (Do (Gorc.buildRequest c method trailing headers body),
     mkWorld (Gorc.buildRequest c method trailing headers body :: sent w)
       (closed w)).
Proof. intros Hn. unfold Gorc.doRequest. rewrite Hn. reflexivity. Qed.

(** [Gorc.newError] reads the body to its end. *)
Lemma Gorc_newError_reads_all (resp : Response) :
  Gorc.newError resp
  = (match Gorc.Unmarshal_OrchestrateError (Body resp) with
     | inr message =>
         Gorc.OrchestrateError (Status resp) (StatusCode resp) message
     | inl _ => Gorc.GoError (errorString (Body resp))
     end, "").
Proof.
  unfold Gorc.newError, Gorc.ReadAll.
  destruct (Gorc.Unmarshal_OrchestrateError _); reflexivity.
Qed.

End GorcReplies.

(** X16. In the older client every call, on a status other than the one
    it expects, returns the error [newError] makes of the response,
    having read the body to its end: an [OrchestrateError] with the
    status of the response and the message of its body when the body is
    the JSON of one, and otherwise an error whose text is the whole body.
    One request was sent, over https. Every call but [Ping] then closes
    the body, with nothing left unread, so the connection can be used
    again; [Ping] has no [Close] and leaves the body open. *)
Theorem gorc_error_reads_whole_body `{Platform} `{Gorc.JSON} (c : Client)
    (m : Gorc.Call) (resp : Response) (w : World) :
  NewRequest_error (Gorc.call_method m)
    (URL (Gorc.buildRequest c (Gorc.call_method m) (Gorc.call_path m) ∅
            (Gorc.call_body m))) = None ->
  Do (Gorc.buildRequest c (Gorc.call_method m) (Gorc.call_path m) ∅
        (Gorc.call_body m)) = inr resp ->
  StatusCode resp <> Gorc.call_status m ->
  fst (Gorc.call c m w)
  = Some (match Gorc.Unmarshal_OrchestrateError (Body resp) with
          | inr message =>
              Gorc.OrchestrateError (Status resp) (StatusCode resp) message
          | inl _ => Gorc.GoError (errorString (Body resp))
          end)
  /\ sent (snd (Gorc.call c m w))
     = Gorc.buildRequest c (Gorc.call_method m) (Gorc.call_path m) ∅
         (Gorc.call_body m) :: sent w
  /\ String.prefix "https://"
       (URL (Gorc.buildRequest c (Gorc.call_method m) (Gorc.call_path m) ∅
               (Gorc.call_body m))) = true
  /\ closed (snd (Gorc.call c m w))
     = match m with
       | Gorc.CallPing => closed w
       | _ => "" :: closed w
       end.
Proof.
  intros Hn Hd Hs.
  destruct m; cbn [Gorc.call Gorc.call_method Gorc.call_path Gorc.call_body
                   Gorc.call_status] in *;
    unfold Gorc.Ping, Gorc.PutRelation, Gorc.DeleteRelation, Gorc.PutEventRaw,
      Gorc.PutEventWithTimeRaw, Gorc.doPutEvent, Gorc.GetRelations,
      Gorc.GetEvents, Gorc.GetEventsInRange, Gorc.GetEventsInRangeWithLimit,
      Gorc.doGetEvents, Gorc.Search, Gorc.SearchSorted, Gorc.doSearch;
    unfold bind;
    rewrite (Gorc_doRequest_accepted _ _ _ _ _ w Hn), Hd;
    rewrite bool_decide_false by assumption; cbn [negb];
    rewrite Gorc_newError_reads_all; repeat split;
    solve [reflexivity | apply prefix_append].
Qed.

(** A gateway out of order, answering in HTML: the error is the page. *)
Lemma gorc_error_reads_whole_body_witness :
  let P := mockPlatform
             (always (mkResponse "502 Bad Gateway" 502 ∅ "<html>"))
             noPages in
  fst (@Gorc.call P Gorc.mockJSON (Gorc.NewClient "token")
         (Gorc.CallGetEvents "c" "k" "t") emptyWorld)
    = Some (Gorc.GoError (errorString "<html>"))
  /\ closed (snd (@Gorc.call P Gorc.mockJSON (Gorc.NewClient "token")
                    (Gorc.CallGetEvents "c" "k" "t") emptyWorld)) = [""]
  /\ closed (snd (@Gorc.call P Gorc.mockJSON (Gorc.NewClient "token")
                    Gorc.CallPing emptyWorld)) = [].
Proof.
  intros P.
  destruct (@gorc_error_reads_whole_body P Gorc.mockJSON
              (Gorc.NewClient "token") (Gorc.CallGetEvents "c" "k" "t")
              (mkResponse "502 Bad Gateway" 502 ∅ "<html>") emptyWorld)
    as (E1 & _ & _ & E2).
  - reflexivity.
  - reflexivity.
  - cbn. lia.
  - destruct (@gorc_error_reads_whole_body P Gorc.mockJSON
                (Gorc.NewClient "token") Gorc.CallPing
                (mkResponse "502 Bad Gateway" 502 ∅ "<html>") emptyWorld)
      as (_ & _ & _ & E3).
    + reflexivity.
    + reflexivity.
    + cbn. lia.
    + split; [exact E1|]. split; [exact E2 | exact E3].
Defined.

(** X17. [SearchGetNext] and [SearchGetPrev] drop the first four bytes of
    the link, unchecked, and search the rest: given the last page, whose
    [Next] is empty so that [HasNext] is false (or the first, for
    [Prev]), the slice expression panics and nothing is sent; given a
    link of at least four bytes, whatever the four, the call is
    [doSearch] on what follows them. *)
Theorem SearchGetNext_needs_HasNext `{Platform} `{Gorc.JSON} (c : Client)
    (r : Gorc.SearchResults) (w : World) :
  (Gorc.HasNext r = false ->
   Gorc.SearchGetNext c r w = (Panics "slice bounds out of range", w))
  /\ (Gorc.HasPrev r = false ->
      Gorc.SearchGetPrev c r w = (Panics "slice bounds out of range", w))
  /\ (forall b1 b2 b3 b4 rest,
        Gorc.sr_Next r = String b1 (String b2 (String b3 (String b4 rest))) ->
        Gorc.SearchGetNext c r w
        = (Returns (fst (Gorc.doSearch c rest w)),
           snd (Gorc.doSearch c rest w)))
  /\ (forall b1 b2 b3 b4 rest,
        Gorc.sr_Prev r = String b1 (String b2 (String b3 (String b4 rest))) ->
        Gorc.SearchGetPrev c r w
        = (Returns (fst (Gorc.doSearch c rest w)),
           snd (Gorc.doSearch c rest w))).
Proof.
  assert (Hslice : forall b1 b2 b3 b4 rest,
            Gorc.search_from c
              (String b1 (String b2 (String b3 (String b4 rest)))) w
            = (Returns (fst (Gorc.doSearch c rest w)),
               snd (Gorc.doSearch c rest w))).
  { intros. unfold Gorc.search_from.
    set (s := String b1 (String b2 (String b3 (String b4 rest)))).
    assert (Hlen : len s = 4 + len rest).
    { unfold s, len. cbn [String.length]. lia. }
    pose proof (len_nonneg rest) as Hnn.
    replace (len s <? 4) with false by (symmetry; apply Z.ltb_ge; lia).
    assert (Hsl : slice s 4 (len s) = rest).
    { unfold slice. rewrite Hlen.
      replace (4 + len rest - 4) with (len rest) by lia.
      unfold len. rewrite Nat2Z.id.
      change (Z.to_nat 4) with 4%nat. unfold s. cbn [String.substring].
      apply substring_all. }
    rewrite Hsl. unfold bind, ret.
    destruct (Gorc.doSearch c rest w). reflexivity. }
  repeat split.
  - unfold Gorc.HasNext, Gorc.SearchGetNext, Gorc.search_from.
    intros E. apply negb_false_iff, bool_decide_eq_true in E. rewrite E.
    reflexivity.
  - unfold Gorc.HasPrev, Gorc.SearchGetPrev, Gorc.search_from.
    intros E. apply negb_false_iff, bool_decide_eq_true in E. rewrite E.
    reflexivity.
  - intros b1 b2 b3 b4 rest E. unfold Gorc.SearchGetNext. rewrite E.
    apply Hslice.
  - intros b1 b2 b3 b4 rest E. unfold Gorc.SearchGetPrev. rewrite E.
    apply Hslice.
Qed.

(** The last page of a search, and a page that has a next one. *)
Lemma SearchGetNext_needs_HasNext_witness :
  let P := mockPlatform (always (mkResponse "200 OK" 200 ∅ "{}")) noPages in
  let last := Gorc.mkSearchResults 0 0 [] "" "" in
  let first := Gorc.mkSearchResults 0 0 [] "/v0/c?query=x&offset=10" "" in
  fst (@Gorc.SearchGetNext P Gorc.mockJSON (Gorc.NewClient "token") last
         emptyWorld) = Panics "slice bounds out of range"
  /\ (URL <$> sent (snd (@Gorc.SearchGetNext P Gorc.mockJSON
                           (Gorc.NewClient "token") first emptyWorld)))
     = ["https://api.orchestrate.io/v0/c?query=x&offset=10"].
Proof.
  intros P last first.
  destruct (@SearchGetNext_needs_HasNext P Gorc.mockJSON
              (Gorc.NewClient "token") last emptyWorld) as (E1 & _).
  destruct (@SearchGetNext_needs_HasNext P Gorc.mockJSON
              (Gorc.NewClient "token") first emptyWorld) as (_ & _ & E2 & _).
  rewrite (E1 eq_refl).
  rewrite (E2 "/"%char "v"%char "0"%char "/"%char "c?query=x&offset=10"
             eq_refl).
  split; reflexivity.
Defined.

(** X18. What comes back with an error in the older client.
    [GetRelations] and [doGetEvents] (and with it [GetEvents],
    [GetEventsInRange] and [GetEventsInRangeWithLimit]) return either
    results and a nil error or nil and an error. [doSearch] (and with it
    [Search], [SearchSorted], [SearchGetNext] and [SearchGetPrev]) never
    returns nil with a nil error either, but when the body of a 200 does
    not decode it returns the results as far as they were decoded
    together with the error. *)
Theorem gorc_result_or_error `{Platform} `{Gorc.JSON} (c : Client)
    (w : World) :
  (forall collection key hops,
     (exists err,
        fst (Gorc.GetRelations c collection key hops w) = (None, Some err))
     \/ (exists r,
           fst (Gorc.GetRelations c collection key hops w) = (Some r, None)))
  /\ (forall uri,
        (exists err, fst (Gorc.doGetEvents c uri w) = (None, Some err))
        \/ (exists r, fst (Gorc.doGetEvents c uri w) = (Some r, None)))
  /\ (forall uri,
        (exists err, fst (Gorc.doSearch c uri w) = (None, Some err))
        \/ (exists r, fst (Gorc.doSearch c uri w) = (Some r, None))
        \/ (exists r err resp,
              Do (Gorc.buildRequest c "GET" uri ∅ None) = inr resp
              /\ StatusCode resp = 200
              /\ fst (Gorc.Decode_SearchResults (Body resp)) = (r, Some err)
              /\ fst (Gorc.doSearch c uri w) = (Some r, Some (Gorc.GoError err))))
  /\ (forall uri resp r err,
        NewRequest_error "GET" (URL (Gorc.buildRequest c "GET" uri ∅ None))
          = None ->
        Do (Gorc.buildRequest c "GET" uri ∅ None) = inr resp ->
        StatusCode resp = 200 ->
        fst (Gorc.Decode_SearchResults (Body resp)) = (r, Some err) ->
        fst (Gorc.doSearch c uri w) = (Some r, Some (Gorc.GoError err))).
Proof.
  repeat split.
  - intros. unfold Gorc.GetRelations, Gorc.doRequest. unfold_M.
    destruct (NewRequest_error _ _); cbn; [left; eauto|].
    destruct (Do _) as [e|resp]; cbn; [left; eauto|].
    case_bool_decide; cbn.
    + destruct (Gorc.Decode_GraphResults _) as [[e|r] rest]; cbn;
        [left | right]; eauto.
    + destruct (Gorc.Unmarshal_OrchestrateError _); cbn; left; eauto.
  - intros. unfold Gorc.doGetEvents, Gorc.doRequest. unfold_M.
    destruct (NewRequest_error _ _); cbn; [left; eauto|].
    destruct (Do _) as [e|resp]; cbn; [left; eauto|].
    case_bool_decide; cbn.
    + destruct (Gorc.Decode_EventResults _) as [[e|r] rest]; cbn;
        [left | right]; eauto.
    + destruct (Gorc.Unmarshal_OrchestrateError _); cbn; left; eauto.
  - intros. unfold Gorc.doSearch, Gorc.doRequest. unfold_M.
    destruct (NewRequest_error _ _); cbn; [left; eauto|].
    destruct (Do _) as [e|resp] eqn:Hd; cbn; [left; eauto|].
    case_bool_decide as Hs; cbn.
    + destruct (Gorc.Decode_SearchResults _) as [[r [e|]] rest] eqn:Hdec; cbn.
      * right. right. exists r, e, resp. rewrite Hdec. auto.
      * right. left. eauto.
    + destruct (Gorc.Unmarshal_OrchestrateError _); cbn; left; eauto.
  - intros uri resp r err Hn Hd Hs Hdec.
    unfold Gorc.doSearch, bind.
    rewrite (Gorc_doRequest_accepted _ _ _ _ _ w Hn), Hd.
    rewrite bool_decide_true by assumption. cbn [negb].
    destruct (Gorc.Decode_SearchResults _) as [[r' e'] rest].
    cbn [fst] in Hdec. injection Hdec as -> ->. reflexivity.
Qed.

(** A 200 whose body is not the JSON of search results. *)
Lemma gorc_result_or_error_witness :
  let P := mockPlatform (always (mkResponse "200 OK" 200 ∅ "<html>")) noPages in
  fst (@Gorc.doSearch P Gorc.mockJSON (Gorc.NewClient "token") "c?query=x"
         emptyWorld)
  = (Some (Gorc.mkSearchResults 0 0 [] "" ""),
     Some (Gorc.GoError (errorString "unexpected end of JSON input"))).
Proof.
  intros P.
  destruct (@gorc_result_or_error P Gorc.mockJSON (Gorc.NewClient "token")
              emptyWorld) as (_ & _ & _ & E).
  apply (E "c?query=x" (mkResponse "200 OK" 200 ∅ "<html>")); reflexivity.
Defined.
